(** * sqldef: the idempotent schema diff generator (schema/generator.go)

    A shallow embedding of the DDL generator and the properties the
    specification states about it.  Go slices are lists (an [append] yields
    a fresh list), pointers that the generator only tests for [nil] are
    options, the one pointer it compares by address ([Column.check]) keeps
    its address, and a function returning [(value, error)] returns a
    [result]. *)

From Stdlib Require Import String Ascii List ZArith Bool Lia Arith.
From Stdlib Require Import DecimalString SpecFloat Permutation Sorted.
Import ListNotations.

Local Open Scope list_scope.
Local Open Scope string_scope.

(** ** Results *)

(** The result of a function that returns [(value, error)].  Where the Go
    code returns the statements gathered so far next to a non-nil error, the
    callers drop them; the model keeps the error alone. *)

Inductive result (E A : Type) : Type :=
| Ok (a : A)
| Err (e : E).

Arguments Ok {E A} a.
Arguments Err {E A} e.

Definition bind {E A B : Type} (r : result E A) (k : A -> result E B) : result E B :=
  match r with
  | Ok a => k a
  | Err e => Err e
  end.

Notation "x <- r ;; k" := (bind r (fun x => k))
  (at level 61, r at next level, right associativity).

Definition isOk {E A : Type} (r : result E A) : bool :=
  match r with Ok _ => true | Err _ => false end.

(** ** Strings of the Go runtime *)

Module Strings.

(** [strings.SplitN(s, ".", 2)]: [None] stands for the one-element result
    [[s]], [Some (a, b)] for the two-element result [[a, b]]. *)
Fixpoint SplitN2 (s : string) : option (string * string) :=
  match s with
  | EmptyString => None
  | String c r =>
      if Ascii.eqb c "." then Some (EmptyString, r)
      else match SplitN2 r with
           | Some (a, b) => Some (String c a, b)
           | None => None
           end
  end.

(** [strings.Replace(s, old, new, 1)] for a non-empty [old]. *)
Fixpoint Replace1 (old new s : string) : string :=
  if prefix old s then new ++ substring (String.length old) (String.length s - String.length old) s
  else match s with
       | EmptyString => s
       | String c r => String c (Replace1 old new r)
       end.

Definition HasSuffix (s suffix : string) : bool :=
  (String.length suffix <=? String.length s)%nat &&
  String.eqb (substring (String.length s - String.length suffix) (String.length suffix) s) suffix.

Definition TrimSuffix (s suffix : string) : string :=
  if HasSuffix s suffix then substring 0 (String.length s - String.length suffix) s else s.

Definition Join (elems : list string) (sep : string) : string :=
  String.concat sep elems.

(** The verb [%d]. *)
Definition FormatInt (z : Z) : string :=
  NilZero.string_of_int (Z.to_int z).

(** The verb [%f] on a [float64]: six digits after the point, the exact
    value rounded to nearest, ties to even. *)
Fixpoint padLeft (n : nat) (s : string) : string :=
  match n with
  | O => s
  | S k => if (String.length s <? n)%nat then "0" ++ padLeft k s else s
  end.

Definition FormatFloat (f : spec_float) : string :=
  match f with
  | S754_zero s => (if s then "-" else EmptyString) ++ "0.000000"
  | S754_infinity s => if s then "-Inf" else "+Inf"
  | S754_nan => "NaN"
  | S754_finite s m e =>
      let scaled :=
        if (0 <=? e)%Z then (Z.pos m * 2 ^ e * 1000000)%Z
        else
          let n := (Z.pos m * 1000000)%Z in
          let d := (2 ^ (- e))%Z in
          let q := (n / d)%Z in
          let r := (n mod d)%Z in
          if (2 * r <? d)%Z then q
          else if (d <? 2 * r)%Z then (q + 1)%Z
          else if Z.even q then q else (q + 1)%Z in
      (if s then "-" else EmptyString) ++ FormatInt (scaled / 1000000) ++ "." ++
      padLeft 6 (FormatInt (scaled mod 1000000))
  end.

(** The verb [%v] on a [[]string]. *)
Definition FormatStrings (l : list string) : string :=
  "[" ++ String.concat " " l ++ "]".

(** ASCII case folding: what [strings.ToLower] does to a string of ASCII
    bytes. *)
Definition lowerAscii (c : ascii) : ascii :=
  let n := nat_of_ascii c in
  if ((65 <=? n) && (n <=? 90))%nat then ascii_of_nat (n + 32) else c.

Fixpoint ToLowerAscii (s : string) : string :=
  match s with
  | EmptyString => EmptyString
  | String c r => String (lowerAscii c) (ToLowerAscii r)
  end.

Definition isSpaceAscii (c : ascii) : bool :=
  let n := nat_of_ascii c in
  ((9 <=? n) && (n <=? 13))%nat || (n =? 32)%nat.

Fixpoint TrimLeftAscii (s : string) : string :=
  match s with
  | EmptyString => EmptyString
  | String c r => if isSpaceAscii c then TrimLeftAscii r else s
  end.

Fixpoint TrimRightAscii (s : string) : string :=
  match s with
  | EmptyString => EmptyString
  | String c r =>
      match TrimRightAscii r with
      | EmptyString => if isSpaceAscii c then EmptyString else String c EmptyString
      | r' => String c r'
      end
  end.

Definition TrimSpaceAscii (s : string) : string :=
  TrimRightAscii (TrimLeftAscii s).

End Strings.

(** The functions of the Go standard library that consult the Unicode
    tables, which are outside the repository. *)
Class GoRuntime : Type := {
  ToLower : string -> string;
  TrimSpace : string -> string
}.

(** ** Data model *)

Inductive GeneratorMode : Type :=
| GeneratorModeMysql
| GeneratorModePostgres
| GeneratorModeSQLite3
| GeneratorModeMssql.

(** The declarations of [ast.go] (the structs [Value], [Column], [Index],
    [ForeignKey], [Policy], [View], [Table], the DDL variants and the two
    enumerations), whose text the sources carry at the end of
    [cmd/mssqldef/mssqldef_test.go]: the records below have its fields in
    its order, a pointer field being an option. *)
Inductive ValueType : Type :=
| ValueTypeStr | ValueTypeInt | ValueTypeFloat | ValueTypeHexNum
| ValueTypeHex | ValueTypeValArg | ValueTypeBit | ValueTypeBool.

Definition ValueType_eqb (a b : ValueType) : bool :=
  match a, b with
  | ValueTypeStr, ValueTypeStr | ValueTypeInt, ValueTypeInt
  | ValueTypeFloat, ValueTypeFloat | ValueTypeHexNum, ValueTypeHexNum
  | ValueTypeHex, ValueTypeHex | ValueTypeValArg, ValueTypeValArg
  | ValueTypeBit, ValueTypeBit | ValueTypeBool, ValueTypeBool => true
  | _, _ => false
  end.

Definition ValueType_ordinal (t : ValueType) : nat :=
  match t with
  | ValueTypeStr => 0 | ValueTypeInt => 1 | ValueTypeFloat => 2
  | ValueTypeHexNum => 3 | ValueTypeHex => 4 | ValueTypeValArg => 5
  | ValueTypeBit => 6 | ValueTypeBool => 7
  end.

Inductive ColumnKeyOption : Type :=
| ColumnKeyNone | ColumnKeyPrimary | ColumnKeySpatialKey
| ColumnKeyUnique | ColumnKeyUniqueKey | ColumnKey.

Definition ColumnKeyOption_eqb (a b : ColumnKeyOption) : bool :=
  match a, b with
  | ColumnKeyNone, ColumnKeyNone | ColumnKeyPrimary, ColumnKeyPrimary
  | ColumnKeySpatialKey, ColumnKeySpatialKey | ColumnKeyUnique, ColumnKeyUnique
  | ColumnKeyUniqueKey, ColumnKeyUniqueKey | ColumnKey, ColumnKey => true
  | _, _ => false
  end.

(** [ColumnKeyOption.isUnique] of [ast.go]:
    [keyOption == ColumnKeyUnique || keyOption == ColumnKeyUniqueKey]. *)
Definition isUnique (k : ColumnKeyOption) : bool :=
  match k with
  | ColumnKeyUnique | ColumnKeyUniqueKey => true
  | _ => false
  end.

Module Value.
(** [raw] is a [[]byte]: [raw] holds its bytes and [rawNil] says that the
    slice is [nil] (its bytes are then none), which only [reflect.DeepEqual]
    tells from an empty slice. *)
Record t : Type := mk {
  valueType : ValueType;
  raw : string;
  rawNil : bool;
  strVal : string;
  intVal : Z;
  floatVal : spec_float;
  bitVal : bool
}.
End Value.

Module DefaultDefinition.
Record t : Type := mk {
  value : option Value.t;
  constraintName : string
}.
End DefaultDefinition.

Module CheckDefinition.
Record t : Type := mk {
  definition : string;
  constraintName : string
}.
End CheckDefinition.

(** A pointer whose address the program observes. *)
Module Ptr.
Record t (A : Type) : Type := mk {
  addr : positive;
  deref : A
}.
Arguments mk {A} addr deref.
Arguments addr {A} t.
Arguments deref {A} t.
End Ptr.

Module Sequence.
Record t : Type := mk {
  Name : string;
  IfNotExists : bool;
  Type_ : string;
  IncrementBy : option Z;
  MinValue : option Z;
  NoMinValue : bool;
  MaxValue : option Z;
  NoMaxValue : bool;
  StartWith : option Z;
  Cache : option Z;
  Cycle : bool;
  NoCycle : bool;
  OwnedBy : string
}.
End Sequence.

Module Column.
Record t : Type := mk {
  name : string;
  position : Z;
  typeName : string;
  unsigned : bool;
  notNull : option bool;
  autoIncrement : bool;
  array : bool;
  defaultDef : option DefaultDefinition.t;
  length : option Value.t;
  scale : option Value.t;
  check : option (Ptr.t CheckDefinition.t);
  checkNoInherit : bool;
  charset : string;
  collate : string;
  timezone : bool;
  keyOption : ColumnKeyOption;
  onUpdate : option Value.t;
  enumValues : list string;
  references : string;
  identity : string;
  sequence : option Sequence.t
}.

Definition set_autoIncrement (b : bool) (c : t) : t :=
  mk (name c) (position c) (typeName c) (unsigned c) (notNull c) b (array c)
     (defaultDef c) (length c) (scale c) (check c) (checkNoInherit c)
     (charset c) (collate c) (timezone c) (keyOption c) (onUpdate c)
     (enumValues c) (references c) (identity c) (sequence c).

Definition set_notNull (b : option bool) (c : t) : t :=
  mk (name c) (position c) (typeName c) (unsigned c) b (autoIncrement c) (array c)
     (defaultDef c) (length c) (scale c) (check c) (checkNoInherit c)
     (charset c) (collate c) (timezone c) (keyOption c) (onUpdate c)
     (enumValues c) (references c) (identity c) (sequence c).

Definition set_defaultDef (d : option DefaultDefinition.t) (c : t) : t :=
  mk (name c) (position c) (typeName c) (unsigned c) (notNull c) (autoIncrement c) (array c)
     d (length c) (scale c) (check c) (checkNoInherit c)
     (charset c) (collate c) (timezone c) (keyOption c) (onUpdate c)
     (enumValues c) (references c) (identity c) (sequence c).

Definition set_keyOption (k : ColumnKeyOption) (c : t) : t :=
  mk (name c) (position c) (typeName c) (unsigned c) (notNull c)
     (autoIncrement c) (array c) (defaultDef c) (length c) (scale c)
     (check c) (checkNoInherit c) (charset c) (collate c) (timezone c) k
     (onUpdate c) (enumValues c) (references c) (identity c) (sequence c).
End Column.

Module IndexColumn.
Record t : Type := mk {
  column : string;
  length : option Z
}.
End IndexColumn.

Module IndexOption.
Record t : Type := mk {
  optionName : string;
  value : option Value.t
}.
End IndexOption.

Module Index.
Record t : Type := mk {
  name : string;
  indexType : string;
  columns : list IndexColumn.t;
  primary : bool;
  unique : bool;
  where_ : string;
  clustered : bool;
  options : list IndexOption.t
}.
End Index.

Module ForeignKey.
Record t : Type := mk {
  constraintName : string;
  indexName : string;
  indexColumns : list string;
  referenceName : string;
  referenceColumns : list string;
  onDelete : string;
  onUpdate : string
}.
End ForeignKey.

Module Policy.
Record t : Type := mk {
  name : string;
  referenceName : string;
  permissive : string;
  scope : string;
  roles : list string;
  using_ : string;
  withCheck : string
}.
End Policy.

Module View.
Record t : Type := mk {
  statement : string;
  name : string;
  definition : string
}.
End View.

Module Table.
Record t : Type := mk {
  name : string;
  columns : list Column.t;
  indexes : list Index.t;
  foreignKeys : list ForeignKey.t;
  policies : list Policy.t
}.

Definition set_columns (l : list Column.t) (x : t) : t :=
  mk (name x) l (indexes x) (foreignKeys x) (policies x).
Definition set_indexes (l : list Index.t) (x : t) : t :=
  mk (name x) (columns x) l (foreignKeys x) (policies x).
Definition set_foreignKeys (l : list ForeignKey.t) (x : t) : t :=
  mk (name x) (columns x) (indexes x) l (policies x).
Definition set_policies (l : list Policy.t) (x : t) : t :=
  mk (name x) (columns x) (indexes x) (foreignKeys x) l.
End Table.

Inductive DDL : Type :=
| CreateTable (statement : string) (table : Table.t)
| CreateIndex (statement tableName : string) (index : Index.t)
| AddIndex (statement tableName : string) (index : Index.t)
| AddPrimaryKey (statement tableName : string) (index : Index.t)
| AddForeignKey (statement tableName : string) (foreignKey : ForeignKey.t)
| AddPolicy (statement tableName : string) (policy : Policy.t)
| CreateView (view : View.t).

Definition Statement (d : DDL) : string :=
  match d with
  | CreateTable s _ | CreateIndex s _ _ | AddIndex s _ _
  | AddPrimaryKey s _ _ | AddForeignKey s _ _ | AddPolicy s _ _ => s
  | CreateView v => View.statement v
  end.

(** ** Errors *)

(** The value of a Go [error].  [Errorf] is an error built by [fmt.Errorf]
    whose message is rendered in full; the other constructors keep the
    arguments of the messages that print a whole struct or the ordinal of
    an enumeration.  [Panic] is a run-time panic and [Fatal] is
    [log.Fatalf]: both end the call without a statement list. *)
Inductive Error : Type :=
| Errorf (msg : string)
| UnexpectedDDL (ddl : DDL)
| UnsupportedDefaultValue (valueType : nat)
| UnsupportedColumnKey (column : Column.t)
| InColumn (inner : Error) (column : Column.t)
| Panic (what : string)
| Fatal (what : string).

Definition res (A : Type) : Type := result Error A.

(** ** Lookups and name lists *)

Fixpoint containsString (strs : list string) (str : string) : bool :=
  match strs with
  | [] => false
  | s :: rest => if String.eqb s str then true else containsString rest str
  end.

Definition convertColumnsToColumnNames (columns : list Column.t) : list string :=
  map Column.name columns.

Definition convertIndexesToIndexNames (indexes : list Index.t) : list string :=
  map Index.name indexes.

Definition convertForeignKeysToConstraintNames (foreignKeys : list ForeignKey.t) : list string :=
  map ForeignKey.constraintName foreignKeys.

Fixpoint convertForeignKeysToIndexNames (foreignKeys : list ForeignKey.t) : list string :=
  match foreignKeys with
  | [] => []
  | foreignKey :: rest =>
      if (0 <? String.length (ForeignKey.indexName foreignKey))%nat then
        ForeignKey.indexName foreignKey :: convertForeignKeysToIndexNames rest
      else if (0 <? String.length (ForeignKey.constraintName foreignKey))%nat then
        ForeignKey.constraintName foreignKey :: convertForeignKeysToIndexNames rest
      else convertForeignKeysToIndexNames rest
  end.

Definition convertPolicyNames (policies : list Policy.t) : list string :=
  map Policy.name policies.

Definition convertViewNames (views : list View.t) : list string :=
  map View.name views.

(** The first element whose key is [name], as every [find...ByName] loop
    returns it. *)
Fixpoint findByName {A : Type} (key : A -> string) (l : list A) (name : string) : option A :=
  match l with
  | [] => None
  | x :: rest => if String.eqb (key x) name then Some x else findByName key rest name
  end.

Definition findTableByName := findByName Table.name.
Definition findColumnByName := findByName Column.name.
Definition findIndexByName := findByName Index.name.
Definition findIndexOptionByName := findByName IndexOption.optionName.
Definition findForeignKeyByName := findByName ForeignKey.constraintName.
Definition findPolicyByName := findByName Policy.name.
Definition findViewByName := findByName View.name.

Fixpoint findPrimaryKey (indexes : list Index.t) : option Index.t :=
  match indexes with
  | [] => None
  | index :: rest => if Index.primary index then Some index else findPrimaryKey rest
  end.

(** A write through the pointer that [findTableByName] returned: the first
    table called [name] is replaced by its image under [f]. *)
Fixpoint updateTableByName (tables : list Table.t) (name : string)
    (f : Table.t -> Table.t) : list Table.t :=
  match tables with
  | [] => []
  | table :: rest =>
      if String.eqb (Table.name table) name then f table :: rest
      else table :: updateTableByName rest name f
  end.

(** [removeTableByName]: [None] is the [log.Fatalf] exit. *)
Fixpoint removeTableByName_loop (tables : list Table.t) (name : string) : bool * list Table.t :=
  match tables with
  | [] => (false, [])
  | table :: rest =>
      let '(removed, ret) := removeTableByName_loop rest name in
      if String.eqb name (Table.name table) then (true, ret)
      else (removed, table :: ret)
  end.

Definition removeTableByName (tables : list Table.t) (name : string) : option (list Table.t) :=
  let '(removed, ret) := removeTableByName_loop tables name in
  if removed then Some ret else None.

(** [Table.PrimaryKey] of [ast.go]: the first index with [primary] if
    any; otherwise the index ["PRIMARY"] over the columns whose [keyOption]
    is [ColumnKeyPrimary], in their order, or [nil] when there is none. *)
Definition PrimaryKey (table : Table.t) : option Index.t :=
  match findPrimaryKey (Table.indexes table) with
  | Some index => Some index
  | None =>
      match filter (fun c => ColumnKeyOption_eqb (Column.keyOption c) ColumnKeyPrimary)
                   (Table.columns table) with
      | [] => None
      | cols =>
          Some (Index.mk "PRIMARY" "primary key"
                  (map (fun c => IndexColumn.mk (Column.name c) None) cols)
                  true true EmptyString true [])
      end
  end.

(** ** The simulated state: [mergeTable] *)

Fixpoint mergeColumns (columns1 columns2 : list Column.t) : list Column.t :=
  match columns2 with
  | [] => columns1
  | column :: rest =>
      if containsString (convertColumnsToColumnNames columns1) (Column.name column)
      then mergeColumns (columns1 ++ [column])%list rest
      else mergeColumns columns1 rest
  end.

Fixpoint mergeIndexes (indexes1 indexes2 : list Index.t) : list Index.t :=
  match indexes2 with
  | [] => indexes1
  | index :: rest =>
      if containsString (convertIndexesToIndexNames indexes1) (Index.name index)
      then mergeIndexes (indexes1 ++ [index])%list rest
      else mergeIndexes indexes1 rest
  end.

(** [mergeTable(table1, table2)]: the value of [*table1] after the call. *)
Definition mergeTable (table1 table2 : Table.t) : Table.t :=
  Table.set_indexes (mergeIndexes (Table.indexes table1) (Table.indexes table2))
    (Table.set_columns (mergeColumns (Table.columns table1) (Table.columns table2)) table1).

(** ** Equality predicates *)

Definition isNullValue (value : option Value.t) : bool :=
  match value with
  | Some v => ValueType_eqb (Value.valueType v) ValueTypeValArg && String.eqb (Value.raw v) "null"
  | None => false
  end.

Definition areSameValue (current desired : option Value.t) : bool :=
  match current, desired with
  | None, None => true
  | None, Some _ | Some _, None => false
  | Some current, Some desired =>
      let currentRaw := Value.raw current in
      let desiredRaw := Value.raw desired in
      let currentRaw :=
        if ValueType_eqb (Value.valueType desired) ValueTypeFloat &&
           (String.length desiredRaw <? String.length currentRaw)%nat
        then substring 0 (String.length desiredRaw) currentRaw
        else currentRaw in
      String.eqb currentRaw desiredRaw
  end.

Definition areSameDefaultValue (currentDefault desiredDefault : option DefaultDefinition.t) : bool :=
  let current :=
    match currentDefault with
    | Some d => if negb (isNullValue (DefaultDefinition.value d)) then DefaultDefinition.value d else None
    | None => None
    end in
  let desired :=
    match desiredDefault with
    | Some d => if negb (isNullValue (DefaultDefinition.value d)) then DefaultDefinition.value d else None
    | None => None
    end in
  areSameValue current desired.

Definition areSameCheckDefinition (checkA checkB : option (Ptr.t CheckDefinition.t)) : bool :=
  match checkA, checkB with
  | None, None => true
  | None, Some _ | Some _, None => false
  | Some a, Some b =>
      String.eqb (CheckDefinition.definition (Ptr.deref a)) (CheckDefinition.definition (Ptr.deref b))
  end.

(** The elementwise loop of [areSameIndexes]; it runs after the lengths were
    found equal, so [indexB.columns[i]] is in range. *)
Fixpoint sameIndexColumns (columnsA columnsB : list IndexColumn.t) : bool :=
  match columnsA, columnsB with
  | [], _ => true
  | _ :: _, [] => false
  | a :: restA, b :: restB =>
      if negb (String.eqb (IndexColumn.column a) (IndexColumn.column b)) then false
      else sameIndexColumns restA restB
  end.

Fixpoint sameIndexOptions (optionsA optionsB : list IndexOption.t) : bool :=
  match optionsB with
  | [] => true
  | optionB :: rest =>
      match findIndexOptionByName optionsA (IndexOption.optionName optionB) with
      | Some optionA =>
          if negb (areSameValue (IndexOption.value optionA) (IndexOption.value optionB)) then false
          else sameIndexOptions optionsA rest
      | None => false
      end
  end.

Definition areSameIndexes (indexA indexB : Index.t) : bool :=
  if negb (Bool.eqb (Index.unique indexA) (Index.unique indexB)) then false
  else if negb (Bool.eqb (Index.primary indexA) (Index.primary indexB)) then false
  else if negb (List.length (Index.columns indexA) =? List.length (Index.columns indexB))%nat then false
  else if negb (sameIndexColumns (Index.columns indexA) (Index.columns indexB)) then false
  else if negb (String.eqb (Index.where_ indexA) (Index.where_ indexB)) then false
  else sameIndexOptions (Index.options indexA) (Index.options indexB).

Definition areSamePrimaryKeys (primaryKeyA primaryKeyB : option Index.t) : bool :=
  match primaryKeyA, primaryKeyB with
  | Some a, Some b => areSameIndexes a b
  | None, None => true
  | _, _ => false
  end.

(** [sort.Slice(roles, func(i, j) { return roles[i] <= roles[j] })]: the
    list in ascending byte order.  The call sorts the slice of the caller in
    place; nothing but [areSamePolicies], which sorts again, reads the
    roles. *)
Fixpoint insertSorted (x : string) (l : list string) : list string :=
  match l with
  | [] => [x]
  | y :: rest => if String.leb x y then x :: l else y :: insertSorted x rest
  end.

Fixpoint sortStrings (l : list string) : list string :=
  match l with
  | [] => []
  | x :: rest => insertSorted x (sortStrings rest)
  end.

(** ** The generator *)

Module Generator.
Record t : Type := mk {
  mode : GeneratorMode;
  desiredTables : list Table.t;
  currentTables : list Table.t;
  desiredViews : list View.t;
  currentViews : list View.t
}.

Definition set_currentTables (l : list Table.t) (g : t) : t :=
  mk (mode g) (desiredTables g) l (desiredViews g) (currentViews g).
Definition set_desiredTables (l : list Table.t) (g : t) : t :=
  mk (mode g) l (currentTables g) (desiredViews g) (currentViews g).
Definition set_desiredViews (l : list View.t) (g : t) : t :=
  mk (mode g) (desiredTables g) (currentTables g) l (currentViews g).
End Generator.

Definition dataTypeAliases : list (string * string) :=
  [("bool", "boolean"); ("int", "integer"); ("char", "character");
   ("varchar", "character varying")].

Definition mysqlDataTypeAliases : list (string * string) :=
  [("boolean", "tinyint")].

Fixpoint lookupAlias (m : list (string * string)) (key : string) : option string :=
  match m with
  | [] => None
  | (k, v) :: rest => if String.eqb k key then Some v else lookupAlias rest key
  end.

(** A Go [int] is 64 bits wide here; this is the value a two's-complement
    subtraction leaves. *)
Definition wrapInt (z : Z) : Z :=
  ((z + 2 ^ 63) mod 2 ^ 64 - 2 ^ 63)%Z.

(** [reflect.DeepEqual] on two [*Value]. *)
Definition DeepEqualValue (a b : option Value.t) : bool :=
  match a, b with
  | None, None => true
  | Some a, Some b =>
      ValueType_eqb (Value.valueType a) (Value.valueType b) &&
      Bool.eqb (Value.rawNil a) (Value.rawNil b) &&
      String.eqb (Value.raw a) (Value.raw b) &&
      String.eqb (Value.strVal a) (Value.strVal b) &&
      Z.eqb (Value.intVal a) (Value.intVal b) &&
      SFeqb (Value.floatVal a) (Value.floatVal b) &&
      Bool.eqb (Value.bitVal a) (Value.bitVal b)
  | _, _ => false
  end.

(** [==] on two [*CheckDefinition]: the addresses are compared. *)
Definition samePointer {A : Type} (a b : option (Ptr.t A)) : bool :=
  match a, b with
  | None, None => true
  | Some a, Some b => Pos.eqb (Ptr.addr a) (Ptr.addr b)
  | _, _ => false
  end.

Definition optionBool (b : option bool) : bool :=
  match b with Some true => true | _ => false end.

Fixpoint concatMapM {A : Type} (f : A -> res (list string)) (l : list A) : res (list string) :=
  match l with
  | [] => Ok []
  | x :: rest =>
      a <- f x ;;
      b <- concatMapM f rest ;;
      Ok (a ++ b)%list
  end.

Fixpoint concatMapMi {A : Type} (f : nat -> A -> res (list string)) (i : nat) (l : list A)
    : res (list string) :=
  match l with
  | [] => Ok []
  | x :: rest =>
      a <- f i x ;;
      b <- concatMapMi f (S i) rest ;;
      Ok (a ++ b)%list
  end.

(** The double quote character. *)
Definition dquote : string := String (ascii_of_nat 34) EmptyString.

Section Emitter.

Context {rt : GoRuntime}.

(** *** Identifier quoting *)

Definition escapeSQLName (g : Generator.t) (name : string) : string :=
  match Generator.mode g with
  | GeneratorModePostgres => dquote ++ name ++ dquote
  | GeneratorModeMssql => "[" ++ name ++ "]"
  | _ => "`" ++ name ++ "`"
  end.

Definition escapeTableName (g : Generator.t) (name : string) : string :=
  match Generator.mode g with
  | GeneratorModePostgres | GeneratorModeMssql =>
      let '(schemaName, tableName) :=
        match Strings.SplitN2 name with
        | None =>
            match Generator.mode g with
            | GeneratorModePostgres => ("public", name)
            | GeneratorModeMssql => ("dbo", name)
            | _ => (EmptyString, EmptyString)
            end
        | Some (schema, table) => (schema, table)
        end in
      escapeSQLName g schemaName ++ "." ++ escapeSQLName g tableName
  | _ => escapeSQLName g name
  end.

(** *** Rendering *)

Definition generateDataType (column : Column.t) : string :=
  let suffix := if Column.array column then "[]" else EmptyString in
  match Column.length column with
  | Some length =>
      match Column.scale column with
      | Some scale =>
          Column.typeName column ++ "(" ++ Value.raw length ++ ", " ++ Value.raw scale ++ ")" ++ suffix
      | None =>
          Column.typeName column ++ "(" ++ Value.raw length ++ ")" ++ suffix
      end
  | None =>
      if String.eqb (Column.typeName column) "enum" then
        Column.typeName column ++ "(" ++ Strings.Join (Column.enumValues column) ", " ++ ")" ++ suffix
      else Column.typeName column ++ suffix
  end.

Definition generateSequenceClause (sequence : Sequence.t) : string :=
  let ddl := EmptyString in
  let ddl := if negb (String.eqb (Sequence.Name sequence) EmptyString)
             then ddl ++ "SEQUENCE NAME " ++ Sequence.Name sequence ++ " " else ddl in
  let ddl := match Sequence.StartWith sequence with
             | Some n => ddl ++ "START WITH " ++ Strings.FormatInt n ++ " " | None => ddl end in
  let ddl := match Sequence.IncrementBy sequence with
             | Some n => ddl ++ "INCREMENT BY " ++ Strings.FormatInt n ++ " " | None => ddl end in
  let ddl := match Sequence.MinValue sequence with
             | Some n => ddl ++ "MINVALUE " ++ Strings.FormatInt n ++ " " | None => ddl end in
  let ddl := if Sequence.NoMinValue sequence then ddl ++ "NO MINVALUE " else ddl in
  let ddl := match Sequence.MaxValue sequence with
             | Some n => ddl ++ "MAXVALUE " ++ Strings.FormatInt n ++ " " | None => ddl end in
  let ddl := if Sequence.NoMaxValue sequence then ddl ++ "NO MAXVALUE " else ddl in
  let ddl := match Sequence.Cache sequence with
             | Some n => ddl ++ "CACHE " ++ Strings.FormatInt n ++ " " | None => ddl end in
  let ddl := if Sequence.Cycle sequence then ddl ++ "CYCLE " else ddl in
  let ddl := if Sequence.NoCycle sequence then ddl ++ "NO CYCLE " else ddl in
  TrimSpace ddl.

Definition generateDefaultDefinition (defaultVal : Value.t) : res string :=
  match Value.valueType defaultVal with
  | ValueTypeStr => Ok ("DEFAULT '" ++ Value.strVal defaultVal ++ "'")
  | ValueTypeInt => Ok ("DEFAULT " ++ Strings.FormatInt (Value.intVal defaultVal))
  | ValueTypeFloat => Ok ("DEFAULT " ++ Strings.FormatFloat (Value.floatVal defaultVal))
  | ValueTypeBit => if Value.bitVal defaultVal then Ok "DEFAULT b'1'" else Ok "DEFAULT b'0'"
  | ValueTypeValArg => Ok ("DEFAULT " ++ Value.raw defaultVal)
  | t => Err (UnsupportedDefaultValue (ValueType_ordinal t))
  end.

(** The pieces [generateColumnDefinition] appends to [definition], in the
    order it appends them. *)
Definition nullabilityClause (column : Column.t) : list string :=
  if String.eqb (Column.identity column) EmptyString &&
     (optionBool (Column.notNull column) ||
      ColumnKeyOption_eqb (Column.keyOption column) ColumnKeyPrimary)
  then ["NOT NULL "]
  else match Column.notNull column with
       | Some false => ["NULL "]
       | _ => []
       end.

Definition defaultClause (column : Column.t) : res (list string) :=
  match Column.defaultDef column with
  | Some defaultDef =>
      match DefaultDefinition.value defaultDef with
      | Some value =>
          match generateDefaultDefinition value with
          | Ok def => Ok [def ++ " "]
          | Err e => Err (InColumn e column)
          end
      | None => Ok []
      end
  | None => Ok []
  end.

Definition keyOptionClause (column : Column.t) (enableUnique : bool) : res (list string) :=
  match Column.keyOption column with
  | ColumnKeyNone => Ok []
  | ColumnKeyUnique => Ok (if enableUnique then ["UNIQUE "] else [])
  | ColumnKeyUniqueKey => Ok (if enableUnique then ["UNIQUE KEY "] else [])
  | ColumnKeyPrimary => Ok []
  | _ => Err (UnsupportedColumnKey column)
  end.

Definition identityClause (g : Generator.t) (column : Column.t) : res (list string) :=
  if negb (String.eqb (Column.identity column) EmptyString) then
    Ok (("GENERATED " ++ Column.identity column ++ " AS IDENTITY ") ::
        match Column.sequence column with
        | Some sequence => ["(" ++ generateSequenceClause sequence ++ ") "]
        | None => []
        end)
  else
    match Generator.mode g, Column.sequence column with
    | GeneratorModeMssql, Some sequence =>
        match Sequence.StartWith sequence, Sequence.IncrementBy sequence with
        | Some startWith, Some incrementBy =>
            Ok ["IDENTITY(" ++ Strings.FormatInt startWith ++ "," ++ Strings.FormatInt incrementBy ++ ")"]
        | _, _ => Err (Panic "nil pointer dereference")
        end
    | _, _ => Ok []
    end.

Definition columnDefinitionClauses (g : Generator.t) (column : Column.t) (enableUnique : bool)
    : res (list string) :=
  let head := [escapeSQLName g (Column.name column) ++ " " ++ generateDataType column ++ " "] in
  let unsigned := if Column.unsigned column then ["UNSIGNED "] else [] in
  let timezone := if Column.timezone column then ["WITH TIME ZONE "] else [] in
  let charset := if negb (String.eqb (Column.charset column) EmptyString)
                 then ["CHARACTER SET " ++ Column.charset column ++ " "] else [] in
  let collate := if negb (String.eqb (Column.collate column) EmptyString)
                 then ["COLLATE " ++ Column.collate column ++ " "] else [] in
  let nullability := nullabilityClause column in
  def <- defaultClause column ;;
  let autoIncrement := if Column.autoIncrement column then ["AUTO_INCREMENT "] else [] in
  let onUpdate := match Column.onUpdate column with
                  | Some v => ["ON UPDATE " ++ Value.raw v ++ " "] | None => [] end in
  let check := match Column.check column with
               | Some p => ["CHECK (" ++ CheckDefinition.definition (Ptr.deref p) ++ ") "]
               | None => [] end in
  let noInherit := if Column.checkNoInherit column then ["NO INHERIT "] else [] in
  key <- keyOptionClause column enableUnique ;;
  ident <- identityClause g column ;;
  Ok (head ++ unsigned ++ timezone ++ charset ++ collate ++ nullability ++ def ++
      autoIncrement ++ onUpdate ++ check ++ noInherit ++ key ++ ident)%list.

Definition generateColumnDefinition (g : Generator.t) (column : Column.t) (enableUnique : bool)
    : res string :=
  clauses <- columnDefinitionClauses g column enableUnique ;;
  Ok (Strings.TrimSuffix (String.concat EmptyString clauses) " ").

Fixpoint mssqlIndexOptions (indexOptions : list IndexOption.t) : res (list string) :=
  match indexOptions with
  | [] => Ok []
  | indexOption :: rest =>
      match IndexOption.value indexOption with
      | None => Err (Panic "nil pointer dereference")
      | Some value =>
          let optionValue :=
            match Value.valueType value with
            | ValueTypeBool => if String.eqb (Value.raw value) "true" then "ON" else "OFF"
            | _ => Value.raw value
            end in
          let option := IndexOption.optionName indexOption ++ " = " ++ optionValue in
          options <- mssqlIndexOptions rest ;;
          Ok (option :: options)
      end
  end.

Definition generateIndexOptionDefinition (g : Generator.t) (indexOptions : list IndexOption.t)
    : res string :=
  match indexOptions with
  | [] => Ok EmptyString
  | indexOption :: _ =>
      match Generator.mode g with
      | GeneratorModeMysql =>
          let optionName :=
            if String.eqb (IndexOption.optionName indexOption) "parser"
            then "WITH " ++ IndexOption.optionName indexOption
            else IndexOption.optionName indexOption in
          match IndexOption.value indexOption with
          | Some value => Ok (" " ++ optionName ++ " " ++ Value.raw value)
          | None => Err (Panic "nil pointer dereference")
          end
      | GeneratorModeMssql =>
          options <- mssqlIndexOptions indexOptions ;;
          Ok (" WITH (" ++ Strings.Join options ", " ++ ")")
      | _ => Ok EmptyString
      end
  end.

Definition generateAddIndex (g : Generator.t) (table : string) (index : Index.t) : res string :=
  let uniqueOption := if Index.unique index then " UNIQUE" else EmptyString in
  let clusteredOption := if Index.clustered index then " CLUSTERED" else " NONCLUSTERED" in
  let columns :=
    map (fun indexColumn =>
           let column := escapeSQLName g (IndexColumn.column indexColumn) in
           match IndexColumn.length indexColumn with
           | Some length => column ++ "(" ++ Strings.FormatInt length ++ ")"
           | None => column
           end) (Index.columns index) in
  optionDefinition <- generateIndexOptionDefinition g (Index.options index) ;;
  match Generator.mode g with
  | GeneratorModeMssql =>
      let ddl :=
        if negb (Index.primary index) then
          "CREATE" ++ uniqueOption ++ clusteredOption ++ " INDEX " ++
          escapeSQLName g (Index.name index) ++ " ON " ++ escapeTableName g table
        else
          let ddl := "ALTER TABLE " ++ escapeTableName g table ++ " ADD" in
          let ddl := if negb (String.eqb (Index.name index) "PRIMARY")
                     then ddl ++ " CONSTRAINT " ++ escapeSQLName g (Index.name index)
                     else ddl in
          ddl ++ " " ++ Index.indexType index ++ clusteredOption in
      Ok (ddl ++ " (" ++ Strings.Join columns ", " ++ ")" ++ optionDefinition)
  | _ =>
      let ddl := "ALTER TABLE " ++ escapeTableName g table ++ " ADD " ++ Index.indexType index in
      let ddl := if negb (Index.primary index)
                 then ddl ++ " " ++ escapeSQLName g (Index.name index) else ddl in
      Ok (ddl ++ " (" ++ Strings.Join columns ", " ++ ")" ++ optionDefinition)
  end.

Definition generateForeignKeyDefinition (g : Generator.t) (foreignKey : ForeignKey.t) : string :=
  let definition :=
    "CONSTRAINT " ++ escapeSQLName g (ForeignKey.constraintName foreignKey) ++ " FOREIGN KEY " in
  let definition :=
    if (0 <? String.length (ForeignKey.indexName foreignKey))%nat
    then definition ++ escapeSQLName g (ForeignKey.indexName foreignKey) ++ " "
    else definition in
  let indexColumns := map (escapeSQLName g) (ForeignKey.indexColumns foreignKey) in
  let referenceColumns := map (escapeSQLName g) (ForeignKey.referenceColumns foreignKey) in
  let definition :=
    definition ++ "(" ++ Strings.Join indexColumns "," ++ ") REFERENCES " ++
    escapeSQLName g (ForeignKey.referenceName foreignKey) ++
    " (" ++ Strings.Join referenceColumns "," ++ ") " in
  let definition :=
    if (0 <? String.length (ForeignKey.onDelete foreignKey))%nat
    then definition ++ "ON DELETE " ++ ForeignKey.onDelete foreignKey ++ " "
    else definition in
  let definition :=
    if (0 <? String.length (ForeignKey.onUpdate foreignKey))%nat
    then definition ++ "ON UPDATE " ++ ForeignKey.onUpdate foreignKey ++ " "
    else definition in
  Strings.TrimSuffix definition " ".

Definition generateDropIndex (g : Generator.t) (tableName indexName : string) : string :=
  match Generator.mode g with
  | GeneratorModeMysql =>
      "ALTER TABLE " ++ escapeTableName g tableName ++ " DROP INDEX " ++ escapeSQLName g indexName
  | GeneratorModePostgres => "DROP INDEX " ++ escapeSQLName g indexName
  | GeneratorModeMssql =>
      "DROP INDEX " ++ escapeSQLName g indexName ++ " ON " ++ escapeTableName g tableName
  | _ => EmptyString
  end.

(** *** Comparisons that depend on the dialect *)

Definition notNull (g : Generator.t) (column : Column.t) : bool :=
  match Column.notNull column with
  | None =>
      match Generator.mode g with
      | GeneratorModePostgres =>
          String.eqb (Column.typeName column) "serial" ||
          String.eqb (Column.typeName column) "bigserial"
      | _ => false
      end
  | Some b => b
  end.

Definition isPrimaryKey (column : Column.t) (table : Table.t) : bool :=
  if ColumnKeyOption_eqb (Column.keyOption column) ColumnKeyPrimary then true
  else
    existsb (fun index =>
               Index.primary index &&
               existsb (fun indexColumn =>
                          String.eqb (IndexColumn.column indexColumn) (Column.name column))
                       (Index.columns index))
            (Table.indexes table).

Definition normalizeDataType (g : Generator.t) (dataType : string) : string :=
  let dataType :=
    match lookupAlias dataTypeAliases dataType with
    | Some alias => alias
    | None => dataType
    end in
  match Generator.mode g with
  | GeneratorModeMysql =>
      match lookupAlias mysqlDataTypeAliases dataType with
      | Some alias => alias
      | None => dataType
      end
  | _ => dataType
  end.

Definition haveSameDataType (g : Generator.t) (current desired : Column.t) : bool :=
  String.eqb (normalizeDataType g (Column.typeName current))
             (normalizeDataType g (Column.typeName desired)) &&
  match Column.length current, Column.length desired with
  | Some c, Some d => Z.eqb (Value.intVal c) (Value.intVal d)
  | _, _ => true
  end &&
  Bool.eqb (Column.array current) (Column.array desired).

Definition haveSameColumnDefinition (g : Generator.t) (current desired : Column.t) : bool :=
  haveSameDataType g current desired &&
  Bool.eqb (Column.unsigned current) (Column.unsigned desired) &&
  Bool.eqb (optionBool (Column.notNull current))
           (optionBool (Column.notNull desired) ||
            ColumnKeyOption_eqb (Column.keyOption desired) ColumnKeyPrimary) &&
  Bool.eqb (Column.timezone current) (Column.timezone desired) &&
  samePointer (Column.check current) (Column.check desired) &&
  (String.eqb (Column.charset desired) EmptyString ||
   String.eqb (Column.charset current) (Column.charset desired)) &&
  (String.eqb (Column.collate desired) EmptyString ||
   String.eqb (Column.collate current) (Column.collate desired)) &&
  DeepEqualValue (Column.onUpdate current) (Column.onUpdate desired).

Definition normalizeOnUpdate (g : Generator.t) (onUpdate : string) : string :=
  match Generator.mode g with
  | GeneratorModePostgres | GeneratorModeMssql =>
      if String.eqb onUpdate EmptyString then "NO ACTION" else onUpdate
  | _ => onUpdate
  end.

Definition normalizeOnDelete (g : Generator.t) (onDelete : string) : string :=
  match Generator.mode g with
  | GeneratorModePostgres | GeneratorModeMssql =>
      if String.eqb onDelete EmptyString then "NO ACTION" else onDelete
  | _ => onDelete
  end.

Definition areSameForeignKeys (g : Generator.t) (foreignKeyA foreignKeyB : ForeignKey.t) : bool :=
  if negb (String.eqb (normalizeOnUpdate g (ForeignKey.onUpdate foreignKeyA))
                      (normalizeOnUpdate g (ForeignKey.onUpdate foreignKeyB))) then false
  else if negb (String.eqb (normalizeOnDelete g (ForeignKey.onDelete foreignKeyA))
                           (normalizeOnDelete g (ForeignKey.onDelete foreignKeyB))) then false
  else true.

(** The last loop of [areSamePolicies], over two role lists of one length. *)
Fixpoint sameRoles (rolesA rolesB : list string) : bool :=
  match rolesA, rolesB with
  | [], _ => true
  | _ :: _, [] => false
  | a :: restA, b :: restB =>
      if negb (String.eqb (ToLower a) (ToLower b)) then false else sameRoles restA restB
  end.

Definition areSamePolicies (policyA policyB : Policy.t) : bool :=
  if negb (String.eqb (ToLower (Policy.scope policyA)) (ToLower (Policy.scope policyB))) then false
  else if negb (String.eqb (ToLower (Policy.permissive policyA))
                           (ToLower (Policy.permissive policyB))) then false
  else if negb (String.eqb (ToLower (Policy.using_ policyA)) (ToLower (Policy.using_ policyB)))
  then String.eqb ("(" ++ Policy.using_ policyA ++ ")") (Policy.using_ policyB)
  else if negb (String.eqb (ToLower (Policy.withCheck policyA))
                           (ToLower (Policy.withCheck policyB)))
  then String.eqb ("(" ++ Policy.withCheck policyA ++ ")") (Policy.withCheck policyB)
  else if negb (List.length (Policy.roles policyA) =? List.length (Policy.roles policyB))%nat
  then false
  else sameRoles (sortStrings (Policy.roles policyA)) (sortStrings (Policy.roles policyB)).

(** *** [generateDDLsForCreateTable]: the diff of one table *)

(** The positional clause of MySQL for the desired column at index [i]. *)
Definition columnAfter (g : Generator.t) (desiredColumns : list Column.t) (i : nat) : string :=
  match i with
  | O => " FIRST"
  | S j =>
      " AFTER " ++
      escapeSQLName g (match nth_error desiredColumns j with
                       | Some column => Column.name column
                       | None => EmptyString
                       end)
  end.

Definition examineCheckPostgres (g : Generator.t) (desired : Table.t)
    (currentColumn desiredColumn : Column.t) : list string :=
  if negb (areSameCheckDefinition (Column.check currentColumn) (Column.check desiredColumn)) ||
     negb (Bool.eqb (Column.checkNoInherit currentColumn) (Column.checkNoInherit desiredColumn))
  then
    let constraintName :=
      Strings.Replace1 "public." EmptyString (Table.name desired) ++ "_" ++
      Column.name desiredColumn ++ "_check" in
    let drop :=
      match Column.check currentColumn with
      | Some _ =>
          ["ALTER TABLE " ++ escapeTableName g (Table.name desired) ++ " DROP CONSTRAINT " ++
           constraintName]
      | None => []
      end in
    let add :=
      match Column.check desiredColumn with
      | Some check =>
          let ddl :=
            "ALTER TABLE " ++ escapeTableName g (Table.name desired) ++ " ADD CONSTRAINT " ++
            constraintName ++ " CHECK (" ++ CheckDefinition.definition (Ptr.deref check) ++ ")" in
          [if Column.checkNoInherit desiredColumn then ddl ++ " NO INHERIT" else ddl]
      | None => []
      end in
    (drop ++ add)%list
  else [].

Definition examineCheckMssql (g : Generator.t) (desired : Table.t)
    (currentColumn desiredColumn : Column.t) : list string :=
  if negb (areSameCheckDefinition (Column.check currentColumn) (Column.check desiredColumn)) ||
     negb (Bool.eqb (Column.checkNoInherit currentColumn) (Column.checkNoInherit desiredColumn))
  then
    let constraintName :=
      Strings.Replace1 "dbo." EmptyString (Table.name desired) ++ "_" ++
      Column.name desiredColumn ++ "_check" in
    let drop :=
      match Column.check currentColumn with
      | Some check =>
          let currentConstraintName := CheckDefinition.constraintName (Ptr.deref check) in
          ["ALTER TABLE " ++ escapeTableName g (Table.name desired) ++ " DROP CONSTRAINT " ++
           currentConstraintName]
      | None => []
      end in
    let add :=
      match Column.check desiredColumn with
      | Some check =>
          let desiredConstraintName := CheckDefinition.constraintName (Ptr.deref check) in
          let desiredConstraintName :=
            if String.eqb desiredConstraintName EmptyString then constraintName
            else desiredConstraintName in
          ["ALTER TABLE " ++ escapeTableName g (Table.name desired) ++ " ADD CONSTRAINT " ++
           desiredConstraintName ++ " CHECK (" ++ CheckDefinition.definition (Ptr.deref check) ++ ")"]
      | None => []
      end in
    (drop ++ add)%list
  else [].

Definition changeColumnMysql (g : Generator.t) (currentTable desired : Table.t) (i : nat)
    (currentColumn desiredColumn : Column.t) : res (list string) :=
  let currentPos := Column.position currentColumn in
  let desiredPos := Column.position desiredColumn in
  let changeOrder :=
    (desiredPos <? currentPos)%Z &&
    (Z.of_nat (List.length (Table.columns currentTable)) -
     Z.of_nat (List.length (Table.columns desired)) <? wrapInt (currentPos - desiredPos))%Z in
  change <-
    (if negb (haveSameColumnDefinition g currentColumn desiredColumn) ||
        negb (areSameDefaultValue (Column.defaultDef currentColumn) (Column.defaultDef desiredColumn)) ||
        changeOrder
     then
       definition <- generateColumnDefinition g desiredColumn false ;;
       let ddl := "ALTER TABLE " ++ escapeTableName g (Table.name desired) ++ " CHANGE COLUMN " ++
                  escapeSQLName g (Column.name currentColumn) ++ " " ++ definition in
       Ok [if changeOrder then ddl ++ columnAfter g (Table.columns desired) i else ddl]
     else Ok []) ;;
  let currentIndex := findIndexByName (Table.indexes currentTable) (Column.name desiredColumn) in
  let unique :=
    if isUnique (Column.keyOption desiredColumn) &&
       negb (isUnique (Column.keyOption currentColumn)) &&
       match currentIndex with None => true | Some _ => false end
    then ["ALTER TABLE " ++ escapeTableName g (Table.name desired) ++ " ADD UNIQUE KEY " ++
          escapeSQLName g (Column.name desiredColumn) ++ "(" ++
          escapeSQLName g (Column.name desiredColumn) ++ ")"]
    else [] in
  Ok (change ++ unique)%list.

Definition changeColumnPostgres (g : Generator.t) (currentTable desired : Table.t)
    (currentColumn desiredColumn : Column.t) : res (list string) :=
  let alterDesired :=
    "ALTER TABLE " ++ escapeTableName g (Table.name desired) ++ " ALTER COLUMN " in
  let alterCurrent :=
    "ALTER TABLE " ++ escapeTableName g (Table.name currentTable) ++ " ALTER COLUMN " in
  let type :=
    if negb (haveSameDataType g currentColumn desiredColumn)
    then [alterDesired ++ escapeSQLName g (Column.name currentColumn) ++ " TYPE " ++
          generateDataType desiredColumn]
    else [] in
  let nullability :=
    if negb (isPrimaryKey currentColumn currentTable) then
      if notNull g currentColumn && negb (notNull g desiredColumn)
      then [alterDesired ++ escapeSQLName g (Column.name currentColumn) ++ " DROP NOT NULL"]
      else if negb (notNull g currentColumn) && notNull g desiredColumn
      then [alterDesired ++ escapeSQLName g (Column.name currentColumn) ++ " SET NOT NULL"]
      else []
    else [] in
  let identity :=
    if negb (String.eqb (Column.identity currentColumn) (Column.identity desiredColumn)) then
      if String.eqb (Column.identity currentColumn) EmptyString then
        let alter := alterDesired ++ escapeSQLName g (Column.name desiredColumn) ++
                     " ADD GENERATED " ++ Column.identity desiredColumn ++ " AS IDENTITY" in
        [match Column.sequence desiredColumn with
         | Some sequence => alter ++ " (" ++ generateSequenceClause sequence ++ ")"
         | None => alter
         end]
      else if String.eqb (Column.identity desiredColumn) EmptyString then
        [alterCurrent ++ escapeSQLName g (Column.name currentColumn) ++ " DROP IDENTITY IF EXISTS"]
      else
        [alterDesired ++ escapeSQLName g (Column.name desiredColumn) ++ " SET GENERATED " ++
         Column.identity desiredColumn]
    else [] in
  default <-
    (if negb (areSameDefaultValue (Column.defaultDef currentColumn) (Column.defaultDef desiredColumn))
     then
       match Column.defaultDef desiredColumn with
       | None => Ok [alterCurrent ++ escapeSQLName g (Column.name currentColumn) ++ " DROP DEFAULT"]
       | Some defaultDef =>
           match DefaultDefinition.value defaultDef with
           | None => Err (Panic "nil pointer dereference")
           | Some value =>
               definition <- generateDefaultDefinition value ;;
               Ok [alterCurrent ++ escapeSQLName g (Column.name currentColumn) ++ " SET " ++ definition]
           end
       end
     else Ok []) ;;
  let check := examineCheckPostgres g desired currentColumn desiredColumn in
  Ok (type ++ nullability ++ identity ++ default ++ check)%list.

(** One round of the loop "Examine each column". *)
Definition examineColumn (g : Generator.t) (currentTable desired : Table.t) (i : nat)
    (desiredColumn : Column.t) : res (list string) :=
  let currentColumn := findColumnByName (Table.columns currentTable) (Column.name desiredColumn) in
  let desiredColumn :=
    match currentColumn with
    | Some c => if negb (Column.autoIncrement c)
                then Column.set_autoIncrement false desiredColumn else desiredColumn
    | None => Column.set_autoIncrement false desiredColumn
    end in
  match currentColumn with
  | None =>
      definition <- generateColumnDefinition g desiredColumn true ;;
      let ddl :=
        match Generator.mode g with
        | GeneratorModeMssql =>
            "ALTER TABLE " ++ escapeTableName g (Table.name desired) ++ " ADD " ++ definition
        | _ =>
            "ALTER TABLE " ++ escapeTableName g (Table.name desired) ++ " ADD COLUMN " ++ definition
        end in
      Ok [match Generator.mode g with
          | GeneratorModeMysql => ddl ++ columnAfter g (Table.columns desired) i
          | _ => ddl
          end]
  | Some currentColumn =>
      match Generator.mode g with
      | GeneratorModeMysql => changeColumnMysql g currentTable desired i currentColumn desiredColumn
      | GeneratorModePostgres => changeColumnPostgres g currentTable desired currentColumn desiredColumn
      | GeneratorModeMssql => Ok (examineCheckMssql g desired currentColumn desiredColumn)
      | _ => Ok []
      end
  end.

(** "Remove old AUTO_INCREMENT from deleted column before deleting key". *)
Definition removeOldAutoIncrement (g : Generator.t) (currentTable desired : Table.t)
    : res (list string) :=
  match Generator.mode g with
  | GeneratorModeMysql =>
      concatMapM
        (fun currentColumn =>
           let desiredColumn :=
             findColumnByName (Table.columns desired) (Column.name currentColumn) in
           if Column.autoIncrement currentColumn &&
              match desiredColumn with
              | None => true
              | Some d => negb (Column.autoIncrement d)
              end
           then
             definition <-
               generateColumnDefinition g (Column.set_autoIncrement false currentColumn) false ;;
             Ok ["ALTER TABLE " ++ escapeTableName g (Table.name currentTable) ++ " CHANGE COLUMN " ++
                 escapeSQLName g (Column.name currentColumn) ++ " " ++ definition]
           else Ok [])
        (Table.columns currentTable)
  | _ => Ok []
  end.

(** "Examine primary key". *)
Definition examinePrimaryKey (g : Generator.t) (currentTable desired : Table.t)
    : res (list string) :=
  let currentPrimaryKey := PrimaryKey currentTable in
  let desiredPrimaryKey := PrimaryKey desired in
  if negb (areSamePrimaryKeys currentPrimaryKey desiredPrimaryKey) then
    drop <-
      match currentPrimaryKey with
      | Some _ =>
          match Generator.mode g with
          | GeneratorModeMysql =>
              Ok ["ALTER TABLE " ++ escapeTableName g (Table.name desired) ++ " DROP PRIMARY KEY"]
          | GeneratorModePostgres =>
              match Strings.SplitN2 (Table.name desired) with
              | Some (_, tableName) =>
                  Ok ["ALTER TABLE " ++ escapeTableName g (Table.name desired) ++ " DROP CONSTRAINT " ++
                      escapeSQLName g (tableName ++ "_pkey")]
              | None => Err (Panic "index out of range")
              end
          | _ => Ok []
          end
      | None => Ok []
      end ;;
    add <-
      match desiredPrimaryKey with
      | Some primaryKey =>
          ddl <- generateAddIndex g (Table.name desired) primaryKey ;;
          Ok [ddl]
      | None => Ok []
      end ;;
    Ok (drop ++ add)%list
  else Ok [].

(** "Examine each index". *)
Definition examineIndexes (g : Generator.t) (currentTable desired : Table.t) : res (list string) :=
  concatMapM
    (fun desiredIndex =>
       if Index.primary desiredIndex then Ok []
       else
         match findIndexByName (Table.indexes currentTable) (Index.name desiredIndex) with
         | Some currentIndex =>
             if negb (areSameIndexes currentIndex desiredIndex) then
               add <- generateAddIndex g (Table.name desired) desiredIndex ;;
               Ok [generateDropIndex g (Table.name desired) (Index.name desiredIndex); add]
             else Ok []
         | None =>
             add <- generateAddIndex g (Table.name desired) desiredIndex ;;
             Ok [add]
         end)
    (Table.indexes desired).

(** "Add new AUTO_INCREMENT after adding index and primary key". *)
Definition addNewAutoIncrement (g : Generator.t) (currentTable desired : Table.t)
    : res (list string) :=
  match Generator.mode g with
  | GeneratorModeMysql =>
      concatMapM
        (fun desiredColumn =>
           let currentColumn :=
             findColumnByName (Table.columns currentTable) (Column.name desiredColumn) in
           if Column.autoIncrement desiredColumn &&
              match currentColumn with
              | None => true
              | Some c => negb (Column.autoIncrement c)
              end
           then
             definition <- generateColumnDefinition g desiredColumn false ;;
             Ok ["ALTER TABLE " ++ escapeTableName g (Table.name currentTable) ++ " CHANGE COLUMN " ++
                 escapeSQLName g (Column.name desiredColumn) ++ " " ++ definition]
           else Ok [])
        (Table.columns desired)
  | _ => Ok []
  end.

Definition MissingConstraintName (tableName : string) (foreignKey : ForeignKey.t) : Error :=
  Errorf ("Foreign key without constraint symbol was found in table '" ++ tableName ++
          "' (index name: '" ++ ForeignKey.indexName foreignKey ++ "', columns: " ++
          Strings.FormatStrings (ForeignKey.indexColumns foreignKey) ++ "). " ++
          "Specify the constraint symbol to identify the foreign key.").

(** "Examine each foreign key". *)
Definition examineForeignKey (g : Generator.t) (currentTable desired : Table.t)
    (desiredForeignKey : ForeignKey.t) : res (list string) :=
  if (String.length (ForeignKey.constraintName desiredForeignKey) =? 0)%nat then
    Err (MissingConstraintName (Table.name desired) desiredForeignKey)
  else
    let add := "ALTER TABLE " ++ escapeTableName g (Table.name desired) ++ " ADD " ++
               generateForeignKeyDefinition g desiredForeignKey in
    match findForeignKeyByName (Table.foreignKeys currentTable)
                               (ForeignKey.constraintName desiredForeignKey) with
    | Some currentForeignKey =>
        if negb (areSameForeignKeys g currentForeignKey desiredForeignKey) then
          let drop :=
            match Generator.mode g with
            | GeneratorModeMysql =>
                ["ALTER TABLE " ++ escapeTableName g (Table.name desired) ++ " DROP FOREIGN KEY " ++
                 escapeSQLName g (ForeignKey.constraintName currentForeignKey)]
            | GeneratorModePostgres | GeneratorModeMssql =>
                ["ALTER TABLE " ++ escapeTableName g (Table.name desired) ++ " DROP CONSTRAINT " ++
                 escapeSQLName g (ForeignKey.constraintName currentForeignKey)]
            | _ => []
            end in
          Ok (drop ++ [add])%list
        else Ok []
    | None => Ok [add]
    end.

Definition examineForeignKeys (g : Generator.t) (currentTable desired : Table.t)
    : res (list string) :=
  concatMapM (examineForeignKey g currentTable desired) (Table.foreignKeys desired).

(** [generateDDLsForCreateTable(currentTable, desired)]; [desired] is the
    table of the CREATE TABLE statement, the only field of it the function
    reads. *)
Definition generateDDLsForCreateTable (g : Generator.t) (currentTable desired : Table.t)
    : res (list string) :=
  columns <- concatMapMi (examineColumn g currentTable desired) 0 (Table.columns desired) ;;
  oldAutoIncrement <- removeOldAutoIncrement g currentTable desired ;;
  primaryKey <- examinePrimaryKey g currentTable desired ;;
  indexes <- examineIndexes g currentTable desired ;;
  newAutoIncrement <- addNewAutoIncrement g currentTable desired ;;
  foreignKeys <- examineForeignKeys g currentTable desired ;;
  Ok (columns ++ oldAutoIncrement ++ primaryKey ++ indexes ++ newAutoIncrement ++ foreignKeys)%list.

(** *** The desired-side walk *)

Definition MissingTable (action tableName statement : string) : Error :=
  Errorf (action ++ " is performed for inexistent table '" ++ tableName ++ "': '" ++ statement ++ "'").

Definition BeforeCreateTable (action tableName statement : string) : Error :=
  Errorf (action ++ " is performed before create table '" ++ tableName ++ "': '" ++ statement ++ "'").

Definition DuplicateIndex (indexName tableName statement : string) : Error :=
  Errorf ("index '" ++ indexName ++ "' is doubly created against table '" ++ tableName ++
          "': '" ++ statement ++ "'").

Definition DuplicatePolicy (policyName tableName statement : string) : Error :=
  Errorf ("policy '" ++ policyName ++ "' is doubly created against table '" ++ tableName ++
          "': '" ++ statement ++ "'").

Definition DuplicateView (viewName statement : string) : Error :=
  Errorf ("view '" ++ viewName ++ "' is doubly created: '" ++ statement ++ "'").

(** The replacement loop of [generateDDLsForCreateIndex]. *)
Definition replaceIndex (indexes : list Index.t) (desiredIndex : Index.t) : list Index.t :=
  map (fun currentIndex =>
         if String.eqb (Index.name currentIndex) (Index.name desiredIndex)
         then desiredIndex else currentIndex) indexes.

Definition generateDDLsForCreateIndex (g : Generator.t) (tableName : string)
    (desiredIndex : Index.t) (action statement : string) : res (Generator.t * list string) :=
  match findTableByName (Generator.currentTables g) tableName with
  | None => Err (MissingTable action tableName statement)
  | Some currentTable =>
      let '(g, ddls) :=
        match findIndexByName (Table.indexes currentTable) (Index.name desiredIndex) with
        | None =>
            (Generator.set_currentTables
               (updateTableByName (Generator.currentTables g) tableName
                  (fun t => Table.set_indexes (Table.indexes t ++ [desiredIndex])%list t)) g,
             [statement])
        | Some currentIndex =>
            if negb (areSameIndexes currentIndex desiredIndex) then
              (Generator.set_currentTables
                 (updateTableByName (Generator.currentTables g) tableName
                    (fun t => Table.set_indexes (replaceIndex (Table.indexes t) desiredIndex) t)) g,
               [generateDropIndex g (Table.name currentTable) (Index.name currentIndex); statement])
            else (g, [])
        end in
      match findTableByName (Generator.desiredTables g) tableName with
      | None => Err (BeforeCreateTable action tableName statement)
      | Some desiredTable =>
          if containsString (convertIndexesToIndexNames (Table.indexes desiredTable))
                            (Index.name desiredIndex)
          then Err (DuplicateIndex (Index.name desiredIndex) tableName statement)
          else
            Ok (Generator.set_desiredTables
                  (updateTableByName (Generator.desiredTables g) tableName
                     (fun t => Table.set_indexes (Table.indexes t ++ [desiredIndex])%list t)) g,
                ddls)
      end
  end.

Definition generateDDLsForAddForeignKey (g : Generator.t) (tableName : string)
    (desiredForeignKey : ForeignKey.t) (action statement : string)
    : res (Generator.t * list string) :=
  match findTableByName (Generator.desiredTables g) tableName with
  | None => Err (BeforeCreateTable action tableName statement)
  | Some desiredTable =>
      if containsString (convertForeignKeysToConstraintNames (Table.foreignKeys desiredTable))
                        (ForeignKey.constraintName desiredForeignKey)
      then Err (DuplicateIndex (ForeignKey.constraintName desiredForeignKey) tableName statement)
      else
        Ok (Generator.set_desiredTables
              (updateTableByName (Generator.desiredTables g) tableName
                 (fun t => Table.set_foreignKeys
                             (Table.foreignKeys t ++ [desiredForeignKey])%list t)) g,
            [])
  end.

Definition generateDDLsForCreatePolicy (g : Generator.t) (tableName : string)
    (desiredPolicy : Policy.t) (action statement : string) : res (Generator.t * list string) :=
  match findTableByName (Generator.currentTables g) tableName with
  | None => Err (MissingTable action tableName statement)
  | Some currentTable =>
      let '(g, ddls) :=
        match findPolicyByName (Table.policies currentTable) (Policy.name desiredPolicy) with
        | None =>
            (Generator.set_currentTables
               (updateTableByName (Generator.currentTables g) tableName
                  (fun t => Table.set_policies (Table.policies t ++ [desiredPolicy])%list t)) g,
             [statement])
        | Some currentPolicy =>
            if negb (areSamePolicies currentPolicy desiredPolicy) then
              (g,
               ["DROP POLICY " ++ escapeSQLName g (Policy.name currentPolicy) ++ " ON " ++
                escapeTableName g (Table.name currentTable); statement])
            else (g, [])
        end in
      match findTableByName (Generator.desiredTables g) tableName with
      | None => Err (BeforeCreateTable action tableName statement)
      | Some desiredTable =>
          if containsString (convertPolicyNames (Table.policies desiredTable))
                            (Policy.name desiredPolicy)
          then Err (DuplicatePolicy (Policy.name desiredPolicy) tableName statement)
          else
            Ok (Generator.set_desiredTables
                  (updateTableByName (Generator.desiredTables g) tableName
                     (fun t => Table.set_policies (Table.policies t ++ [desiredPolicy])%list t)) g,
                ddls)
      end
  end.

Definition generateDDLsForCreateView (g : Generator.t) (viewName : string)
    (desiredView : View.t) : res (Generator.t * list string) :=
  let ddls :=
    match findViewByName (Generator.currentViews g) viewName with
    | None => [View.statement desiredView]
    | Some currentView =>
        if negb (String.eqb (ToLower (View.definition currentView))
                            (ToLower (View.definition desiredView)))
        then
          match Generator.mode g with
          | GeneratorModeSQLite3 | GeneratorModeMssql =>
              ["DROP VIEW " ++ escapeTableName g viewName;
               "CREATE VIEW " ++ escapeTableName g viewName ++ " AS " ++ View.definition desiredView]
          | _ =>
              ["CREATE OR REPLACE VIEW " ++ escapeTableName g viewName ++ " AS " ++
               View.definition desiredView]
          end
        else []
    end in
  if containsString (convertViewNames (Generator.desiredViews g)) (View.name desiredView)
  then Err (DuplicateView (View.name desiredView) (View.statement desiredView))
  else Ok (Generator.set_desiredViews (Generator.desiredViews g ++ [desiredView])%list g, ddls).

(** One round of the loop "Incrementally examine desiredDDLs": the state
    after the statement and the statements it appends. *)
Definition examineDDL (g : Generator.t) (ddl : DDL) : res (Generator.t * list string) :=
  match ddl with
  | CreateTable statement table =>
      r <-
        match findTableByName (Generator.currentTables g) (Table.name table) with
        | Some currentTable =>
            tableDDLs <- generateDDLsForCreateTable g currentTable table ;;
            Ok (Generator.set_currentTables
                  (updateTableByName (Generator.currentTables g) (Table.name table)
                     (fun t => mergeTable t table)) g,
                tableDDLs)
        | None =>
            Ok (Generator.set_currentTables (Generator.currentTables g ++ [table])%list g,
                [statement])
        end ;;
      let '(g, ddls) := r in
      Ok (Generator.set_desiredTables (Generator.desiredTables g ++ [table])%list g, ddls)
  | CreateIndex statement tableName index =>
      generateDDLsForCreateIndex g tableName index "CREATE INDEX" statement
  | AddIndex statement tableName index =>
      generateDDLsForCreateIndex g tableName index "ALTER TABLE" statement
  | AddForeignKey statement tableName foreignKey =>
      generateDDLsForAddForeignKey g tableName foreignKey "ALTER TABLE" statement
  | AddPolicy statement tableName policy =>
      generateDDLsForCreatePolicy g tableName policy "CREATE POLICY" statement
  | CreateView view =>
      generateDDLsForCreateView g (View.name view) view
  | AddPrimaryKey _ _ _ => Err (UnexpectedDDL ddl)
  end.

Fixpoint examineDDLs (g : Generator.t) (desiredDDLs : list DDL) : res (Generator.t * list string) :=
  match desiredDDLs with
  | [] => Ok (g, [])
  | ddl :: rest =>
      r <- examineDDL g ddl ;;
      let '(g, ddls) := r in
      r' <- examineDDLs g rest ;;
      let '(g', ddls') := r' in
      Ok (g', (ddls ++ ddls')%list)
  end.

(** *** The final cleanup walk *)

Definition generateDDLsForAbsentColumn (g : Generator.t) (currentTable : Table.t)
    (columnName : string) : list string :=
  let ddls :=
    match Generator.mode g with
    | GeneratorModeMssql =>
        flat_map
          (fun column =>
             match Column.defaultDef column with
             | Some defaultDef =>
                 if String.eqb (Column.name column) columnName &&
                    negb (String.eqb (DefaultDefinition.constraintName defaultDef) EmptyString)
                 then ["ALTER TABLE " ++ escapeTableName g (Table.name currentTable) ++
                       " DROP CONSTRAINT " ++
                       escapeSQLName g (DefaultDefinition.constraintName defaultDef)]
                 else []
             | None => []
             end)
          (Table.columns currentTable)
    | _ => []
    end in
  let ddl := "ALTER TABLE " ++ escapeTableName g (Table.name currentTable) ++ " DROP COLUMN " ++
             escapeSQLName g columnName in
  (ddls ++ [ddl])%list.

Definition generateDDLsForAbsentForeignKey (g : Generator.t) (currentForeignKey : ForeignKey.t)
    (currentTable desiredTable : Table.t) : list string :=
  match Generator.mode g with
  | GeneratorModeMysql =>
      ["ALTER TABLE " ++ escapeTableName g (Table.name currentTable) ++ " DROP FOREIGN KEY " ++
       escapeSQLName g (ForeignKey.constraintName currentForeignKey)]
  | GeneratorModePostgres | GeneratorModeMssql =>
      let referencesColumn :=
        find (fun column =>
                String.eqb (Column.references column) (ForeignKey.referenceName currentForeignKey))
             (Table.columns desiredTable) in
      match referencesColumn with
      | None =>
          ["ALTER TABLE " ++ escapeTableName g (Table.name currentTable) ++ " DROP CONSTRAINT " ++
           escapeSQLName g (ForeignKey.constraintName currentForeignKey)]
      | Some _ => []
      end
  | _ => []
  end.

Definition PrimaryKeyRename (tableName primaryKeyColumn currentColumn : string) : Error :=
  Errorf ("primary key column name of '" ++ tableName ++ "' should be '" ++ primaryKeyColumn ++
          "' but currently '" ++ currentColumn ++ "'. This is not handled yet.").

Definition generateDDLsForAbsentIndex (g : Generator.t) (currentIndex : Index.t)
    (currentTable desiredTable : Table.t) : res (list string) :=
  if Index.primary currentIndex then
    let primaryKeyColumn :=
      find (fun column => ColumnKeyOption_eqb (Column.keyOption column) ColumnKeyPrimary)
           (Table.columns desiredTable) in
    match primaryKeyColumn with
    | None =>
        match Generator.mode g with
        | GeneratorModeMssql =>
            Ok ["ALTER TABLE " ++ escapeTableName g (Table.name currentTable) ++
                " DROP CONSTRAINT " ++ escapeSQLName g (Index.name currentIndex)]
        | _ => Ok []
        end
    | Some primaryKeyColumn =>
        match Index.columns currentIndex with
        | [] => Err (Panic "index out of range")
        | first :: _ =>
            if negb (String.eqb (Column.name primaryKeyColumn) (IndexColumn.column first))
            then Err (PrimaryKeyRename (Table.name currentTable) (Column.name primaryKeyColumn)
                        (IndexColumn.column first))
            else Ok []
        end
    end
  else if Index.unique currentIndex then
    match Table.columns desiredTable, Index.columns currentIndex with
    | _ :: _, [] => Err (Panic "index out of range")
    | [], _ => Ok [generateDropIndex g (Table.name currentTable) (Index.name currentIndex)]
    | columns, first :: _ =>
        let uniqueKeyColumn :=
          find (fun column =>
                  String.eqb (Column.name column) (IndexColumn.column first) &&
                  isUnique (Column.keyOption column)) columns in
        match uniqueKeyColumn with
        | None => Ok [generateDropIndex g (Table.name currentTable) (Index.name currentIndex)]
        | Some _ => Ok []
        end
    end
  else Ok [generateDropIndex g (Table.name currentTable) (Index.name currentIndex)].

(** The four inner loops of the cleanup, for a current table that is
    expected to exist. *)
Definition cleanupForeignKeys (g : Generator.t) (currentTable desiredTable : Table.t)
    : list string :=
  flat_map
    (fun foreignKey =>
       if containsString (convertForeignKeysToConstraintNames (Table.foreignKeys desiredTable))
                         (ForeignKey.constraintName foreignKey)
       then []
       else generateDDLsForAbsentForeignKey g foreignKey currentTable desiredTable)
    (Table.foreignKeys currentTable).

Definition cleanupIndexes (g : Generator.t) (currentTable desiredTable : Table.t)
    : res (list string) :=
  concatMapM
    (fun index =>
       if containsString (convertIndexesToIndexNames (Table.indexes desiredTable)) (Index.name index) ||
          containsString (convertForeignKeysToIndexNames (Table.foreignKeys desiredTable))
                         (Index.name index)
       then Ok []
       else generateDDLsForAbsentIndex g index currentTable desiredTable)
    (Table.indexes currentTable).

Definition cleanupColumns (g : Generator.t) (currentTable desiredTable : Table.t) : list string :=
  flat_map
    (fun column =>
       if containsString (convertColumnsToColumnNames (Table.columns desiredTable))
                         (Column.name column)
       then []
       else generateDDLsForAbsentColumn g currentTable (Column.name column))
    (Table.columns currentTable).

Definition cleanupPolicies (g : Generator.t) (currentTable desiredTable : Table.t) : list string :=
  flat_map
    (fun policy =>
       if containsString (convertPolicyNames (Table.policies desiredTable)) (Policy.name policy)
       then []
       else ["DROP POLICY " ++ escapeSQLName g (Policy.name policy) ++ " ON " ++
             escapeTableName g (Table.name currentTable)])
    (Table.policies currentTable).

Definition cleanupTable (g : Generator.t) (currentTable desiredTable : Table.t)
    : res (list string) :=
  let foreignKeys := cleanupForeignKeys g currentTable desiredTable in
  indexes <- cleanupIndexes g currentTable desiredTable ;;
  let columns := cleanupColumns g currentTable desiredTable in
  let policies := cleanupPolicies g currentTable desiredTable in
  Ok (foreignKeys ++ indexes ++ columns ++ policies)%list.

(** The loop "Clean up obsoleted tables, indexes, columns" over [tables],
    the slice that [range] read when the loop began; [currentTables] is the
    field [g.currentTables], which [removeTableByName] replaces. *)
Fixpoint cleanupTables (g : Generator.t) (tables currentTables : list Table.t)
    : res (list string) :=
  match tables with
  | [] => Ok []
  | currentTable :: rest =>
      match findTableByName (Generator.desiredTables g) (Table.name currentTable) with
      | None =>
          match removeTableByName currentTables (Table.name currentTable) with
          | None => Err (Fatal "Failed to removeTableByName")
          | Some currentTables =>
              ddls <- cleanupTables g rest currentTables ;;
              Ok (("DROP TABLE " ++ escapeTableName g (Table.name currentTable)) :: ddls)
          end
      | Some desiredTable =>
          tableDDLs <- cleanupTable g currentTable desiredTable ;;
          ddls <- cleanupTables g rest currentTables ;;
          Ok (tableDDLs ++ ddls)%list
      end
  end.

Definition cleanupViews (g : Generator.t) : list string :=
  flat_map
    (fun currentView =>
       if containsString (convertViewNames (Generator.desiredViews g)) (View.name currentView)
       then []
       else ["DROP VIEW " ++ escapeTableName g (View.name currentView)])
    (Generator.currentViews g).

(** *** [generateDDLs] *)

Definition generateDDLs (g : Generator.t) (desiredDDLs : list DDL) : res (list string) :=
  r <- examineDDLs g desiredDDLs ;;
  let '(g, ddls) := r in
  tables <- cleanupTables g (Generator.currentTables g) (Generator.currentTables g) ;;
  Ok (ddls ++ tables ++ cleanupViews g)%list.

(** *** The schema folder *)

Definition BeforeCreateTableFold (what statement : string) : Error :=
  Errorf (what ++ " before CREATE TABLE: " ++ statement).

Definition setPrimaryKeyColumn (columns : list Column.t) (index : Index.t)
    : res (list Column.t) :=
  match columns, Index.columns index with
  | [], _ => Ok []
  | _ :: _, [] => Err (Panic "index out of range")
  | _, first :: _ =>
      Ok (map (fun column =>
                 if String.eqb (Column.name column) (IndexColumn.column first)
                 then Column.set_keyOption ColumnKeyPrimary column else column) columns)
  end.

Fixpoint convertDDLsToTables_loop (tables : list Table.t) (ddls : list DDL) : res (list Table.t) :=
  match ddls with
  | [] => Ok tables
  | ddl :: rest =>
      tables <-
        match ddl with
        | CreateTable _ table => Ok (tables ++ [table])%list
        | CreateIndex statement tableName index =>
            match findTableByName tables tableName with
            | None => Err (BeforeCreateTableFold "CREATE INDEX is performed" statement)
            | Some _ =>
                Ok (updateTableByName tables tableName
                      (fun t => Table.set_indexes (Table.indexes t ++ [index])%list t))
            end
        | AddPrimaryKey statement tableName index =>
            match findTableByName tables tableName with
            | None => Err (BeforeCreateTableFold "ADD PRIMARY KEY is performed" statement)
            | Some table =>
                newColumns <- setPrimaryKeyColumn (Table.columns table) index ;;
                Ok (updateTableByName tables tableName (Table.set_columns newColumns))
            end
        | AddForeignKey statement tableName foreignKey =>
            match findTableByName tables tableName with
            | None => Err (BeforeCreateTableFold "ADD FOREIGN KEY is performed" statement)
            | Some _ =>
                Ok (updateTableByName tables tableName
                      (fun t => Table.set_foreignKeys (Table.foreignKeys t ++ [foreignKey])%list t))
            end
        | AddPolicy statement tableName policy =>
            match findTableByName tables tableName with
            | None => Err (BeforeCreateTableFold "ADD POLICY performed" statement)
            | Some _ =>
                Ok (updateTableByName tables tableName
                      (fun t => Table.set_policies (Table.policies t ++ [policy])%list t))
            end
        | CreateView _ => Ok tables
        | AddIndex _ _ _ => Err (UnexpectedDDL ddl)
        end ;;
      convertDDLsToTables_loop tables rest
  end.

Definition convertDDLsToTables (ddls : list DDL) : res (list Table.t) :=
  convertDDLsToTables_loop [] ddls.

Fixpoint convertDDLsToViews (ddls : list DDL) : list View.t :=
  match ddls with
  | [] => []
  | CreateView view :: rest => view :: convertDDLsToViews rest
  | _ :: rest => convertDDLsToViews rest
  end.

(** [GenerateIdempotentDDLs] once both texts are parsed. *)
Definition diff (mode : GeneratorMode) (desiredDDLs currentDDLs : list DDL) : res (list string) :=
  tables <- convertDDLsToTables currentDDLs ;;
  let views := convertDDLsToViews currentDDLs in
  generateDDLs (Generator.mk mode [] tables [] views) desiredDDLs.

End Emitter.

(** The runtime on ASCII text. *)
Definition asciiRuntime : GoRuntime := {|
  ToLower := Strings.ToLowerAscii;
  TrimSpace := Strings.TrimSpaceAscii
|}.

(** ** Fixtures *)

Module Fixture.

Definition value (t : ValueType) (raw : string) : Value.t :=
  Value.mk t raw false raw 0 (S754_zero false) false.

Definition column (name typeName : string) (position : Z) : Column.t :=
  Column.mk name position typeName false None false false None None None None false
    EmptyString EmptyString false ColumnKeyNone None [] EmptyString EmptyString None.

Definition withDefault (d : DefaultDefinition.t) (c : Column.t) : Column.t :=
  Column.mk (Column.name c) (Column.position c) (Column.typeName c) (Column.unsigned c)
    (Column.notNull c) (Column.autoIncrement c) (Column.array c) (Some d) (Column.length c)
    (Column.scale c) (Column.check c) (Column.checkNoInherit c) (Column.charset c)
    (Column.collate c) (Column.timezone c) (Column.keyOption c) (Column.onUpdate c)
    (Column.enumValues c) (Column.references c) (Column.identity c) (Column.sequence c).

Definition withNotNull (b : option bool) (c : Column.t) : Column.t :=
  Column.set_notNull b c.

Definition withIdentity (identity : string) (c : Column.t) : Column.t :=
  Column.mk (Column.name c) (Column.position c) (Column.typeName c) (Column.unsigned c)
    (Column.notNull c) (Column.autoIncrement c) (Column.array c) (Column.defaultDef c)
    (Column.length c) (Column.scale c) (Column.check c) (Column.checkNoInherit c)
    (Column.charset c) (Column.collate c) (Column.timezone c) (Column.keyOption c)
    (Column.onUpdate c) (Column.enumValues c) (Column.references c) identity
    (Column.sequence c).

Definition index (name : string) (columns : list string) (options : list IndexOption.t)
    : Index.t :=
  Index.mk name "INDEX" (map (fun c => IndexColumn.mk c None) columns) false false
    EmptyString false options.

Definition foreignKey (constraintName column referenceName : string) : ForeignKey.t :=
  ForeignKey.mk constraintName EmptyString [column] referenceName ["id"] EmptyString EmptyString.

Definition policy (name using_ : string) (roles : list string) : Policy.t :=
  Policy.mk name "users" "PERMISSIVE" "ALL" roles using_ EmptyString.

Definition id : Column.t := withNotNull (Some true) (column "id" "bigint" 0).
Definition name : Column.t := column "name" "text" 1.

Definition generator (mode : GeneratorMode) (currentTables : list Table.t) : Generator.t :=
  Generator.mk mode [] currentTables [] [].

Definition users_id : Table.t := Table.mk "users" [id] [] [] [].
Definition users_id_name : Table.t := Table.mk "users" [id; name] [] [] [].

Definition float_short : Value.t := value ValueTypeFloat "0.0".
Definition float_long : Value.t := value ValueTypeFloat "0.00".

Definition identity_id : Column.t :=
  Column.set_keyOption ColumnKeyPrimary (withIdentity "ALWAYS" id).

Definition users_indexed : Table.t :=
  Table.mk "users" [id; name] [index "ix_name" ["name"] []] [] [].

Definition name_with_default : Column.t :=
  withDefault (DefaultDefinition.mk (Some (value ValueTypeStr "x")) "df_name") name.

Definition users_default : Table.t := Table.mk "users" [id; name_with_default] [] [] [].

Definition policy_plain : Policy.t := policy "p_users" "tenant = 1" ["admin"].
Definition policy_parenthesised : Policy.t := policy "p_users" "(tenant = 1)" ["admin"].
Definition policy_roles_ab : Policy.t := policy "p_users" "tenant = 1" ["b"; "A"].
Definition policy_roles_ba : Policy.t := policy "p_users" "tenant = 1" ["a"; "B"].

Definition posts_unnamed_fk : Table.t :=
  Table.mk "posts" [id; column "user_id" "bigint" 1] []
    [foreignKey "posts_ibfk_1" "user_id" "users"; foreignKey EmptyString "user_id" "users"] [].

Definition posts : Table.t :=
  Table.mk "posts" [id; column "user_id" "bigint" 1] [] [] [].

Definition users_primary_key : Table.t :=
  Table.mk "users" [Column.set_keyOption ColumnKeyPrimary (column "id" "bigint" 0)] [] [] [].

Definition posts_named_fk : Table.t :=
  Table.mk "posts" [id; column "user_id" "bigint" 1] [index "ix_user" ["user_id"] []]
    [foreignKey "posts_ibfk_1" "user_id" "users"] [].

(** A schema with every kind of statement the identity covers. *)
Definition schema : list DDL :=
  [CreateTable "CREATE TABLE users (id bigint NOT NULL, name text)" users_id_name;
   CreateTable "CREATE TABLE posts (...)" posts_named_fk;
   CreateIndex "CREATE INDEX ix_name ON users (name)" "users" (index "ix_name" ["name"] []);
   AddForeignKey "ALTER TABLE posts ADD CONSTRAINT posts_ibfk_2 ..." "posts"
     (foreignKey "posts_ibfk_2" "id" "users");
   AddPolicy "CREATE POLICY p_users ON users ..." "users" (policy "p_users" "tenant = 1" ["admin"]);
   CreateView (View.mk "CREATE VIEW v AS select 1" "v" "select 1")].

Definition posts_fk : Table.t :=
  Table.mk "posts" [id; column "user_id" "bigint" 1] []
    [foreignKey "posts_ibfk_1" "user_id" "users"] [].

Definition posts_fk_cascade : Table.t :=
  Table.mk "posts" [id; column "user_id" "bigint" 1] []
    [ForeignKey.mk "posts_ibfk_1" EmptyString ["user_id"] "users" ["id"] "SET NULL" "CASCADE"] [].

Definition name_varchar : Column.t :=
  Column.mk "name" 1 "varchar" false None false false None (Some (value ValueTypeInt "40"))
    None None false EmptyString EmptyString false ColumnKeyNone None [] EmptyString EmptyString
    None.

Definition index_plain : Index.t := index "ix_name" ["name"] [].
Definition index_fillfactor : Index.t :=
  index "ix_name" ["name"] [IndexOption.mk "FILLFACTOR" (Some (value ValueTypeInt "10"))].

End Fixture.

(** ** Statements of the specification *)

(** The rule of section 4.3 in the words of the specification: append the
    columns and indexes of [from] that are not already present by name in
    [into]. *)
Definition merge_table_spec (into from : Table.t) : Table.t :=
  Table.set_indexes
    (Table.indexes into ++
     filter (fun i => negb (containsString (convertIndexesToIndexNames (Table.indexes into))
                                           (Index.name i)))
            (Table.indexes from))%list
    (Table.set_columns
       (Table.columns into ++
        filter (fun c => negb (containsString (convertColumnsToColumnNames (Table.columns into))
                                              (Column.name c)))
               (Table.columns from))%list
       into).

(** An option of [b] is matched when the first option of that name in [a]
    has the same value. *)
Definition optionMatched (optionsA : list IndexOption.t) (optionB : IndexOption.t) : Prop :=
  exists optionA,
    findIndexOptionByName optionsA (IndexOption.optionName optionB) = Some optionA /\
    areSameValue (IndexOption.value optionA) (IndexOption.value optionB) = true.

(** The table and the index of a CREATE INDEX or ADD INDEX statement. *)
Definition indexStatement (ddl : DDL) : option (string * Index.t) :=
  match ddl with
  | CreateIndex _ tableName index | AddIndex _ tableName index => Some (tableName, index)
  | _ => None
  end.

(** The simulated state knows the table [tableName] on both sides and has
    an index called [indexName] on its desired side. *)
Definition indexRecorded (g : Generator.t) (tableName indexName : string) : Prop :=
  (exists currentTable, findTableByName (Generator.currentTables g) tableName = Some currentTable) /\
  (exists desiredTable,
     findTableByName (Generator.desiredTables g) tableName = Some desiredTable /\
     containsString (convertIndexesToIndexNames (Table.indexes desiredTable)) indexName = true).

(** ** A text parsed twice

    [parseDDLs] runs once on the desired text and once on the current text
    and allocates every [CheckDefinition] it builds: what a second parse of
    one text returns is what the first returned, with the [check] of every
    column at another address. *)
Definition relocateColumn (relocate : positive -> positive) (c : Column.t) : Column.t :=
  Column.mk (Column.name c) (Column.position c) (Column.typeName c) (Column.unsigned c)
    (Column.notNull c) (Column.autoIncrement c) (Column.array c) (Column.defaultDef c)
    (Column.length c) (Column.scale c)
    (match Column.check c with
     | Some p => Some (Ptr.mk (relocate (Ptr.addr p)) (Ptr.deref p))
     | None => None
     end)
    (Column.checkNoInherit c) (Column.charset c) (Column.collate c) (Column.timezone c)
    (Column.keyOption c) (Column.onUpdate c) (Column.enumValues c) (Column.references c)
    (Column.identity c) (Column.sequence c).

Definition relocateTable (relocate : positive -> positive) (t : Table.t) : Table.t :=
  Table.set_columns (map (relocateColumn relocate) (Table.columns t)) t.

Definition relocateDDL (relocate : positive -> positive) (ddl : DDL) : DDL :=
  match ddl with
  | CreateTable statement table => CreateTable statement (relocateTable relocate table)
  | _ => ddl
  end.

Definition parsedAgain (relocate : positive -> positive) (ddls : list DDL) : list DDL :=
  map (relocateDDL relocate) ddls.

(** ** Well-formed schemas *)

Fixpoint noDup (l : list string) : bool :=
  match l with
  | [] => true
  | x :: rest => negb (containsString rest x) && noDup rest
  end.

(** What a statement adds to a list of tables: the rule shared by the schema
    folder and the desired side of the walk. *)
Definition recordDDL (tables : list Table.t) (ddl : DDL) : list Table.t :=
  match ddl with
  | CreateTable _ table => (tables ++ [table])%list
  | CreateIndex _ tableName index =>
      updateTableByName tables tableName
        (fun t => Table.set_indexes (Table.indexes t ++ [index])%list t)
  | AddForeignKey _ tableName foreignKey =>
      updateTableByName tables tableName
        (fun t => Table.set_foreignKeys (Table.foreignKeys t ++ [foreignKey])%list t)
  | AddPolicy _ tableName policy =>
      updateTableByName tables tableName
        (fun t => Table.set_policies (Table.policies t ++ [policy])%list t)
  | _ => tables
  end.

Definition recordDDLs (tables : list Table.t) (ddls : list DDL) : list Table.t :=
  fold_left recordDDL ddls tables.

Definition recordView (views : list string) (ddl : DDL) : list string :=
  match ddl with
  | CreateView view => (views ++ [View.name view])%list
  | _ => views
  end.

(** Under MySQL a column is compared with its own definition, parsed a
    second time, as equal only if a primary key column says NOT NULL, the ON
    UPDATE value is [DeepEqual] to its second parse (its float is not a NaN)
    and the column has no CHECK (the two parses hold it at two addresses). *)
Definition wellFormedColumn (mode : GeneratorMode) (column : Column.t) : bool :=
  match mode with
  | GeneratorModeMysql =>
      (negb (ColumnKeyOption_eqb (Column.keyOption column) ColumnKeyPrimary) ||
       optionBool (Column.notNull column)) &&
      DeepEqualValue (Column.onUpdate column) (Column.onUpdate column) &&
      match Column.check column with None => true | Some _ => false end
  | _ => true
  end.

(** The table of a CREATE TABLE: column, index and foreign key names are
    unique, the option names of every index are unique, and every foreign
    key has a constraint name. *)
Definition wellFormedTable (mode : GeneratorMode) (table : Table.t) : bool :=
  noDup (convertColumnsToColumnNames (Table.columns table)) &&
  noDup (convertIndexesToIndexNames (Table.indexes table)) &&
  forallb (fun index => noDup (map IndexOption.optionName (Index.options index)))
          (Table.indexes table) &&
  noDup (convertForeignKeysToConstraintNames (Table.foreignKeys table)) &&
  forallb (fun foreignKey => negb (String.eqb (ForeignKey.constraintName foreignKey) EmptyString))
          (Table.foreignKeys table) &&
  forallb (wellFormedColumn mode) (Table.columns table).

(** A statement is admissible after the statements that produced [tables]
    and [views]: it creates a table or a view whose name is new, or adds to
    a table created before an index, foreign key or policy whose name is new
    to that table; an added index is not primary.  ADD INDEX and ADD PRIMARY
    KEY are not admissible: the schema folder has no case for the first and
    the walk none for the second. *)
Definition admissible (mode : GeneratorMode) (tables : list Table.t) (views : list string)
    (ddl : DDL) : bool :=
  match ddl with
  | CreateTable _ table =>
      negb (containsString (map Table.name tables) (Table.name table)) &&
      wellFormedTable mode table
  | CreateIndex _ tableName index =>
      match findTableByName tables tableName with
      | Some table =>
          negb (containsString (convertIndexesToIndexNames (Table.indexes table))
                               (Index.name index)) &&
          negb (Index.primary index) &&
          noDup (map IndexOption.optionName (Index.options index))
      | None => false
      end
  | AddForeignKey _ tableName foreignKey =>
      match findTableByName tables tableName with
      | Some table =>
          negb (containsString (convertForeignKeysToConstraintNames (Table.foreignKeys table))
                               (ForeignKey.constraintName foreignKey))
      | None => false
      end
  | AddPolicy _ tableName policy =>
      match findTableByName tables tableName with
      | Some table =>
          negb (containsString (convertPolicyNames (Table.policies table)) (Policy.name policy))
      | None => false
      end
  | CreateView view => negb (containsString views (View.name view))
  | AddIndex _ _ _ | AddPrimaryKey _ _ _ => false
  end.

Fixpoint wellFormedFrom (mode : GeneratorMode) (tables : list Table.t) (views : list string)
    (ddls : list DDL) : bool :=
  match ddls with
  | [] => true
  | ddl :: rest =>
      admissible mode tables views ddl &&
      wellFormedFrom mode (recordDDL tables ddl) (recordView views ddl) rest
  end.

Definition wellFormed (mode : GeneratorMode) (ddls : list DDL) : bool :=
  wellFormedFrom mode [] [] ddls.

(** [current] is [table], parsed another time, with indexes that are not
    primary, foreign keys and policies added after its own. *)
Definition extends (table current : Table.t) : Prop :=
  Table.name current = Table.name table /\
  (exists relocate,
     Table.columns current = map (relocateColumn relocate) (Table.columns table)) /\
  (exists extra, Table.indexes current = (Table.indexes table ++ extra)%list /\
                 Forall (fun index => Index.primary index = false) extra) /\
  (exists extra, Table.foreignKeys current = (Table.foreignKeys table ++ extra)%list) /\
  (exists extra, Table.policies current = (Table.policies table ++ extra)%list).

(** The current side holds what the walk will look up for [ddl]. *)
Definition ready (currentTables : list Table.t) (currentViews : list View.t) (ddl : DDL) : Prop :=
  match ddl with
  | CreateTable _ table =>
      exists current, findTableByName currentTables (Table.name table) = Some current /\
                      extends table current
  | CreateIndex _ tableName index =>
      exists current, findTableByName currentTables tableName = Some current /\
                      findIndexByName (Table.indexes current) (Index.name index) = Some index
  | AddPolicy _ tableName policy =>
      exists current, findTableByName currentTables tableName = Some current /\
                      findPolicyByName (Table.policies current) (Policy.name policy) = Some policy
  | CreateView view => findViewByName currentViews (View.name view) = Some view
  | _ => True
  end.

(** Every name of [current] is a name of [desired]. *)
Definition covers (desired current : Table.t) : Prop :=
  incl (convertColumnsToColumnNames (Table.columns current))
       (convertColumnsToColumnNames (Table.columns desired)) /\
  incl (convertIndexesToIndexNames (Table.indexes current))
       (convertIndexesToIndexNames (Table.indexes desired)) /\
  incl (convertForeignKeysToConstraintNames (Table.foreignKeys current))
       (convertForeignKeysToConstraintNames (Table.foreignKeys desired)) /\
  incl (convertPolicyNames (Table.policies current))
       (convertPolicyNames (Table.policies desired)).

(** The state of the walk before the statements [rest] of a well-formed
    schema. *)
Definition walkInvariant (g : Generator.t) (rest : list DDL) : Prop :=
  wellFormedFrom (Generator.mode g) (Generator.desiredTables g)
    (convertViewNames (Generator.desiredViews g)) rest = true /\
  (forall ddl, In ddl rest -> ready (Generator.currentTables g) (Generator.currentViews g) ddl) /\
  (forall current, In current (Generator.currentTables g) ->
     exists desired,
       findTableByName (recordDDLs (Generator.desiredTables g) rest) (Table.name current) =
       Some desired /\ covers desired current) /\
  incl (convertViewNames (Generator.currentViews g))
       (fold_left recordView rest (convertViewNames (Generator.desiredViews g))).

(** More fixtures. *)
Module FixtureMore.

Definition withCheck (addr : positive) (definition : string) (c : Column.t) : Column.t :=
  Column.mk (Column.name c) (Column.position c) (Column.typeName c) (Column.unsigned c)
    (Column.notNull c) (Column.autoIncrement c) (Column.array c) (Column.defaultDef c)
    (Column.length c) (Column.scale c)
    (Some (Ptr.mk addr (CheckDefinition.mk definition EmptyString)))
    (Column.checkNoInherit c) (Column.charset c) (Column.collate c) (Column.timezone c)
    (Column.keyOption c) (Column.onUpdate c) (Column.enumValues c) (Column.references c)
    (Column.identity c) (Column.sequence c).

(** A table with a CHECK on its first column, held at address [1]. *)
Definition users_check : Table.t :=
  Table.mk "users" [withCheck 1 "id > 0" Fixture.id; Fixture.name] [] [] [].

Definition schema_check : list DDL :=
  [CreateTable "CREATE TABLE users (id bigint NOT NULL CHECK (id > 0), name text)" users_check].


(** Schemas that are not well-formed, each for one reason. *)
Definition create_users : DDL :=
  CreateTable "CREATE TABLE users (id bigint NOT NULL, name text)" Fixture.users_id_name.

Definition create_posts : DDL := CreateTable "CREATE TABLE posts (...)" Fixture.posts.

Definition on_update_nan : Column.t :=
  Column.mk "t" 1 "datetime" false None false false None None None None false
    EmptyString EmptyString false ColumnKeyNone
    (Some (Value.mk ValueTypeFloat "nan" false "nan" 0 S754_nan false)) [] EmptyString
    EmptyString None.

Definition schema_on_update_nan : list DDL :=
  [CreateTable "CREATE TABLE users (id bigint NOT NULL, t datetime ON UPDATE nan)"
     (Table.mk "users" [Fixture.id; on_update_nan] [] [] [])].

Definition schema_table_twice : list DDL :=
  [CreateTable "CREATE TABLE users (id bigint NOT NULL)" Fixture.users_id; create_users].

Definition view_v : View.t := View.mk "CREATE VIEW v AS select 1" "v" "select 1".

Definition create_index : DDL :=
  CreateIndex "CREATE INDEX ix_name ON users (name)" "users" Fixture.index_plain.

Definition add_foreignKey : DDL :=
  AddForeignKey "ALTER TABLE posts ADD CONSTRAINT posts_ibfk_2 ..." "posts"
    (Fixture.foreignKey "posts_ibfk_2" "id" "users").

Definition add_policy : DDL :=
  AddPolicy "CREATE POLICY p_users ON users ..." "users" Fixture.policy_plain.

Definition index_primary : Index.t :=
  Index.mk "PRIMARY" "PRIMARY KEY" [IndexColumn.mk "id" None] true true EmptyString false [].

Definition index_two_fillfactors : Index.t :=
  Fixture.index "ix_name" ["name"]
    [IndexOption.mk "FILLFACTOR" (Some (Fixture.value ValueTypeInt "10"));
     IndexOption.mk "FILLFACTOR" (Some (Fixture.value ValueTypeInt "20"))].

Definition users_two_id : Table.t :=
  Table.mk "users" [Fixture.id; Fixture.column "id" "text" 1] [] [] [].

Definition users_two_ix : Table.t :=
  Table.mk "users" [Fixture.id; Fixture.name]
    [Fixture.index "ix" ["name"] []; Fixture.index "ix" ["id"] []] [] [].

Definition users_two_fillfactors : Table.t :=
  Table.mk "users" [Fixture.id; Fixture.name] [index_two_fillfactors] [] [].

Definition posts_two_fk : Table.t :=
  Table.mk "posts" [Fixture.id; Fixture.column "user_id" "bigint" 1] []
    [Fixture.foreignKey "posts_ibfk_1" "user_id" "users";
     ForeignKey.mk "posts_ibfk_1" EmptyString ["user_id"] "users" ["id"] "SET NULL" "CASCADE"]
    [].

End FixtureMore.

(** ** A first run

    The state of the walk when the database was empty: every current table
    came from a CREATE TABLE of the desired side, and differs from the
    desired table by the foreign keys that ALTER TABLE added, which the walk
    records on the desired side only. *)
Definition mirrors (current desired : Table.t) : Prop :=
  Table.name current = Table.name desired /\
  Table.columns current = Table.columns desired /\
  Table.indexes current = Table.indexes desired /\
  Table.policies current = Table.policies desired /\
  exists extra, Table.foreignKeys desired = (Table.foreignKeys current ++ extra)%list.

Definition firstRun (g : Generator.t) : Prop :=
  Generator.currentViews g = [] /\
  noDup (map Table.name (Generator.currentTables g)) = true /\
  Forall2 mirrors (Generator.currentTables g) (Generator.desiredTables g).

(** The name a statement creates a table under, if it creates one. *)
Definition createdTable (ddl : DDL) : list string :=
  match ddl with
  | CreateTable _ table => [Table.name table]
  | _ => []
  end.

(** The statement text, except for ALTER TABLE ... ADD FOREIGN KEY. *)
Definition statementUnlessForeignKey (ddl : DDL) : list string :=
  match ddl with
  | AddForeignKey _ _ _ => []
  | _ => [Statement ddl]
  end.

(** * Properties *)

(** ** The simulated state *)

Lemma containsString_true (strs : list string) (str : string) :
  containsString strs str = true <-> In str strs.
Proof.
  induction strs as [|s rest IH]; simpl.
  - split; [discriminate | intros []].
  - destruct (String.eqb_spec s str) as [->|Hne].
    + split; auto.
    + rewrite IH. split; [auto | intros [H|H]; [contradiction | exact H]].
Qed.

Lemma containsString_app (l1 l2 : list string) (str : string) :
  containsString (l1 ++ l2)%list str = containsString l1 str || containsString l2 str.
Proof.
  induction l1 as [|s rest IH]; simpl; [reflexivity|].
  destruct (String.eqb s str); [reflexivity | exact IH].
Qed.

Lemma containsString_snoc_present (l : list string) (s str : string) :
  containsString l s = true ->
  containsString (l ++ [s])%list str = containsString l str.
Proof.
  intros Hs. rewrite containsString_app. simpl.
  destruct (String.eqb_spec s str) as [->|_].
  - rewrite Hs. reflexivity.
  - rewrite orb_false_r. reflexivity.
Qed.

(** What the two loops of [mergeTable] compute. *)
Lemma mergeColumns_filter (columns1 columns2 : list Column.t) :
  mergeColumns columns1 columns2 =
  (columns1 ++
   filter (fun c => containsString (convertColumnsToColumnNames columns1) (Column.name c))
          columns2)%list.
Proof.
  revert columns1. induction columns2 as [|c rest IH]; intros columns1; simpl.
  - rewrite app_nil_r. reflexivity.
  - destruct (containsString (convertColumnsToColumnNames columns1) (Column.name c)) eqn:Hc.
    + rewrite IH. rewrite <- app_assoc. simpl. do 2 f_equal.
      apply filter_ext. intros c'. unfold convertColumnsToColumnNames.
      rewrite map_app. simpl. apply containsString_snoc_present. exact Hc.
    + apply IH.
Qed.

Lemma mergeIndexes_filter (indexes1 indexes2 : list Index.t) :
  mergeIndexes indexes1 indexes2 =
  (indexes1 ++
   filter (fun i => containsString (convertIndexesToIndexNames indexes1) (Index.name i))
          indexes2)%list.
Proof.
  revert indexes1. induction indexes2 as [|i rest IH]; intros indexes1; simpl.
  - rewrite app_nil_r. reflexivity.
  - destruct (containsString (convertIndexesToIndexNames indexes1) (Index.name i)) eqn:Hi.
    + rewrite IH. rewrite <- app_assoc. simpl. do 2 f_equal.
      apply filter_ext. intros i'. unfold convertIndexesToIndexNames.
      rewrite map_app. simpl. apply containsString_snoc_present. exact Hi.
    + apply IH.
Qed.

(** C2.  [mergeTable] appends the columns and indexes of [from] whose name
    IS present in [into] and leaves out the new ones: merging a table with
    the columns [id, name] into a table with the column [id] yields the
    columns [id, id], where the rule of the specification yields
    [id, name]. *)
Theorem mergeTable_appends_present_names :
  convertColumnsToColumnNames
    (Table.columns (mergeTable Fixture.users_id Fixture.users_id_name)) = ["id"; "id"] /\
  convertColumnsToColumnNames
    (Table.columns (merge_table_spec Fixture.users_id Fixture.users_id_name)) = ["id"; "name"] /\
  (forall table1 table2,
     Table.columns (mergeTable table1 table2) =
     (Table.columns table1 ++
      filter (fun c => containsString (convertColumnsToColumnNames (Table.columns table1))
                                      (Column.name c))
             (Table.columns table2))%list /\
     Table.indexes (mergeTable table1 table2) =
     (Table.indexes table1 ++
      filter (fun i => containsString (convertIndexesToIndexNames (Table.indexes table1))
                                      (Index.name i))
             (Table.indexes table2))%list).
Proof.
  split; [reflexivity|]. split; [reflexivity|].
  intros table1 table2. unfold mergeTable. simpl.
  split; [apply mergeColumns_filter | apply mergeIndexes_filter].
Qed.

(** ** Value equality *)

Lemma prefix_refl (s : string) : prefix s s = true.
Proof.
  induction s as [|a s IH]; simpl; [reflexivity|].
  destruct (ascii_dec a a) as [_|Hne]; [exact IH | contradiction].
Qed.

Lemma prefix_full (s1 s2 : string) :
  prefix s1 s2 = true -> (String.length s2 <= String.length s1)%nat -> s2 = s1.
Proof.
  revert s1. induction s2 as [|b s2 IH]; intros [|a s1]; simpl; try lia; try discriminate; auto.
  destruct (ascii_dec a b) as [->|]; [|discriminate].
  intros H Hlen. f_equal. apply IH; [exact H | lia].
Qed.

Lemma bool_eq_iff (a b : bool) : (a = true <-> b = true) -> a = b.
Proof. destruct a, b; intros [H1 H2]; auto; try (symmetry; auto); discriminate (H2 eq_refl) || auto. Qed.

(** C3, as the code has it.  [areSameValue] looks at the type of the
    desired value only, and shortens the current raw only: for a desired
    [Float] the two values are the same exactly when the desired raw is a
    prefix of the current raw; for any other desired type the raws must be
    equal. *)
Theorem areSameValue_desired_float_prefix (current desired : Value.t) :
  areSameValue (Some current) (Some desired) =
  if ValueType_eqb (Value.valueType desired) ValueTypeFloat
  then prefix (Value.raw desired) (Value.raw current)
  else String.eqb (Value.raw current) (Value.raw desired).
Proof.
  unfold areSameValue.
  destruct (ValueType_eqb (Value.valueType desired) ValueTypeFloat); simpl; [|reflexivity].
  destruct (String.length (Value.raw desired) <? String.length (Value.raw current))%nat eqn:Hlen.
  - apply bool_eq_iff. rewrite String.eqb_eq. symmetry. apply prefix_correct.
  - apply Nat.ltb_ge in Hlen. apply bool_eq_iff. rewrite String.eqb_eq. split.
    + intros ->. apply prefix_refl.
    + intros H. apply prefix_full; assumption.
Qed.

(** C3 fails as stated: with two [Float] values whose raws are ["0.00"]
    and ["0.0"], the longer current is cut to the desired and found equal,
    but a longer desired is not cut, so the comparison is not symmetric. *)
Lemma areSameValue_float_not_symmetric :
  Value.valueType Fixture.float_long = ValueTypeFloat /\
  Value.valueType Fixture.float_short = ValueTypeFloat /\
  areSameValue (Some Fixture.float_long) (Some Fixture.float_short) = true /\
  areSameValue (Some Fixture.float_short) (Some Fixture.float_long) = false.
Proof. repeat split. Qed.

(** ** Index equality *)

Lemma sameIndexColumns_names (columnsA columnsB : list IndexColumn.t) :
  List.length columnsA = List.length columnsB ->
  (sameIndexColumns columnsA columnsB = true <->
   map IndexColumn.column columnsA = map IndexColumn.column columnsB).
Proof.
  revert columnsB. induction columnsA as [|a restA IH]; intros [|b restB] Hlen;
    simpl in *; try discriminate.
  - split; reflexivity.
  - injection Hlen as Hlen.
    destruct (String.eqb_spec (IndexColumn.column a) (IndexColumn.column b)) as [Heq|Hne]; simpl.
    + rewrite (IH _ Hlen). rewrite Heq. split; [intros ->; reflexivity | intros H; injection H; auto].
    + split; [discriminate | intros H; injection H; intros; contradiction].
Qed.

Lemma sameIndexOptions_matched (optionsA optionsB : list IndexOption.t) :
  sameIndexOptions optionsA optionsB = true <-> Forall (optionMatched optionsA) optionsB.
Proof.
  induction optionsB as [|optionB rest IH]; simpl.
  - split; [constructor | reflexivity].
  - destruct (findIndexOptionByName optionsA (IndexOption.optionName optionB)) as [optionA|] eqn:Hfind.
    + destruct (areSameValue (IndexOption.value optionA) (IndexOption.value optionB)) eqn:Hsame; simpl.
      * rewrite IH. split.
        -- intros H. constructor; [exists optionA; split; [exact Hfind | assumption] | exact H].
        -- intros H. inversion H; assumption.
      * split; [discriminate|]. intros H. inversion H as [|? ? [optionA' [Hf Hs]] _]; subst.
        rewrite Hfind in Hf. injection Hf as <-. rewrite Hsame in Hs. discriminate.
    + split; [discriminate|]. intros H. inversion H as [|? ? [optionA' [Hf _]] _]; subst.
      rewrite Hfind in Hf. discriminate.
Qed.

(** C8, as the code has it.  [areSameIndexes a b] holds exactly when the
    unique and primary flags, the column names and [where] are equal and
    every option of [b] is matched in [a]; the options of [a] are only
    looked up, never enumerated. *)
Theorem areSameIndexes_iff (indexA indexB : Index.t) :
  areSameIndexes indexA indexB = true <->
  Index.unique indexA = Index.unique indexB /\
  Index.primary indexA = Index.primary indexB /\
  map IndexColumn.column (Index.columns indexA) = map IndexColumn.column (Index.columns indexB) /\
  Index.where_ indexA = Index.where_ indexB /\
  Forall (optionMatched (Index.options indexA)) (Index.options indexB).
Proof.
  unfold areSameIndexes.
  destruct (Bool.eqb (Index.unique indexA) (Index.unique indexB)) eqn:Hu; simpl.
  2:{ split; [discriminate|]. intros [H _]. rewrite H, Bool.eqb_reflx in Hu. discriminate. }
  apply Bool.eqb_prop in Hu.
  destruct (Bool.eqb (Index.primary indexA) (Index.primary indexB)) eqn:Hp; simpl.
  2:{ split; [discriminate|]. intros [_ [H _]]. rewrite H, Bool.eqb_reflx in Hp. discriminate. }
  apply Bool.eqb_prop in Hp.
  destruct (List.length (Index.columns indexA) =? List.length (Index.columns indexB))%nat eqn:Hl; simpl.
  2:{ split; [discriminate|]. intros [_ [_ [H _]]]. apply Nat.eqb_neq in Hl. exfalso. apply Hl.
      rewrite <- (length_map IndexColumn.column (Index.columns indexA)), H. apply length_map. }
  apply Nat.eqb_eq in Hl.
  destruct (sameIndexColumns (Index.columns indexA) (Index.columns indexB)) eqn:Hc; simpl.
  2:{ split; [discriminate|]. intros [_ [_ [H _]]].
      apply (sameIndexColumns_names _ _ Hl) in H. rewrite H in Hc. discriminate. }
  apply (sameIndexColumns_names _ _ Hl) in Hc.
  destruct (String.eqb_spec (Index.where_ indexA) (Index.where_ indexB)) as [Hw|Hw]; simpl.
  2:{ split; [discriminate|]. intros [_ [_ [_ [H _]]]]. contradiction. }
  rewrite sameIndexOptions_matched. tauto.
Qed.

(** C8 fails as stated: an index with the option [FILLFACTOR = 10] is the
    same as the index without options when it is the first argument, and
    differs from it when it is the second. *)
Lemma areSameIndexes_not_symmetric :
  areSameIndexes Fixture.index_fillfactor Fixture.index_plain = true /\
  areSameIndexes Fixture.index_plain Fixture.index_fillfactor = false.
Proof. split; reflexivity. Qed.

(** ** Rendering of a column *)

Lemma string_append_nil_r (s : string) : s ++ EmptyString = s.
Proof. induction s as [|c s IH]; cbn; [|rewrite IH]; reflexivity. Qed.

Lemma string_append_assoc (a b c : string) : (a ++ b) ++ c = a ++ b ++ c.
Proof. induction a as [|x a IH]; cbn; [|rewrite IH]; reflexivity. Qed.

Lemma concat_empty_cons (x : string) (l : list string) :
  String.concat EmptyString (x :: l) = x ++ String.concat EmptyString l.
Proof.
  destruct l as [|y l]; cbn [String.concat]; [|reflexivity].
  symmetry. apply string_append_nil_r.
Qed.

Lemma concat_empty_app (l1 l2 : list string) :
  String.concat EmptyString (l1 ++ l2)%list =
  String.concat EmptyString l1 ++ String.concat EmptyString l2.
Proof.
  induction l1 as [|x l1 IH]; [reflexivity|].
  rewrite <- app_comm_cons, !concat_empty_cons, IH, string_append_assoc. reflexivity.
Qed.

Lemma append_eq (a a' b b' : string) : a = a' -> b = b' -> a ++ b = a' ++ b'.
Proof. intros -> ->. reflexivity. Qed.

Lemma length_append_space (s : string) : String.length (s ++ " ") = S (String.length s).
Proof. induction s as [|c s IH]; cbn; [|rewrite IH]; reflexivity. Qed.

Lemma substring_append_space_last (s : string) :
  substring (String.length s) 1 (s ++ " ") = " ".
Proof. induction s as [|c s IH]; [reflexivity | exact IH]. Qed.

Lemma substring_append_space_init (s : string) :
  substring 0 (String.length s) (s ++ " ") = s.
Proof. induction s as [|c s IH]; cbn; [|rewrite IH]; reflexivity. Qed.

(** [strings.TrimSuffix] takes the one space a rendered clause ends with. *)
Lemma TrimSuffix_space (s : string) : Strings.TrimSuffix (s ++ " ") " " = s.
Proof.
  unfold Strings.TrimSuffix, Strings.HasSuffix. rewrite length_append_space.
  cbn [String.length Nat.leb Nat.sub]. rewrite Nat.sub_0_r.
  rewrite substring_append_space_last, substring_append_space_init. reflexivity.
Qed.

Lemma columnDefinitionClauses_identity_notNull {rt : GoRuntime} (g : Generator.t)
    (column : Column.t) (enableUnique : bool) (clauses : list string) :
  Column.identity column <> EmptyString ->
  Column.notNull column = Some true ->
  columnDefinitionClauses g column enableUnique = Ok clauses ->
  columnDefinitionClauses g (Column.set_notNull None column) enableUnique = Ok clauses.
Proof.
  intros Hid Hnn. unfold columnDefinitionClauses, nullabilityClause, defaultClause,
    keyOptionClause, identityClause, generateDataType.
  destruct column. cbn in *. subst.
  destruct (String.eqb_spec identity EmptyString) as [H|_]; [contradiction|]. cbn.
  destruct defaultDef as [d|]; cbn;
    [destruct (DefaultDefinition.value d) as [v|]; cbn;
     [destruct (generateDefaultDefinition v); cbn; [|discriminate]|]|];
    destruct keyOption; cbn; auto; discriminate.
Qed.

Lemma columnDefinitionClauses_identity_primary {rt : GoRuntime} (g : Generator.t)
    (column : Column.t) (enableUnique : bool) (clauses : list string) :
  Column.identity column <> EmptyString ->
  Column.keyOption column = ColumnKeyPrimary ->
  columnDefinitionClauses g column enableUnique = Ok clauses ->
  columnDefinitionClauses g (Column.set_keyOption ColumnKeyNone column) enableUnique = Ok clauses.
Proof.
  intros Hid Hkey. unfold columnDefinitionClauses, nullabilityClause, defaultClause,
    keyOptionClause, identityClause, generateDataType.
  destruct column. cbn in *. subst.
  destruct (String.eqb_spec identity EmptyString) as [H|_]; [contradiction|]. cbn.
  destruct defaultDef as [d|]; cbn;
    [destruct (DefaultDefinition.value d) as [v|]; cbn;
     [destruct (generateDefaultDefinition v); cbn; [|discriminate]|]|];
    auto.
Qed.

(** C10.  The text that [generateColumnDefinition] renders for a column
    with an identity, clause by clause: name and type, UNSIGNED, WITH TIME
    ZONE, CHARACTER SET, COLLATE, then [NULL] if the column says so and
    nothing otherwise, the default, AUTO_INCREMENT, ON UPDATE, CHECK, NO
    INHERIT, UNIQUE, and [GENERATED <identity> AS IDENTITY] with the
    sequence options; the function fails exactly on a default value or a key
    option it does not support.  No [NOT NULL] is rendered, whatever
    [notNull] and [keyOption] are: the text is the one of the same column
    with [notNull] unset, or without the primary key option, and for a
    column with none of the optional clauses it is the name, the type and
    the identity clause. *)
Theorem generateColumnDefinition_identity_no_not_null
    {rt : GoRuntime} (g : Generator.t) (column : Column.t) (enableUnique : bool) :
  Column.identity column <> EmptyString ->
  let default :=
    match Column.defaultDef column with
    | Some defaultDef =>
        match DefaultDefinition.value defaultDef with
        | Some value =>
            match generateDefaultDefinition value with
            | Ok text => Ok (text ++ " ")
            | Err e => Err (InColumn e column)
            end
        | None => Ok EmptyString
        end
    | None => Ok EmptyString
    end in
  let key :=
    match Column.keyOption column with
    | ColumnKeyNone | ColumnKeyPrimary => Ok EmptyString
    | ColumnKeyUnique => Ok (if enableUnique then "UNIQUE " else EmptyString)
    | ColumnKeyUniqueKey => Ok (if enableUnique then "UNIQUE KEY " else EmptyString)
    | _ => Err (UnsupportedColumnKey column)
    end in
  generateColumnDefinition g column enableUnique =
    match default, key with
    | Err e, _ => Err e
    | Ok _, Err e => Err e
    | Ok default, Ok key =>
        Ok (Strings.TrimSuffix
              ((escapeSQLName g (Column.name column) ++ " " ++ generateDataType column ++ " ") ++
               (if Column.unsigned column then "UNSIGNED " else EmptyString) ++
               (if Column.timezone column then "WITH TIME ZONE " else EmptyString) ++
               (if negb (String.eqb (Column.charset column) EmptyString)
                then "CHARACTER SET " ++ Column.charset column ++ " " else EmptyString) ++
               (if negb (String.eqb (Column.collate column) EmptyString)
                then "COLLATE " ++ Column.collate column ++ " " else EmptyString) ++
               match Column.notNull column with Some false => "NULL " | _ => EmptyString end ++
               default ++
               (if Column.autoIncrement column then "AUTO_INCREMENT " else EmptyString) ++
               match Column.onUpdate column with
               | Some value => "ON UPDATE " ++ Value.raw value ++ " "
               | None => EmptyString
               end ++
               match Column.check column with
               | Some check => "CHECK (" ++ CheckDefinition.definition (Ptr.deref check) ++ ") "
               | None => EmptyString
               end ++
               (if Column.checkNoInherit column then "NO INHERIT " else EmptyString) ++
               key ++
               ("GENERATED " ++ Column.identity column ++ " AS IDENTITY ") ++
               match Column.sequence column with
               | Some sequence => "(" ++ generateSequenceClause sequence ++ ") "
               | None => EmptyString
               end)
              " ")
    end /\
  (Column.notNull column = Some true ->
   forall definition,
     generateColumnDefinition g column enableUnique = Ok definition ->
     generateColumnDefinition g (Column.set_notNull None column) enableUnique = Ok definition) /\
  (Column.keyOption column = ColumnKeyPrimary ->
   forall definition,
     generateColumnDefinition g column enableUnique = Ok definition ->
     generateColumnDefinition g (Column.set_keyOption ColumnKeyNone column) enableUnique =
     Ok definition) /\
  (Column.unsigned column = false -> Column.timezone column = false ->
   Column.charset column = EmptyString -> Column.collate column = EmptyString ->
   Column.notNull column <> Some false -> Column.defaultDef column = None ->
   Column.autoIncrement column = false -> Column.onUpdate column = None ->
   Column.check column = None -> Column.checkNoInherit column = false ->
   Column.keyOption column = ColumnKeyNone \/ Column.keyOption column = ColumnKeyPrimary ->
   Column.sequence column = None ->
   generateColumnDefinition g column enableUnique =
   Ok (escapeSQLName g (Column.name column) ++ " " ++ generateDataType column ++
       " GENERATED " ++ Column.identity column ++ " AS IDENTITY")).
Proof.
  intros Hid default key.
  assert (Htext :
    generateColumnDefinition g column enableUnique =
    match default, key with
    | Err e, _ => Err e
    | Ok _, Err e => Err e
    | Ok default, Ok key =>
        Ok (Strings.TrimSuffix
              ((escapeSQLName g (Column.name column) ++ " " ++ generateDataType column ++ " ") ++
               (if Column.unsigned column then "UNSIGNED " else EmptyString) ++
               (if Column.timezone column then "WITH TIME ZONE " else EmptyString) ++
               (if negb (String.eqb (Column.charset column) EmptyString)
                then "CHARACTER SET " ++ Column.charset column ++ " " else EmptyString) ++
               (if negb (String.eqb (Column.collate column) EmptyString)
                then "COLLATE " ++ Column.collate column ++ " " else EmptyString) ++
               match Column.notNull column with Some false => "NULL " | _ => EmptyString end ++
               default ++
               (if Column.autoIncrement column then "AUTO_INCREMENT " else EmptyString) ++
               match Column.onUpdate column with
               | Some value => "ON UPDATE " ++ Value.raw value ++ " "
               | None => EmptyString
               end ++
               match Column.check column with
               | Some check => "CHECK (" ++ CheckDefinition.definition (Ptr.deref check) ++ ") "
               | None => EmptyString
               end ++
               (if Column.checkNoInherit column then "NO INHERIT " else EmptyString) ++
               key ++
               ("GENERATED " ++ Column.identity column ++ " AS IDENTITY ") ++
               match Column.sequence column with
               | Some sequence => "(" ++ generateSequenceClause sequence ++ ") "
               | None => EmptyString
               end)
              " ")
    end).
  { subst default key.
    unfold generateColumnDefinition, columnDefinitionClauses, defaultClause, keyOptionClause,
      identityClause, nullabilityClause.
    destruct (String.eqb_spec (Column.identity column) EmptyString) as [H|_]; [contradiction|].
    cbn [negb andb].
    destruct (Column.defaultDef column) as [defaultDef|];
      [destruct (DefaultDefinition.value defaultDef) as [value|];
       [destruct (generateDefaultDefinition value) as [text|e]|]|];
      cbn [bind]; try reflexivity;
      (destruct (Column.keyOption column); cbn [bind]; try reflexivity;
       do 2 f_equal; rewrite !concat_empty_app;
       repeat (apply append_eq;
               [ try reflexivity;
                 match goal with
                 | |- context [if ?b then _ else _] => destruct b
                 | |- context [match ?o with Some _ => _ | None => _ end] => destruct o
                 end; try reflexivity;
                 match goal with
                 | |- context [match ?o with true => _ | false => _ end] => destruct o
                 end; reflexivity
               | ]);
       rewrite concat_empty_cons; (apply append_eq; [reflexivity|]);
       destruct (Column.sequence column); reflexivity). }
  split; [exact Htext|]. split; [|split].
  - intros Hnn definition Hdef. unfold generateColumnDefinition in *.
    destruct (columnDefinitionClauses g column enableUnique) as [clauses|e] eqn:Hclauses;
      [|discriminate].
    rewrite (columnDefinitionClauses_identity_notNull g column enableUnique clauses
               Hid Hnn Hclauses).
    exact Hdef.
  - intros Hkey definition Hdef. unfold generateColumnDefinition in *.
    destruct (columnDefinitionClauses g column enableUnique) as [clauses|e] eqn:Hclauses;
      [|discriminate].
    rewrite (columnDefinitionClauses_identity_primary g column enableUnique clauses
               Hid Hkey Hclauses).
    exact Hdef.
  - intros Hunsigned Htimezone Hcharset Hcollate Hnull Hdefault Hauto Hupdate Hcheck
      Hinherit Hkey Hsequence.
    rewrite Htext. subst default key.
    rewrite Hunsigned, Htimezone, Hcharset, Hcollate, Hdefault, Hauto, Hupdate, Hcheck,
      Hinherit, Hsequence.
    assert (Hnone : match Column.notNull column with
                    | Some false => "NULL " | _ => EmptyString end = EmptyString).
    { destruct (Column.notNull column) as [[|]|]; try reflexivity. contradiction. }
    rewrite Hnone.
    destruct Hkey as [Hkey|Hkey]; rewrite Hkey; cbn [String.eqb negb append];
      rewrite string_append_nil_r; f_equal;
      (etransitivity; [|apply TrimSuffix_space]);
      f_equal; repeat (progress (rewrite ?string_append_assoc; cbn [append]));
      reflexivity.
Qed.

Lemma generateColumnDefinition_identity_witness :
  Column.identity Fixture.identity_id <> EmptyString /\
  Column.notNull Fixture.identity_id = Some true /\
  Column.keyOption Fixture.identity_id = ColumnKeyPrimary /\
  generateColumnDefinition (rt := asciiRuntime) (Fixture.generator GeneratorModeMysql [])
    Fixture.identity_id true =
  Ok ("`id`" ++ " " ++ "bigint" ++ " GENERATED " ++ "ALWAYS" ++ " AS IDENTITY").
Proof.
  split; [discriminate|]. split; [reflexivity|]. split; [reflexivity|].
  apply (proj2 (proj2 (proj2 (generateColumnDefinition_identity_no_not_null
            (rt := asciiRuntime) (Fixture.generator GeneratorModeMysql [])
            Fixture.identity_id true ltac:(discriminate))))); try reflexivity;
    try discriminate.
  right. reflexivity.
Defined.


(** ** Facts about the walk *)

Section Walk.

Context {rt : GoRuntime}.

Lemma escapeSQLName_mode (g g' : Generator.t) (name : string) :
  Generator.mode g' = Generator.mode g -> escapeSQLName g' name = escapeSQLName g name.
Proof. unfold escapeSQLName. intros ->. reflexivity. Qed.

Lemma escapeTableName_mode (g g' : Generator.t) (name : string) :
  Generator.mode g' = Generator.mode g -> escapeTableName g' name = escapeTableName g name.
Proof.
  intros H. unfold escapeTableName, escapeSQLName. rewrite H. reflexivity.
Qed.

Lemma generateDDLsForCreateIndex_mode (g g' : Generator.t) tableName index action statement ddls :
  generateDDLsForCreateIndex g tableName index action statement = Ok (g', ddls) ->
  Generator.mode g' = Generator.mode g.
Proof.
  unfold generateDDLsForCreateIndex.
  destruct (findTableByName (Generator.currentTables g) tableName) as [currentTable|]; [|discriminate].
  destruct (findIndexByName (Table.indexes currentTable) (Index.name index)) as [currentIndex|].
  - destruct (negb (areSameIndexes currentIndex index)); cbn [Generator.desiredTables Generator.set_currentTables];
      match goal with
      | |- context [findTableByName ?l tableName] => destruct (findTableByName l tableName)
      end; try discriminate;
      match goal with
      | |- context [containsString ?l ?s] => destruct (containsString l s)
      end; try discriminate; intros H; injection H as <- _; reflexivity.
  - cbn [Generator.desiredTables Generator.set_currentTables].
    match goal with
    | |- context [findTableByName ?l tableName] => destruct (findTableByName l tableName)
    end; try discriminate.
    match goal with
    | |- context [containsString ?l ?s] => destruct (containsString l s)
    end; try discriminate. intros H; injection H as <- _; reflexivity.
Qed.

Lemma generateDDLsForAddForeignKey_mode (g g' : Generator.t) tableName fk action statement ddls :
  generateDDLsForAddForeignKey g tableName fk action statement = Ok (g', ddls) ->
  Generator.mode g' = Generator.mode g.
Proof.
  unfold generateDDLsForAddForeignKey.
  destruct (findTableByName (Generator.desiredTables g) tableName); [|discriminate].
  match goal with
  | |- context [containsString ?l ?s] => destruct (containsString l s)
  end; try discriminate. intros H; injection H as <- _; reflexivity.
Qed.

Lemma generateDDLsForCreatePolicy_mode (g g' : Generator.t) tableName policy action statement ddls :
  generateDDLsForCreatePolicy g tableName policy action statement = Ok (g', ddls) ->
  Generator.mode g' = Generator.mode g.
Proof.
  unfold generateDDLsForCreatePolicy.
  destruct (findTableByName (Generator.currentTables g) tableName) as [currentTable|]; [|discriminate].
  destruct (findPolicyByName (Table.policies currentTable) (Policy.name policy)) as [currentPolicy|].
  - destruct (negb (areSamePolicies currentPolicy policy));
      destruct (findTableByName (Generator.desiredTables g) tableName); try discriminate;
      match goal with
      | |- context [containsString ?l ?s] => destruct (containsString l s)
      end; try discriminate; intros H; injection H as <- _; reflexivity.
  - cbn [Generator.desiredTables Generator.set_currentTables].
    destruct (findTableByName (Generator.desiredTables g) tableName); try discriminate.
    match goal with
    | |- context [containsString ?l ?s] => destruct (containsString l s)
    end; try discriminate. intros H; injection H as <- _; reflexivity.
Qed.

Lemma generateDDLsForCreateView_mode (g g' : Generator.t) viewName view ddls :
  generateDDLsForCreateView g viewName view = Ok (g', ddls) ->
  Generator.mode g' = Generator.mode g.
Proof.
  unfold generateDDLsForCreateView.
  match goal with
  | |- context [containsString ?l ?s] => destruct (containsString l s)
  end; try discriminate. intros H; injection H as <- _; reflexivity.
Qed.

Lemma examineDDL_mode (g g' : Generator.t) (ddl : DDL) (ddls : list string) :
  examineDDL g ddl = Ok (g', ddls) -> Generator.mode g' = Generator.mode g.
Proof.
  destruct ddl; cbn [examineDDL].
  - destruct (findTableByName (Generator.currentTables g) (Table.name table)) as [currentTable|].
    + destruct (generateDDLsForCreateTable g currentTable table); cbn [bind]; [|discriminate].
      intros H; injection H as <- _; reflexivity.
    + cbn [bind]. intros H; injection H as <- _; reflexivity.
  - apply generateDDLsForCreateIndex_mode.
  - apply generateDDLsForCreateIndex_mode.
  - discriminate.
  - apply generateDDLsForAddForeignKey_mode.
  - apply generateDDLsForCreatePolicy_mode.
  - apply generateDDLsForCreateView_mode.
Qed.

Lemma examineDDLs_cons (g : Generator.t) (ddl : DDL) (rest : list DDL) :
  examineDDLs g (ddl :: rest) =
  match examineDDL g ddl with
  | Ok (g1, ddls) =>
      match examineDDLs g1 rest with
      | Ok (g2, ddls') => Ok (g2, (ddls ++ ddls')%list)
      | Err e => Err e
      end
  | Err e => Err e
  end.
Proof.
  cbn [examineDDLs bind]. destruct (examineDDL g ddl) as [[g1 ddls]|e]; [|reflexivity].
  cbn [bind]. destruct (examineDDLs g1 rest) as [[g2 ddls']|e]; reflexivity.
Qed.

Lemma examineDDLs_mode (desiredDDLs : list DDL) (g g' : Generator.t) (ddls : list string) :
  examineDDLs g desiredDDLs = Ok (g', ddls) -> Generator.mode g' = Generator.mode g.
Proof.
  revert g ddls. induction desiredDDLs as [|ddl rest IH]; intros g ddls.
  - cbn. intros H; injection H as <- _; reflexivity.
  - rewrite examineDDLs_cons.
    destruct (examineDDL g ddl) as [[g1 ddls1]|e] eqn:H1; [|discriminate].
    destruct (examineDDLs g1 rest) as [[g2 ddls2]|e] eqn:H2; [|discriminate].
    intros H; injection H as <- _.
    rewrite (IH _ _ H2). exact (examineDDL_mode _ _ _ _ H1).
Qed.

(** The statements of the walk over [pre ++ rest] are those of the walk
    over [pre] followed by those of the walk over [rest] from the state
    that [pre] left. *)
Lemma examineDDLs_app (pre rest : list DDL) (g : Generator.t) :
  examineDDLs g (pre ++ rest)%list =
  match examineDDLs g pre with
  | Ok (g1, ddls) =>
      match examineDDLs g1 rest with
      | Ok (g2, ddls') => Ok (g2, (ddls ++ ddls')%list)
      | Err e => Err e
      end
  | Err e => Err e
  end.
Proof.
  revert g. induction pre as [|ddl pre IH]; intros g.
  - cbn [app examineDDLs]. destruct (examineDDLs g rest) as [[g2 ddls']|e]; reflexivity.
  - rewrite <- app_comm_cons. rewrite !examineDDLs_cons.
    destruct (examineDDL g ddl) as [[g1 ddls1]|e]; [|reflexivity].
    rewrite IH. destruct (examineDDLs g1 pre) as [[g2 ddls2]|e]; [|reflexivity].
    destruct (examineDDLs g2 rest) as [[g3 ddls3]|e]; [|reflexivity].
    rewrite app_assoc. reflexivity.
Qed.

(** A successful loop contains the statements of each of its rounds as a
    contiguous segment. *)
Lemma concatMapM_segment {A : Type} (f : A -> res (list string)) (l : list A)
    (out : list string) (x : A) :
  concatMapM f l = Ok out -> In x l ->
  exists o pre post, f x = Ok o /\ out = (pre ++ o ++ post)%list.
Proof.
  revert out. induction l as [|y rest IH]; intros out Hout Hin; [destruct Hin|].
  destruct Hin as [Heq|Hin].
  - subst y. cbn [concatMapM bind] in Hout.
    destruct (f x) as [o|e]; [|discriminate]. cbn [bind] in Hout.
    destruct (concatMapM f rest) as [b|e]; [|discriminate]. injection Hout as <-.
    exists o, [], b. split; reflexivity.
  - cbn [concatMapM bind] in Hout.
    destruct (f y) as [a|e]; [|discriminate]. cbn [bind] in Hout.
    destruct (concatMapM f rest) as [b|e]; [|discriminate]. injection Hout as <-.
    destruct (IH b eq_refl Hin) as [o [pre [post [Hf Hb]]]].
    exists o, (a ++ pre)%list, post. split; [exact Hf|].
    rewrite Hb, <- app_assoc. reflexivity.
Qed.

Lemma cleanupTables_split (g : Generator.t) (before : list Table.t)
    (currentTable : Table.t) (after currentTables : list Table.t) (out : list string)
    (desiredTable : Table.t) :
  cleanupTables g (before ++ currentTable :: after) currentTables = Ok out ->
  findTableByName (Generator.desiredTables g) (Table.name currentTable) = Some desiredTable ->
  exists o pre post remaining,
    cleanupTable g currentTable desiredTable = Ok o /\
    cleanupTables g before currentTables = Ok pre /\
    cleanupTables g after remaining = Ok post /\
    out = (pre ++ o ++ post)%list.
Proof.
  revert currentTables out.
  induction before as [|t rest IH]; intros currentTables out Hout Hfind;
    cbn [app cleanupTables] in Hout.
  - rewrite Hfind in Hout.
    destruct (cleanupTable g currentTable desiredTable) as [o|e]; [|discriminate].
    cbn [bind] in Hout.
    destruct (cleanupTables g after currentTables) as [b|e] eqn:Hb; [|discriminate].
    injection Hout as <-. exists o, [], b, currentTables. repeat split. exact Hb.
  - cbn [cleanupTables].
    destruct (findTableByName (Generator.desiredTables g) (Table.name t)) as [d|].
    + destruct (cleanupTable g t d) as [a|e]; [|discriminate]. cbn [bind] in Hout |- *.
      destruct (cleanupTables g (rest ++ currentTable :: after) currentTables)
        as [b|e] eqn:Hb; [|discriminate].
      injection Hout as <-.
      destruct (IH _ _ Hb Hfind) as [o [pre [post [remaining [Ho [Hpre [Hpost Heq]]]]]]].
      exists o, (a ++ pre)%list, post, remaining. rewrite Hpre. cbn [bind].
      repeat split; [exact Ho | exact Hpost|].
      rewrite Heq, <- app_assoc. reflexivity.
    + destruct (removeTableByName currentTables (Table.name t)) as [c|]; [|discriminate].
      destruct (cleanupTables g (rest ++ currentTable :: after) c) as [b|e] eqn:Hb;
        [|discriminate].
      cbn [bind] in Hout. injection Hout as <-.
      destruct (IH _ _ Hb Hfind) as [o [pre [post [remaining [Ho [Hpre [Hpost Heq]]]]]]].
      exists o, (("DROP TABLE " ++ escapeTableName g (Table.name t)) :: pre), post, remaining.
      rewrite Hpre. cbn [bind].
      repeat split; [exact Ho | exact Hpost|]. rewrite Heq. reflexivity.
Qed.

(** The statements of [generateDDLs] are those of the walk, those of the
    cleanup of the tables and those of the cleanup of the views, in this
    order; the statements for the tables are, for a current table that the
    walk left with a desired counterpart, those of the tables before it,
    those of its own cleanup and those of the tables after it. *)
Lemma generateDDLs_cleanup_exact (g g' : Generator.t) (desiredDDLs : list DDL)
    (walked ddls : list string) (tablesBefore : list Table.t) (currentTable : Table.t)
    (tablesAfter : list Table.t) (desiredTable : Table.t) :
  examineDDLs g desiredDDLs = Ok (g', walked) ->
  generateDDLs g desiredDDLs = Ok ddls ->
  Generator.currentTables g' = (tablesBefore ++ currentTable :: tablesAfter)%list ->
  findTableByName (Generator.desiredTables g') (Table.name currentTable) = Some desiredTable ->
  exists o pre post remaining,
    cleanupTable g' currentTable desiredTable = Ok o /\
    cleanupTables g' tablesBefore (Generator.currentTables g') = Ok pre /\
    cleanupTables g' tablesAfter remaining = Ok post /\
    ddls = (walked ++ (pre ++ o ++ post) ++ cleanupViews g')%list.
Proof.
  intros Hwalk Hgen Hsplit Hfind. unfold generateDDLs in Hgen. rewrite Hwalk in Hgen.
  cbn [bind] in Hgen.
  destruct (cleanupTables g' (Generator.currentTables g') (Generator.currentTables g'))
    as [tables|e] eqn:Htables; [|discriminate].
  cbn [bind] in Hgen. injection Hgen as <-.
  rewrite Hsplit in Htables at 1.
  destruct (cleanupTables_split _ _ _ _ _ _ _ Htables Hfind)
    as [o [pre [post [remaining [Ho [Hpre [Hpost Heq]]]]]]].
  exists o, pre, post, remaining. repeat split; try assumption. rewrite Heq. reflexivity.
Qed.

End Walk.

(** ** The final cleanup walk *)





Lemma flat_map_filter_repeat {A : Type} (p : A -> bool) (s : string)
    (f : A -> list string) (l : list A) :
  (forall y, In y l -> f y = if p y then [s] else []) ->
  flat_map f l = repeat s (length (filter p l)).
Proof.
  induction l as [|y rest IH]; intros Hall; [reflexivity|].
  cbn [flat_map filter]. rewrite (Hall y (or_introl eq_refl)).
  rewrite IH by (intros z Hz; apply Hall; right; exact Hz).
  destruct (p y); reflexivity.
Qed.

(** Under MSSQL the statements for an absent column whose default definition
    has a constraint name, in a table where the columns of that name have
    the same default definition, are one DROP CONSTRAINT for each column of
    that name, then the DROP COLUMN. *)
Lemma generateDDLsForAbsentColumn_mssql (g : Generator.t) (currentTable : Table.t)
    (column : Column.t) (defaultDef : DefaultDefinition.t) :
  Generator.mode g = GeneratorModeMssql ->
  Column.defaultDef column = Some defaultDef ->
  DefaultDefinition.constraintName defaultDef <> EmptyString ->
  (forall other, In other (Table.columns currentTable) ->
                 Column.name other = Column.name column ->
                 Column.defaultDef other = Column.defaultDef column) ->
  generateDDLsForAbsentColumn g currentTable (Column.name column) =
  (repeat
     ("ALTER TABLE " ++ escapeTableName g (Table.name currentTable) ++ " DROP CONSTRAINT " ++
      escapeSQLName g (DefaultDefinition.constraintName defaultDef))%string
     (length (filter (fun other => String.eqb (Column.name other) (Column.name column))
                     (Table.columns currentTable))) ++
   [("ALTER TABLE " ++ escapeTableName g (Table.name currentTable) ++ " DROP COLUMN " ++
     escapeSQLName g (Column.name column))%string])%list.
Proof.
  intros Hmode Hdef Hname Hsame. unfold generateDDLsForAbsentColumn. rewrite Hmode.
  f_equal. apply flat_map_filter_repeat. intros other Hother. cbv beta.
  destruct (String.eqb_spec (Column.name other) (Column.name column)) as [Hn|Hn].
  - rewrite (Hsame other Hother Hn), Hdef.
    destruct (String.eqb_spec (DefaultDefinition.constraintName defaultDef) EmptyString);
      [contradiction | reflexivity].
  - destruct (Column.defaultDef other); reflexivity.
Qed.

(** C5, as the code has it.  Under MSSQL, take a current table that the walk
    left with a desired counterpart and a column of it that the desired
    table does not name, whose default definition has a constraint name (the
    columns of that name in the table having the same default definition).
    The statements for the absent column are one DROP CONSTRAINT of that
    default for each further column of the same name, then the DROP
    CONSTRAINT and, immediately after it, the DROP COLUMN, and nothing else;
    the cleanup of the columns is the statements for the columns before, these
    statements, and the statements for the columns after; and the returned
    statement list is the statements of the walk, those of the cleanup of
    the tables before, the foreign keys, indexes, columns and policies of
    this table, those of the cleanup of the tables after and those for the
    views.  Under every other dialect the statements for an absent column
    are the DROP COLUMN alone. *)
Theorem dropColumn_after_dropConstraint_mssql {rt : GoRuntime} (g : Generator.t) :
  (Generator.mode g = GeneratorModeMssql ->
   forall desiredDDLs g' walked ddls tablesBefore currentTable tablesAfter desiredTable
          before column after defaultDef,
     examineDDLs g desiredDDLs = Ok (g', walked) ->
     generateDDLs g desiredDDLs = Ok ddls ->
     Generator.currentTables g' = (tablesBefore ++ currentTable :: tablesAfter)%list ->
     findTableByName (Generator.desiredTables g') (Table.name currentTable) = Some desiredTable ->
     Table.columns currentTable = (before ++ column :: after)%list ->
     containsString (convertColumnsToColumnNames (Table.columns desiredTable))
                    (Column.name column) = false ->
     Column.defaultDef column = Some defaultDef ->
     DefaultDefinition.constraintName defaultDef <> EmptyString ->
     (forall other, In other (Table.columns currentTable) ->
                    Column.name other = Column.name column ->
                    Column.defaultDef other = Column.defaultDef column) ->
     let dropConstraint :=
       ("ALTER TABLE " ++ escapeTableName g (Table.name currentTable) ++ " DROP CONSTRAINT " ++
        escapeSQLName g (DefaultDefinition.constraintName defaultDef))%string in
     let dropColumn :=
       ("ALTER TABLE " ++ escapeTableName g (Table.name currentTable) ++ " DROP COLUMN " ++
        escapeSQLName g (Column.name column))%string in
     let absent := fun other : Column.t =>
       if containsString (convertColumnsToColumnNames (Table.columns desiredTable))
                         (Column.name other)
       then []
       else generateDDLsForAbsentColumn g' currentTable (Column.name other) in
     exists k,
       length (filter (fun other => String.eqb (Column.name other) (Column.name column))
                      (Table.columns currentTable)) = S k /\
       generateDDLsForAbsentColumn g' currentTable (Column.name column) =
         (repeat dropConstraint k ++ [dropConstraint; dropColumn])%list /\
       cleanupColumns g' currentTable desiredTable =
         (flat_map absent before ++
          (repeat dropConstraint k ++ [dropConstraint; dropColumn]) ++
          flat_map absent after)%list /\
       exists indexes pre post remaining,
         cleanupIndexes g' currentTable desiredTable = Ok indexes /\
         cleanupTables g' tablesBefore (Generator.currentTables g') = Ok pre /\
         cleanupTables g' tablesAfter remaining = Ok post /\
         ddls =
         (walked ++
          (pre ++
           (cleanupForeignKeys g' currentTable desiredTable ++
            indexes ++
            (flat_map absent before ++
             (repeat dropConstraint k ++ [dropConstraint; dropColumn]) ++
             flat_map absent after) ++
            cleanupPolicies g' currentTable desiredTable) ++
           post) ++
          cleanupViews g')%list) /\
  (Generator.mode g <> GeneratorModeMssql ->
   forall currentTable columnName,
     generateDDLsForAbsentColumn g currentTable columnName =
     ["ALTER TABLE " ++ escapeTableName g (Table.name currentTable) ++ " DROP COLUMN " ++
      escapeSQLName g columnName]).
Proof.
  split.
  - intros Hmode desiredDDLs g' walked ddls tablesBefore currentTable tablesAfter desiredTable
      before column after defaultDef Hwalk Hgen Hin Hfind Hcol Habsent Hdef Hname Hsame
      dropConstraint dropColumn absent.
    assert (Hmode' : Generator.mode g' = Generator.mode g) by exact (examineDDLs_mode _ _ _ _ Hwalk).
    assert (Hcount : exists k,
              length (filter (fun other => String.eqb (Column.name other) (Column.name column))
                             (Table.columns currentTable)) = S k).
    { rewrite Hcol, filter_app, length_app. cbn [filter]. rewrite String.eqb_refl.
      cbn [length]. eexists. rewrite Nat.add_succ_r. reflexivity. }
    destruct Hcount as [k Hk]. exists k. split; [exact Hk|].
    assert (Hstatements : generateDDLsForAbsentColumn g' currentTable (Column.name column) =
                          (repeat dropConstraint k ++ [dropConstraint; dropColumn])%list).
    { rewrite (generateDDLsForAbsentColumn_mssql g' currentTable column defaultDef)
        by (try assumption; rewrite Hmode'; exact Hmode).
      rewrite Hk. cbn [repeat]. rewrite repeat_cons, <- app_assoc.
      rewrite !(escapeTableName_mode g g' _ Hmode'), !(escapeSQLName_mode g g' _ Hmode').
      reflexivity. }
    split; [exact Hstatements|].
    assert (Hcolumns : cleanupColumns g' currentTable desiredTable =
                       (flat_map absent before ++
                        (repeat dropConstraint k ++ [dropConstraint; dropColumn]) ++
                        flat_map absent after)%list).
    { unfold cleanupColumns. rewrite Hcol, flat_map_app. cbn [flat_map].
      rewrite Habsent, Hstatements. reflexivity. }
    split; [exact Hcolumns|].
    destruct (generateDDLs_cleanup_exact _ _ _ _ _ _ _ _ _ Hwalk Hgen Hin Hfind)
      as [o [pre [post [remaining [Ho [Hpre [Hpost Heq]]]]]]].
    unfold cleanupTable in Ho.
    destruct (cleanupIndexes g' currentTable desiredTable) as [indexes|e]; [|discriminate].
    cbn [bind] in Ho. injection Ho as <-.
    exists indexes, pre, post, remaining. repeat split; try assumption.
    rewrite Heq, Hcolumns. reflexivity.
  - intros Hmode currentTable columnName. unfold generateDDLsForAbsentColumn.
    destruct (Generator.mode g); try reflexivity. contradiction.
Qed.

Lemma dropColumn_after_dropConstraint_witness :
  generateDDLs (rt := asciiRuntime)
    (Fixture.generator GeneratorModeMssql [Fixture.users_default])
    [CreateTable "CREATE TABLE users (id bigint NOT NULL)" Fixture.users_id] =
  Ok ["ALTER TABLE [dbo].[users] DROP CONSTRAINT [df_name]";
      "ALTER TABLE [dbo].[users] DROP COLUMN [name]"] /\
  generateDDLsForAbsentColumn
    (Generator.mk GeneratorModeMssql [Fixture.users_id]
       [mergeTable Fixture.users_default Fixture.users_id] [] [])
    (mergeTable Fixture.users_default Fixture.users_id) "name" =
  ["ALTER TABLE [dbo].[users] DROP CONSTRAINT [df_name]";
   "ALTER TABLE [dbo].[users] DROP COLUMN [name]"].
Proof.
  split; [reflexivity|].
  destruct (proj1 (dropColumn_after_dropConstraint_mssql (rt := asciiRuntime)
                     (Fixture.generator GeneratorModeMssql [Fixture.users_default])) eq_refl
              [CreateTable "CREATE TABLE users (id bigint NOT NULL)" Fixture.users_id]
              (Generator.mk GeneratorModeMssql [Fixture.users_id]
                 [mergeTable Fixture.users_default Fixture.users_id] [] [])
              []
              ["ALTER TABLE [dbo].[users] DROP CONSTRAINT [df_name]";
               "ALTER TABLE [dbo].[users] DROP COLUMN [name]"]
              [] (mergeTable Fixture.users_default Fixture.users_id) [] Fixture.users_id
              [Fixture.id] Fixture.name_with_default [Fixture.id]
              (DefaultDefinition.mk (Some (Fixture.value ValueTypeStr "x")) "df_name")
              eq_refl eq_refl eq_refl eq_refl eq_refl eq_refl eq_refl)
    as [k [Hk [Hstatements _]]].
  - discriminate.
  - intros other [H|[H|[H|[]]]] Hname; subst other; try reflexivity; discriminate Hname.
  - injection Hk as <-. exact Hstatements.
Defined.

(** C5 fails as stated: under MySQL the same diff is the DROP COLUMN alone,
    although the default of the dropped column carries the constraint name
    [df_name]. *)
Lemma dropColumn_alone_mysql :
  generateDDLs (rt := asciiRuntime)
    (Fixture.generator GeneratorModeMysql [Fixture.users_default])
    [CreateTable "CREATE TABLE users (id bigint NOT NULL)" Fixture.users_id] =
  Ok ["ALTER TABLE `users` DROP COLUMN `name`"].
Proof. reflexivity. Qed.

(** ** Policy equality *)

Lemma insertSorted_perm (x : string) (l : list string) :
  Permutation (x :: l) (insertSorted x l).
Proof.
  induction l as [|y rest IH]; cbn [insertSorted]; [reflexivity|].
  destruct (String.leb x y); [reflexivity|].
  rewrite perm_swap. apply perm_skip. exact IH.
Qed.

(** [sortStrings] is a sort: its result is a permutation of the list, in
    ascending byte order. *)
Lemma sortStrings_perm (l : list string) : Permutation l (sortStrings l).
Proof.
  induction l as [|x rest IH]; cbn [sortStrings]; [reflexivity|].
  rewrite <- insertSorted_perm. apply perm_skip. exact IH.
Qed.

Lemma insertSorted_sorted (x : string) (l : list string) :
  Sorted (fun a b => String.leb a b = true) l ->
  Sorted (fun a b => String.leb a b = true) (insertSorted x l).
Proof.
  induction l as [|y rest IH]; intros Hs; cbn [insertSorted].
  - constructor; constructor.
  - destruct (String.leb x y) eqn:Hxy.
    + constructor; [exact Hs | constructor; exact Hxy].
    + inversion Hs as [|? ? Hrest Hhd]; subst. constructor; [apply IH; exact Hrest|].
      destruct rest as [|z rest']; cbn [insertSorted].
      * constructor. destruct (String.leb_total x y) as [H|H]; [congruence | exact H].
      * destruct (String.leb x z).
        -- constructor. destruct (String.leb_total x y) as [H|H]; [congruence | exact H].
        -- inversion Hhd; subst. constructor. assumption.
Qed.

Lemma sortStrings_sorted (l : list string) :
  Sorted (fun a b => String.leb a b = true) (sortStrings l).
Proof.
  induction l as [|x rest IH]; cbn [sortStrings]; [constructor|].
  apply insertSorted_sorted. exact IH.
Qed.

Lemma sortStrings_length (l : list string) : List.length (sortStrings l) = List.length l.
Proof. symmetry. apply Permutation_length. apply sortStrings_perm. Qed.

Section Policies.

Context {rt : GoRuntime}.

Lemma sameRoles_map (rolesA rolesB : list string) :
  List.length rolesA = List.length rolesB ->
  (sameRoles rolesA rolesB = true <-> map ToLower rolesA = map ToLower rolesB).
Proof.
  revert rolesB. induction rolesA as [|a restA IH]; intros [|b restB] Hlen;
    cbn in *; try discriminate.
  - split; reflexivity.
  - injection Hlen as Hlen.
    destruct (String.eqb_spec (ToLower a) (ToLower b)) as [Heq|Hne]; cbn.
    + rewrite (IH _ Hlen), Heq. split; [intros ->; reflexivity | intros H; injection H; auto].
    + split; [discriminate | intros H; injection H; intros; contradiction].
Qed.

(** C4, as the code has it.  A difference in [scope] or [permissive] under
    case folding makes the policies differ.  When all four texts agree
    under case folding, the policies are the same exactly when the role
    lists, each sorted in byte order and then folded element by element,
    are equal.  When [using] (or, [using] agreeing, [withCheck]) differs
    under case folding, the policies can only be the same if the text of
    [policyB] is the text of [policyA] in parentheses. *)
Theorem areSamePolicies_cases (policyA policyB : Policy.t) :
  (ToLower (Policy.scope policyA) <> ToLower (Policy.scope policyB) \/
   ToLower (Policy.permissive policyA) <> ToLower (Policy.permissive policyB) ->
   areSamePolicies policyA policyB = false) /\
  (ToLower (Policy.scope policyA) = ToLower (Policy.scope policyB) ->
   ToLower (Policy.permissive policyA) = ToLower (Policy.permissive policyB) ->
   ToLower (Policy.using_ policyA) = ToLower (Policy.using_ policyB) ->
   ToLower (Policy.withCheck policyA) = ToLower (Policy.withCheck policyB) ->
   (areSamePolicies policyA policyB = true <->
    map ToLower (sortStrings (Policy.roles policyA)) =
    map ToLower (sortStrings (Policy.roles policyB)))) /\
  (ToLower (Policy.using_ policyA) <> ToLower (Policy.using_ policyB) ->
   areSamePolicies policyA policyB = true ->
   Policy.using_ policyB = "(" ++ Policy.using_ policyA ++ ")") /\
  (ToLower (Policy.using_ policyA) = ToLower (Policy.using_ policyB) ->
   ToLower (Policy.withCheck policyA) <> ToLower (Policy.withCheck policyB) ->
   areSamePolicies policyA policyB = true ->
   Policy.withCheck policyB = "(" ++ Policy.withCheck policyA ++ ")").
Proof.
  unfold areSamePolicies.
  destruct (String.eqb_spec (ToLower (Policy.scope policyA)) (ToLower (Policy.scope policyB)))
    as [Hs|Hs]; cbn [negb].
  2:{ repeat split; try reflexivity; try discriminate; intros; contradiction. }
  destruct (String.eqb_spec (ToLower (Policy.permissive policyA))
                            (ToLower (Policy.permissive policyB))) as [Hp|Hp]; cbn [negb].
  2:{ repeat split; try reflexivity; try discriminate; intros; contradiction. }
  destruct (String.eqb_spec (ToLower (Policy.using_ policyA)) (ToLower (Policy.using_ policyB)))
    as [Hu|Hu]; cbn [negb].
  2:{ split; [intros [H|H]; contradiction|]. split; [intros; contradiction|].
      split; [|intros; contradiction].
      intros _ H. apply String.eqb_eq in H. symmetry. exact H. }
  destruct (String.eqb_spec (ToLower (Policy.withCheck policyA))
                            (ToLower (Policy.withCheck policyB))) as [Hw|Hw]; cbn [negb].
  2:{ split; [intros [H|H]; contradiction|]. split; [intros; contradiction|].
      split; [intros; contradiction|].
      intros _ _ H. apply String.eqb_eq in H. symmetry. exact H. }
  split; [intros [H|H]; contradiction|]. split; [|split; intros; contradiction].
  intros _ _ _ _.
  destruct (List.length (Policy.roles policyA) =? List.length (Policy.roles policyB))%nat
    eqn:Hlen; cbn [negb].
  - apply Nat.eqb_eq in Hlen. apply sameRoles_map.
    rewrite !sortStrings_length. exact Hlen.
  - apply Nat.eqb_neq in Hlen. split; [discriminate|]. intros H. exfalso. apply Hlen.
    rewrite <- (sortStrings_length (Policy.roles policyA)).
    rewrite <- (sortStrings_length (Policy.roles policyB)).
    rewrite <- (length_map ToLower (sortStrings (Policy.roles policyA))), H.
    apply length_map.
Qed.

End Policies.

Lemma areSamePolicies_cases_witness :
  areSamePolicies (rt := asciiRuntime) Fixture.policy_roles_ab Fixture.policy_roles_ab = true /\
  areSamePolicies (rt := asciiRuntime) Fixture.policy_roles_ab Fixture.policy_roles_ba = false.
Proof.
  split.
  - apply (proj1 (proj2 (areSamePolicies_cases (rt := asciiRuntime)
                            Fixture.policy_roles_ab Fixture.policy_roles_ab)));
      reflexivity.
  - destruct (areSamePolicies (rt := asciiRuntime) Fixture.policy_roles_ab Fixture.policy_roles_ba)
      eqn:H; [|reflexivity].
    apply (proj1 (proj2 (areSamePolicies_cases (rt := asciiRuntime)
                            Fixture.policy_roles_ab Fixture.policy_roles_ba))) in H;
      try reflexivity.
    discriminate H.
Defined.

(** C4 fails as stated: the [using] texts [tenant = 1] and [(tenant = 1)]
    differ under case folding, and the policies are reported the same. *)
Lemma areSamePolicies_parenthesised_using :
  ToLower (GoRuntime := asciiRuntime) (Policy.using_ Fixture.policy_plain) <>
  ToLower (GoRuntime := asciiRuntime) (Policy.using_ Fixture.policy_parenthesised) /\
  areSamePolicies (rt := asciiRuntime) Fixture.policy_plain Fixture.policy_parenthesised = true.
Proof. split; [discriminate | reflexivity]. Qed.

(** ** Errors of the walk *)

Section Aborts.

Context {rt : GoRuntime}.

Lemma examineForeignKey_named (g : Generator.t) (currentTable desired : Table.t)
    (foreignKey : ForeignKey.t) :
  ForeignKey.constraintName foreignKey <> EmptyString ->
  exists ddls, examineForeignKey g currentTable desired foreignKey = Ok ddls.
Proof.
  intros Hname. unfold examineForeignKey.
  destruct (ForeignKey.constraintName foreignKey) as [|c rest] eqn:Hc; [contradiction|].
  cbn [String.length Nat.eqb].
  destruct (findForeignKeyByName _ _) as [currentForeignKey|]; [|eauto].
  destruct (negb _); eauto.
Qed.

Lemma examineForeignKeys_unnamed (g : Generator.t) (currentTable desired : Table.t) :
  (exists foreignKey, In foreignKey (Table.foreignKeys desired) /\
                      ForeignKey.constraintName foreignKey = EmptyString) ->
  exists foreignKey,
    In foreignKey (Table.foreignKeys desired) /\
    ForeignKey.constraintName foreignKey = EmptyString /\
    examineForeignKeys g currentTable desired =
    Err (MissingConstraintName (Table.name desired) foreignKey).
Proof.
  unfold examineForeignKeys. generalize (Table.foreignKeys desired) as foreignKeys.
  induction foreignKeys as [|fk rest IH]; intros [bad [Hin Hbad]]; [destruct Hin|].
  destruct (String.eqb_spec (ForeignKey.constraintName fk) EmptyString) as [Hfk|Hfk].
  - exists fk. split; [left; reflexivity|]. split; [exact Hfk|].
    cbn [concatMapM]. unfold examineForeignKey at 1. rewrite Hfk. reflexivity.
  - destruct Hin as [Heq|Hin]; [subst bad; contradiction|].
    destruct IH as [fk' [Hin' [Hname' Herr]]]; [exists bad; split; assumption|].
    exists fk'. split; [right; exact Hin'|]. split; [exact Hname'|].
    cbn [concatMapM]. destruct (examineForeignKey_named g currentTable desired fk Hfk) as [o Ho].
    rewrite Ho. cbn [bind]. rewrite Herr. reflexivity.
Qed.

Lemma generateDDLs_walk_error (g : Generator.t) (desiredDDLs : list DDL) (e : Error) :
  examineDDLs g desiredDDLs = Err e -> generateDDLs g desiredDDLs = Err e.
Proof. intros H. unfold generateDDLs. rewrite H. reflexivity. Qed.

Lemma examineDDLs_step_error (g0 g : Generator.t) (pre post : list DDL) (ddl : DDL)
    (walked : list string) (e : Error) :
  examineDDLs g0 pre = Ok (g, walked) ->
  examineDDL g ddl = Err e ->
  generateDDLs g0 (pre ++ ddl :: post) = Err e.
Proof.
  intros Hpre Hddl. apply generateDDLs_walk_error.
  rewrite examineDDLs_app, Hpre, examineDDLs_cons, Hddl. reflexivity.
Qed.

(** C6.  When the walk reaches a CREATE TABLE whose table exists in the
    current schema and has a foreign key without constraint name, the
    examination of the desired foreign keys returns the error that names
    the table, the diff of the table returns an error, and [generateDDLs]
    returns an error instead of a statement list; the error is the one of
    the foreign key when the five phases before its examination raise
    none. *)
Theorem missingConstraintName_aborts (g0 g : Generator.t) (pre post : list DDL)
    (walked : list string) (statement : string) (desired currentTable : Table.t) :
  examineDDLs g0 pre = Ok (g, walked) ->
  findTableByName (Generator.currentTables g) (Table.name desired) = Some currentTable ->
  (exists foreignKey, In foreignKey (Table.foreignKeys desired) /\
                      ForeignKey.constraintName foreignKey = EmptyString) ->
  exists foreignKey,
    In foreignKey (Table.foreignKeys desired) /\
    ForeignKey.constraintName foreignKey = EmptyString /\
    examineForeignKeys g currentTable desired =
    Err (MissingConstraintName (Table.name desired) foreignKey) /\
    (exists e,
       generateDDLsForCreateTable g currentTable desired = Err e /\
       generateDDLs g0 (pre ++ CreateTable statement desired :: post) = Err e) /\
    (isOk (concatMapMi (examineColumn g currentTable desired) 0 (Table.columns desired)) = true ->
     isOk (removeOldAutoIncrement g currentTable desired) = true ->
     isOk (examinePrimaryKey g currentTable desired) = true ->
     isOk (examineIndexes g currentTable desired) = true ->
     isOk (addNewAutoIncrement g currentTable desired) = true ->
     generateDDLs g0 (pre ++ CreateTable statement desired :: post) =
     Err (MissingConstraintName (Table.name desired) foreignKey)).
Proof.
  intros Hpre Hfind Hbad.
  destruct (examineForeignKeys_unnamed g currentTable desired Hbad) as [fk [Hin [Hname Herr]]].
  exists fk. split; [exact Hin|]. split; [exact Hname|]. split; [exact Herr|].
  assert (Hstep : forall e, generateDDLsForCreateTable g currentTable desired = Err e ->
                            generateDDLs g0 (pre ++ CreateTable statement desired :: post) = Err e).
  { intros e He. apply (examineDDLs_step_error g0 g pre post _ walked e Hpre).
    cbn [examineDDL]. rewrite Hfind, He. reflexivity. }
  split.
  - unfold generateDDLsForCreateTable in *. rewrite Herr in *.
    destruct (concatMapMi _ _ _); cbn [bind] in *; [|eauto].
    destruct (removeOldAutoIncrement _ _ _); cbn [bind] in *; [|eauto].
    destruct (examinePrimaryKey _ _ _); cbn [bind] in *; [|eauto].
    destruct (examineIndexes _ _ _); cbn [bind] in *; [|eauto].
    destruct (addNewAutoIncrement _ _ _); cbn [bind] in *; eauto.
  - intros H1 H2 H3 H4 H5. apply Hstep. unfold generateDDLsForCreateTable. rewrite Herr.
    destruct (concatMapMi _ _ _); [|discriminate].
    destruct (removeOldAutoIncrement _ _ _); [|discriminate].
    destruct (examinePrimaryKey _ _ _); [|discriminate].
    destruct (examineIndexes _ _ _); [|discriminate].
    destruct (addNewAutoIncrement _ _ _); [|discriminate].
    reflexivity.
Qed.

End Aborts.

Lemma missingConstraintName_witness :
  generateDDLs (rt := asciiRuntime) (Fixture.generator GeneratorModePostgres [Fixture.posts])
    [CreateTable "CREATE TABLE posts (...)" Fixture.posts_unnamed_fk] =
  Err (MissingConstraintName "posts" (Fixture.foreignKey EmptyString "user_id" "users")).
Proof.
  destruct (missingConstraintName_aborts (rt := asciiRuntime)
              (Fixture.generator GeneratorModePostgres [Fixture.posts])
              (Fixture.generator GeneratorModePostgres [Fixture.posts])
              [] [] [] "CREATE TABLE posts (...)" Fixture.posts_unnamed_fk Fixture.posts
              eq_refl eq_refl)
    as [fk [Hin [Hname [_ [_ Herr]]]]].
  - exists (Fixture.foreignKey EmptyString "user_id" "users").
    split; [right; left; reflexivity | reflexivity].
  - destruct Hin as [H|[H|[]]]; subst fk; [discriminate Hname|].
    apply Herr; reflexivity.
Defined.

(** ** Lookups in an updated list of tables *)

Lemma findByName_name {A : Type} (key : A -> string) (l : list A) (name : string) (x : A) :
  findByName key l name = Some x -> key x = name.
Proof.
  induction l as [|y rest IH]; cbn [findByName]; [discriminate|].
  destruct (String.eqb_spec (key y) name) as [Heq|_]; [|exact IH].
  intros H; injection H as <-. exact Heq.
Qed.

Lemma findByName_app {A : Type} (key : A -> string) (l1 l2 : list A) (name : string) :
  findByName key (l1 ++ l2)%list name =
  match findByName key l1 name with
  | Some x => Some x
  | None => findByName key l2 name
  end.
Proof.
  induction l1 as [|y rest IH]; cbn [app findByName]; [reflexivity|].
  destruct (String.eqb (key y) name); [reflexivity | exact IH].
Qed.

Lemma findTableByName_update (tables : list Table.t) (name lookup : string)
    (f : Table.t -> Table.t) :
  (forall t, Table.name (f t) = Table.name t) ->
  findTableByName (updateTableByName tables name f) lookup =
  match findTableByName tables lookup with
  | Some t => Some (if String.eqb (Table.name t) name then f t else t)
  | None => None
  end.
Proof.
  intros Hf. unfold findTableByName.
  induction tables as [|t rest IH]; cbn [updateTableByName findByName]; [reflexivity|].
  destruct (String.eqb_spec (Table.name t) name) as [Hn|Hn]; cbn [findByName].
  - rewrite Hf. destruct (String.eqb_spec (Table.name t) lookup) as [Hl|Hl].
    + destruct (String.eqb_spec (Table.name t) name); [reflexivity | contradiction].
    + destruct (findByName Table.name rest lookup) as [t'|] eqn:Hfind; [|reflexivity].
      apply findByName_name in Hfind.
      destruct (String.eqb_spec (Table.name t') name); [congruence | reflexivity].
  - destruct (String.eqb_spec (Table.name t) lookup) as [Hl|Hl]; [|exact IH].
    destruct (String.eqb_spec (Table.name t) name); [contradiction | reflexivity].
Qed.

Section Duplicates.

Context {rt : GoRuntime}.

Lemma indexRecorded_update_current (g : Generator.t) (tableName indexName name : string)
    (f : Table.t -> Table.t) :
  (forall t, Table.name (f t) = Table.name t) ->
  indexRecorded g tableName indexName ->
  indexRecorded
    (Generator.set_currentTables (updateTableByName (Generator.currentTables g) name f) g)
    tableName indexName.
Proof.
  intros Hf [[ct Hct] Hdes]. split; [|exact Hdes].
  cbn [Generator.currentTables Generator.set_currentTables].
  rewrite (findTableByName_update _ _ _ _ Hf), Hct. eauto.
Qed.

Lemma indexRecorded_update_desired (g : Generator.t) (tableName indexName name : string)
    (f : Table.t -> Table.t) :
  (forall t, Table.name (f t) = Table.name t) ->
  (forall t, containsString (convertIndexesToIndexNames (Table.indexes t)) indexName = true ->
             containsString (convertIndexesToIndexNames (Table.indexes (f t))) indexName = true) ->
  indexRecorded g tableName indexName ->
  indexRecorded
    (Generator.set_desiredTables (updateTableByName (Generator.desiredTables g) name f) g)
    tableName indexName.
Proof.
  intros Hf Hidx [Hcur [dt [Hdt Hin]]]. split; [exact Hcur|].
  cbn [Generator.desiredTables Generator.set_desiredTables].
  rewrite (findTableByName_update _ _ _ _ Hf), Hdt.
  eexists. split; [reflexivity|].
  destruct (String.eqb (Table.name dt) name); [apply Hidx|]; exact Hin.
Qed.

Lemma containsString_snoc (l : list string) (s str : string) :
  containsString l str = true -> containsString (l ++ [s])%list str = true.
Proof. intros H. rewrite containsString_app, H. reflexivity. Qed.

Lemma generateDDLsForCreateIndex_recorded (g g' : Generator.t) tableName index action statement
    ddls other indexName :
  generateDDLsForCreateIndex g tableName index action statement = Ok (g', ddls) ->
  indexRecorded g other indexName -> indexRecorded g' other indexName.
Proof.
  unfold generateDDLsForCreateIndex. intros H Hrec.
  destruct (findTableByName (Generator.currentTables g) tableName) as [currentTable|];
    [|discriminate].
  assert (Hdone : forall g1 ddls1,
            indexRecorded g1 other indexName ->
            match findTableByName (Generator.desiredTables g1) tableName with
            | Some desiredTable =>
                if containsString (convertIndexesToIndexNames (Table.indexes desiredTable))
                                  (Index.name index)
                then Err (DuplicateIndex (Index.name index) tableName statement)
                else Ok (Generator.set_desiredTables
                           (updateTableByName (Generator.desiredTables g1) tableName
                              (fun t => Table.set_indexes (Table.indexes t ++ [index])%list t)) g1,
                         ddls1)
            | None => Err (BeforeCreateTable action tableName statement)
            end = Ok (g', ddls) ->
            indexRecorded g' other indexName).
  { intros g1 ddls1 Hrec1 H1.
    destruct (findTableByName (Generator.desiredTables g1) tableName); [|discriminate].
    destruct (containsString _ _); [discriminate|]. injection H1 as <- _.
    apply indexRecorded_update_desired; [reflexivity | | exact Hrec1].
    intros tbl Ht. cbn. unfold convertIndexesToIndexNames. rewrite map_app.
    apply containsString_snoc. exact Ht. }
  destruct (findIndexByName (Table.indexes currentTable) (Index.name index)) as [currentIndex|].
  - destruct (negb (areSameIndexes currentIndex index)).
    + refine (Hdone _ _ _ H). apply indexRecorded_update_current; [reflexivity | exact Hrec].
    + exact (Hdone _ _ Hrec H).
  - refine (Hdone _ _ _ H). apply indexRecorded_update_current; [reflexivity | exact Hrec].
Qed.

Lemma examineDDL_recorded (g g' : Generator.t) (ddl : DDL) (ddls : list string)
    (tableName indexName : string) :
  examineDDL g ddl = Ok (g', ddls) ->
  indexRecorded g tableName indexName -> indexRecorded g' tableName indexName.
Proof.
  destruct ddl; cbn [examineDDL]; intros H Hrec.
  - assert (Hdes : forall g1, indexRecorded g1 tableName indexName ->
                     indexRecorded (Generator.set_desiredTables
                                      (Generator.desiredTables g1 ++ [table])%list g1)
                                   tableName indexName).
    { intros g1 [Hcur [dt [Hdt Hin]]]. split; [exact Hcur|].
      cbn [Generator.desiredTables Generator.set_desiredTables].
      unfold findTableByName in *. rewrite findByName_app, Hdt. eauto. }
    destruct (findTableByName (Generator.currentTables g) (Table.name table)) as [currentTable|].
    + destruct (generateDDLsForCreateTable g currentTable table); [|discriminate].
      cbn [bind] in H. injection H as <- _.
      apply (Hdes (Generator.set_currentTables
                     (updateTableByName (Generator.currentTables g) (Table.name table)
                        (fun t => mergeTable t table)) g)).
      apply indexRecorded_update_current; [reflexivity | exact Hrec].
    + cbn [bind] in H. injection H as <- _.
      apply (Hdes (Generator.set_currentTables (Generator.currentTables g ++ [table])%list g)).
      destruct Hrec as [[ct Hct] Hdes']. split; [|exact Hdes'].
      cbn [Generator.currentTables Generator.set_currentTables].
      unfold findTableByName in *. rewrite findByName_app, Hct. eauto.
  - exact (generateDDLsForCreateIndex_recorded _ _ _ _ _ _ _ _ _ H Hrec).
  - exact (generateDDLsForCreateIndex_recorded _ _ _ _ _ _ _ _ _ H Hrec).
  - discriminate.
  - unfold generateDDLsForAddForeignKey in H.
    destruct (findTableByName (Generator.desiredTables g) tableName0); [|discriminate].
    destruct (containsString _ _); [discriminate|]. injection H as <- _.
    apply indexRecorded_update_desired; [reflexivity | intros tbl Ht; exact Ht | exact Hrec].
  - unfold generateDDLsForCreatePolicy in H.
    destruct (findTableByName (Generator.currentTables g) tableName0) as [currentTable|];
      [|discriminate].
    assert (Hdone : forall g1 ddls1,
              indexRecorded g1 tableName indexName ->
              match findTableByName (Generator.desiredTables g1) tableName0 with
              | Some desiredTable =>
                  if containsString (convertPolicyNames (Table.policies desiredTable))
                                    (Policy.name policy)
                  then Err (DuplicatePolicy (Policy.name policy) tableName0 statement)
                  else Ok (Generator.set_desiredTables
                             (updateTableByName (Generator.desiredTables g1) tableName0
                                (fun t => Table.set_policies (Table.policies t ++ [policy])%list t))
                             g1, ddls1)
              | None => Err (BeforeCreateTable "CREATE POLICY" tableName0 statement)
              end = Ok (g', ddls) ->
              indexRecorded g' tableName indexName).
    { intros g1 ddls1 Hrec1 H1.
      destruct (findTableByName (Generator.desiredTables g1) tableName0); [|discriminate].
      destruct (containsString _ _); [discriminate|]. injection H1 as <- _.
      apply indexRecorded_update_desired; [reflexivity | intros tbl Ht; exact Ht | exact Hrec1]. }
    destruct (findPolicyByName (Table.policies currentTable) (Policy.name policy))
      as [currentPolicy|].
    + destruct (negb (areSamePolicies currentPolicy policy)); exact (Hdone _ _ Hrec H).
    + refine (Hdone _ _ _ H). apply indexRecorded_update_current; [reflexivity | exact Hrec].
  - unfold generateDDLsForCreateView in H.
    destruct (containsString _ _); [discriminate|]. injection H as <- _. exact Hrec.
Qed.

Lemma examineDDLs_recorded (desiredDDLs : list DDL) (g g' : Generator.t) (ddls : list string)
    (tableName indexName : string) :
  examineDDLs g desiredDDLs = Ok (g', ddls) ->
  indexRecorded g tableName indexName -> indexRecorded g' tableName indexName.
Proof.
  revert g ddls. induction desiredDDLs as [|ddl rest IH]; intros g ddls.
  - cbn. intros H; injection H as <- _. auto.
  - rewrite examineDDLs_cons.
    destruct (examineDDL g ddl) as [[g1 ddls1]|e] eqn:H1; [|discriminate].
    destruct (examineDDLs g1 rest) as [[g2 ddls2]|e] eqn:H2; [|discriminate].
    intros H Hrec; injection H as <- _.
    exact (IH _ _ H2 (examineDDL_recorded _ _ _ _ _ _ H1 Hrec)).
Qed.

(** A CREATE INDEX that succeeds records its index. *)
Lemma generateDDLsForCreateIndex_records (g g' : Generator.t) tableName index action statement
    ddls :
  generateDDLsForCreateIndex g tableName index action statement = Ok (g', ddls) ->
  indexRecorded g' tableName (Index.name index).
Proof.
  unfold generateDDLsForCreateIndex. intros H.
  destruct (findTableByName (Generator.currentTables g) tableName) as [currentTable|] eqn:Hcur;
    [|discriminate].
  assert (Hdone : forall g1 ddls1,
            (exists ct, findTableByName (Generator.currentTables g1) tableName = Some ct) ->
            match findTableByName (Generator.desiredTables g1) tableName with
            | Some desiredTable =>
                if containsString (convertIndexesToIndexNames (Table.indexes desiredTable))
                                  (Index.name index)
                then Err (DuplicateIndex (Index.name index) tableName statement)
                else Ok (Generator.set_desiredTables
                           (updateTableByName (Generator.desiredTables g1) tableName
                              (fun t => Table.set_indexes (Table.indexes t ++ [index])%list t)) g1,
                         ddls1)
            | None => Err (BeforeCreateTable action tableName statement)
            end = Ok (g', ddls) ->
            indexRecorded g' tableName (Index.name index)).
  { intros g1 ddls1 Hcur1 H1.
    destruct (findTableByName (Generator.desiredTables g1) tableName) as [dt|] eqn:Hdt;
      [|discriminate].
    destruct (containsString _ _); [discriminate|]. injection H1 as <- _.
    split; [exact Hcur1|].
    cbn [Generator.desiredTables Generator.set_desiredTables].
    rewrite findTableByName_update by reflexivity. rewrite Hdt.
    eexists. split; [reflexivity|].
    rewrite (findByName_name _ _ _ _ Hdt), String.eqb_refl. cbn.
    unfold convertIndexesToIndexNames. rewrite map_app, containsString_app. cbn.
    rewrite String.eqb_refl. apply orb_true_r. }
  assert (Hupd : forall f, (forall t, Table.name (f t) = Table.name t) ->
            exists ct, findTableByName
                         (Generator.currentTables
                            (Generator.set_currentTables
                               (updateTableByName (Generator.currentTables g) tableName f) g))
                         tableName = Some ct).
  { intros f Hf. cbn [Generator.currentTables Generator.set_currentTables].
    rewrite (findTableByName_update _ _ _ _ Hf), Hcur. eauto. }
  destruct (findIndexByName (Table.indexes currentTable) (Index.name index)) as [currentIndex|].
  - destruct (negb (areSameIndexes currentIndex index)).
    + refine (Hdone _ _ _ H). apply Hupd. reflexivity.
    + refine (Hdone _ _ _ H). eauto.
  - refine (Hdone _ _ _ H). apply Hupd. reflexivity.
Qed.

(** A CREATE INDEX whose index is recorded is refused. *)
Lemma generateDDLsForCreateIndex_duplicate (g : Generator.t) tableName index action statement :
  indexRecorded g tableName (Index.name index) ->
  generateDDLsForCreateIndex g tableName index action statement =
  Err (DuplicateIndex (Index.name index) tableName statement).
Proof.
  intros [[ct Hct] [dt [Hdt Hin]]]. unfold generateDDLsForCreateIndex. rewrite Hct.
  destruct (findIndexByName (Table.indexes ct) (Index.name index)) as [currentIndex|].
  - destruct (negb (areSameIndexes currentIndex index));
      cbn [Generator.desiredTables Generator.set_currentTables]; rewrite Hdt, Hin; reflexivity.
  - cbn [Generator.desiredTables Generator.set_currentTables]. rewrite Hdt, Hin. reflexivity.
Qed.

Lemma examineDDL_indexStatement (g : Generator.t) (ddl : DDL) (tableName : string)
    (index : Index.t) :
  indexStatement ddl = Some (tableName, index) ->
  exists action,
    examineDDL g ddl = generateDDLsForCreateIndex g tableName index action (Statement ddl).
Proof.
  destruct ddl; cbn; try discriminate; intros H; injection H as <- <-; eauto.
Qed.

(** C7, as the code has it.  When the desired stream holds two CREATE
    INDEX or ADD INDEX statements with one index name against one table,
    [generateDDLs] returns an error and no statement list; when the walk
    reaches the second of them, the error is the one of the doubly created
    index, with the text of that second statement. *)
Theorem duplicateIndex_aborts (g0 : Generator.t) (pre mid post : list DDL) (first second : DDL)
    (tableName : string) (index1 index2 : Index.t) :
  indexStatement first = Some (tableName, index1) ->
  indexStatement second = Some (tableName, index2) ->
  Index.name index1 = Index.name index2 ->
  (exists e, generateDDLs g0 (pre ++ first :: mid ++ second :: post) = Err e) /\
  (forall g walked,
     examineDDLs g0 (pre ++ first :: mid) = Ok (g, walked) ->
     generateDDLs g0 (pre ++ first :: mid ++ second :: post) =
     Err (DuplicateIndex (Index.name index2) tableName (Statement second))).
Proof.
  intros Hfirst Hsecond Hname.
  assert (Hreach : forall g walked,
            examineDDLs g0 (pre ++ first :: mid) = Ok (g, walked) ->
            generateDDLs g0 (pre ++ first :: mid ++ second :: post) =
            Err (DuplicateIndex (Index.name index2) tableName (Statement second))).
  { intros g walked Hwalk.
    replace (pre ++ first :: mid ++ second :: post)%list
      with ((pre ++ first :: mid) ++ second :: post)%list
      by (rewrite <- app_assoc; reflexivity).
    apply (examineDDLs_step_error g0 g _ post _ walked _ Hwalk).
    destruct (examineDDL_indexStatement g second _ _ Hsecond) as [action ->].
    apply generateDDLsForCreateIndex_duplicate.
    rewrite examineDDLs_app in Hwalk.
    destruct (examineDDLs g0 pre) as [[g1 ddls1]|e]; [|discriminate].
    rewrite examineDDLs_cons in Hwalk.
    destruct (examineDDL g1 first) as [[g2 ddls2]|e] eqn:H2; [|discriminate].
    destruct (examineDDLs g2 mid) as [[g3 ddls3]|e] eqn:H3; [|discriminate].
    injection Hwalk as <- _.
    apply (examineDDLs_recorded _ _ _ _ _ _ H3).
    destruct (examineDDL_indexStatement g1 first _ _ Hfirst) as [action' Haction].
    rewrite Haction in H2. rewrite <- Hname.
    exact (generateDDLsForCreateIndex_records _ _ _ _ _ _ _ H2). }
  split; [|exact Hreach].
  destruct (examineDDLs g0 (pre ++ first :: mid)) as [[g walked]|e] eqn:Hwalk.
  - eexists. exact (Hreach _ _ eq_refl).
  - exists e. apply generateDDLs_walk_error.
    replace (pre ++ first :: mid ++ second :: post)%list
      with ((pre ++ first :: mid) ++ second :: post)%list
      by (rewrite <- app_assoc; reflexivity).
    rewrite examineDDLs_app, Hwalk. reflexivity.
Qed.

End Duplicates.

Lemma duplicateIndex_aborts_witness :
  generateDDLs (rt := asciiRuntime) (Fixture.generator GeneratorModeMssql [])
    ([CreateTable "CREATE TABLE users (id bigint NOT NULL, name text)" Fixture.users_id_name] ++
     CreateIndex "CREATE INDEX ix_name ON users (name)" "users" Fixture.index_plain ::
     [] ++
     AddIndex "ALTER TABLE users ADD INDEX ix_name (id)" "users"
       (Fixture.index "ix_name" ["id"] []) :: []) =
  Err (DuplicateIndex "ix_name" "users" "ALTER TABLE users ADD INDEX ix_name (id)").
Proof.
  apply (proj2 (duplicateIndex_aborts (rt := asciiRuntime)
                  (Fixture.generator GeneratorModeMssql [])
                  [CreateTable "CREATE TABLE users (id bigint NOT NULL, name text)"
                     Fixture.users_id_name]
                  [] []
                  (CreateIndex "CREATE INDEX ix_name ON users (name)" "users" Fixture.index_plain)
                  (AddIndex "ALTER TABLE users ADD INDEX ix_name (id)" "users"
                     (Fixture.index "ix_name" ["id"] []))
                  "users" Fixture.index_plain (Fixture.index "ix_name" ["id"] [])
                  eq_refl eq_refl eq_refl)
          (Generator.mk GeneratorModeMssql
             [Table.set_indexes [Fixture.index_plain] Fixture.users_id_name]
             [Table.set_indexes [Fixture.index_plain] Fixture.users_id_name] [] [])
          ["CREATE TABLE users (id bigint NOT NULL, name text)";
           "CREATE INDEX ix_name ON users (name)"]).
  reflexivity.
Defined.

(** C7 fails as stated: two CREATE INDEX statements with one name against
    a table that does not exist are refused with the error of the missing
    table, not with the one of the doubly created index. *)
Lemma duplicateIndex_missing_table :
  generateDDLs (rt := asciiRuntime) (Fixture.generator GeneratorModeMysql [])
    [CreateIndex "CREATE INDEX ix_name ON users (name)" "users" Fixture.index_plain;
     CreateIndex "CREATE INDEX ix_name ON users (name)" "users" Fixture.index_plain] =
  Err (MissingTable "CREATE INDEX" "users" "CREATE INDEX ix_name ON users (name)") /\
  MissingTable "CREATE INDEX" "users" "CREATE INDEX ix_name ON users (name)" <>
  DuplicateIndex "ix_name" "users" "CREATE INDEX ix_name ON users (name)".
Proof. split; [reflexivity | discriminate]. Qed.

(** ** A table compared with itself *)

Lemma noDup_findByName {A : Type} (key : A -> string) (l : list A) (x : A) :
  noDup (map key l) = true -> In x l -> findByName key l (key x) = Some x.
Proof.
  induction l as [|y rest IH]; intros Hnd Hin; [destruct Hin|].
  cbn [map noDup] in Hnd. apply andb_prop in Hnd. destruct Hnd as [Hfresh Hnd].
  cbn [findByName]. destruct Hin as [Heq|Hin].
  - subst y. rewrite String.eqb_refl. reflexivity.
  - destruct (String.eqb_spec (key y) (key x)) as [Hk|_]; [|exact (IH Hnd Hin)].
    exfalso. apply negb_true_iff in Hfresh.
    assert (Hc : containsString (map key rest) (key y) = true).
    { apply containsString_true. rewrite Hk. apply in_map. exact Hin. }
    rewrite Hc in Hfresh. discriminate.
Qed.

Lemma findByName_app_Some {A : Type} (key : A -> string) (l1 l2 : list A) (name : string) (x : A) :
  findByName key l1 name = Some x -> findByName key (l1 ++ l2)%list name = Some x.
Proof. intros H. rewrite findByName_app, H. reflexivity. Qed.

Lemma set_autoIncrement_same (column : Column.t) (b : bool) :
  Column.autoIncrement column = b -> Column.set_autoIncrement b column = column.
Proof. destruct column. cbn. intros ->. reflexivity. Qed.

Lemma areSameValue_refl (value : option Value.t) : areSameValue value value = true.
Proof.
  destruct value as [v|]; [|reflexivity]. unfold areSameValue.
  rewrite Nat.ltb_irrefl, andb_false_r. apply String.eqb_refl.
Qed.

Lemma areSameDefaultValue_refl (defaultDef : option DefaultDefinition.t) :
  areSameDefaultValue defaultDef defaultDef = true.
Proof. unfold areSameDefaultValue. apply areSameValue_refl. Qed.

Lemma areSameCheckDefinition_refl (check : option (Ptr.t CheckDefinition.t)) :
  areSameCheckDefinition check check = true.
Proof. destruct check; [apply String.eqb_refl | reflexivity]. Qed.

Lemma samePointer_refl {A : Type} (p : option (Ptr.t A)) : samePointer p p = true.
Proof. destruct p; [apply Pos.eqb_refl | reflexivity]. Qed.

Lemma haveSameDataType_refl (g : Generator.t) (column : Column.t) :
  haveSameDataType g column column = true.
Proof.
  unfold haveSameDataType. rewrite String.eqb_refl, Bool.eqb_reflx.
  destruct (Column.length column); [rewrite Z.eqb_refl|]; reflexivity.
Qed.

Lemma haveSameColumnDefinition_refl (g : Generator.t) (column : Column.t) :
  wellFormedColumn GeneratorModeMysql column = true ->
  haveSameColumnDefinition g column column = true.
Proof.
  unfold wellFormedColumn, haveSameColumnDefinition. intros H.
  apply andb_prop in H. destruct H as [H _].
  apply andb_prop in H. destruct H as [Hnull Hupdate].
  rewrite haveSameDataType_refl, !Bool.eqb_reflx, samePointer_refl, !String.eqb_refl, Hupdate.
  rewrite !orb_true_r. cbn [andb].
  destruct (ColumnKeyOption_eqb (Column.keyOption column) ColumnKeyPrimary);
    destruct (optionBool (Column.notNull column)); try reflexivity; discriminate.
Qed.

Lemma sameIndexColumns_refl (columns : list IndexColumn.t) : sameIndexColumns columns columns = true.
Proof.
  induction columns as [|c rest IH]; [reflexivity|].
  cbn [sameIndexColumns]. rewrite String.eqb_refl. exact IH.
Qed.

Lemma sameIndexOptions_refl (options : list IndexOption.t) :
  noDup (map IndexOption.optionName options) = true -> sameIndexOptions options options = true.
Proof.
  intros Hnd. apply sameIndexOptions_matched. apply Forall_forall. intros o Ho.
  exists o. split; [|apply areSameValue_refl].
  exact (noDup_findByName IndexOption.optionName options o Hnd Ho).
Qed.

Lemma areSameIndexes_refl (index : Index.t) :
  noDup (map IndexOption.optionName (Index.options index)) = true ->
  areSameIndexes index index = true.
Proof.
  intros Hnd. unfold areSameIndexes.
  rewrite !Bool.eqb_reflx, Nat.eqb_refl, sameIndexColumns_refl, String.eqb_refl.
  cbn [negb]. apply sameIndexOptions_refl. exact Hnd.
Qed.

Lemma areSameForeignKeys_refl (g : Generator.t) (foreignKey : ForeignKey.t) :
  areSameForeignKeys g foreignKey foreignKey = true.
Proof. unfold areSameForeignKeys. rewrite !String.eqb_refl. reflexivity. Qed.

Lemma concatMapM_nil {A : Type} (f : A -> res (list string)) (l : list A) :
  (forall x, In x l -> f x = Ok []) -> concatMapM f l = Ok [].
Proof.
  induction l as [|x rest IH]; intros H; [reflexivity|].
  cbn [concatMapM]. rewrite (H x (or_introl eq_refl)). cbn [bind].
  rewrite IH; [reflexivity|]. intros y Hy. apply H. right. exact Hy.
Qed.

Lemma concatMapMi_nil {A : Type} (f : nat -> A -> res (list string)) (l : list A) (i : nat) :
  (forall j x, In x l -> f j x = Ok []) -> concatMapMi f i l = Ok [].
Proof.
  revert i. induction l as [|x rest IH]; intros i H; [reflexivity|].
  cbn [concatMapMi]. rewrite (H i x (or_introl eq_refl)). cbn [bind].
  rewrite IH; [reflexivity|]. intros j y Hy. apply H. right. exact Hy.
Qed.

Lemma findPrimaryKey_app (indexes extra : list Index.t) :
  Forall (fun index => Index.primary index = false) extra ->
  findPrimaryKey (indexes ++ extra)%list = findPrimaryKey indexes.
Proof.
  intros Hextra. induction indexes as [|i rest IH]; cbn [app findPrimaryKey].
  - induction Hextra as [|i extra Hi _ IH]; [reflexivity|].
    cbn [findPrimaryKey]. rewrite Hi. exact IH.
  - destruct (Index.primary i); [reflexivity | exact IH].
Qed.

Lemma findPrimaryKey_In (indexes : list Index.t) (index : Index.t) :
  findPrimaryKey indexes = Some index -> In index indexes.
Proof.
  induction indexes as [|i rest IH]; cbn [findPrimaryKey]; [discriminate|].
  destruct (Index.primary i); [intros H; injection H as <-; left; reflexivity|].
  intros H. right. exact (IH H).
Qed.

Lemma relocateColumn_id (column : Column.t) : relocateColumn (fun a => a) column = column.
Proof.
  destruct column as [? ? ? ? ? ? ? ? ? ? check ? ? ? ? ? ? ? ? ? ?].
  destruct check as [[a d]|]; reflexivity.
Qed.

Lemma relocateColumn_compose (f1 f2 : positive -> positive) (column : Column.t) :
  relocateColumn f2 (relocateColumn f1 column) = relocateColumn (fun a => f2 (f1 a)) column.
Proof.
  destruct column as [? ? ? ? ? ? ? ? ? ? check ? ? ? ? ? ? ? ? ? ?].
  destruct check as [[a d]|]; reflexivity.
Qed.

Lemma relocateColumn_no_check (relocate : positive -> positive) (column : Column.t) :
  Column.check column = None -> relocateColumn relocate column = column.
Proof. destruct column. unfold relocateColumn. cbn. intros ->. reflexivity. Qed.

Lemma relocateColumn_names (relocate : positive -> positive) (columns : list Column.t) :
  convertColumnsToColumnNames (map (relocateColumn relocate) columns) =
  convertColumnsToColumnNames columns.
Proof. unfold convertColumnsToColumnNames. rewrite map_map. reflexivity. Qed.

Lemma relocateColumn_filter_primary (relocate : positive -> positive) (columns : list Column.t) :
  filter (fun c => ColumnKeyOption_eqb (Column.keyOption c) ColumnKeyPrimary)
         (map (relocateColumn relocate) columns) =
  map (relocateColumn relocate)
      (filter (fun c => ColumnKeyOption_eqb (Column.keyOption c) ColumnKeyPrimary) columns).
Proof.
  induction columns as [|c rest IH]; [reflexivity|]. cbn [map filter].
  change (Column.keyOption (relocateColumn relocate c)) with (Column.keyOption c).
  destruct (ColumnKeyOption_eqb (Column.keyOption c) ColumnKeyPrimary); cbn [map];
    rewrite IH; reflexivity.
Qed.

Lemma areSameCheckDefinition_relocate (relocate : positive -> positive) (column : Column.t) :
  areSameCheckDefinition (Column.check (relocateColumn relocate column)) (Column.check column)
  = true.
Proof.
  unfold relocateColumn. cbn. destruct (Column.check column) as [p|]; [|reflexivity].
  cbn. apply String.eqb_refl.
Qed.

Lemma wellFormedColumn_mysql_check (column : Column.t) :
  wellFormedColumn GeneratorModeMysql column = true -> Column.check column = None.
Proof.
  unfold wellFormedColumn. intros H. apply andb_prop in H. destruct H as [_ H].
  destruct (Column.check column); [discriminate | reflexivity].
Qed.

Section SelfDiff.

Context {rt : GoRuntime}.
Variable g : Generator.t.
Variables table current : Table.t.
Hypothesis Hwf : wellFormedTable (Generator.mode g) table = true.
Hypothesis Hext : extends table current.

Lemma wellFormedTable_parts :
  noDup (convertColumnsToColumnNames (Table.columns table)) = true /\
  noDup (convertIndexesToIndexNames (Table.indexes table)) = true /\
  (forall index, In index (Table.indexes table) ->
                 noDup (map IndexOption.optionName (Index.options index)) = true) /\
  noDup (convertForeignKeysToConstraintNames (Table.foreignKeys table)) = true /\
  (forall foreignKey, In foreignKey (Table.foreignKeys table) ->
                      ForeignKey.constraintName foreignKey <> EmptyString) /\
  (forall column, In column (Table.columns table) ->
                  wellFormedColumn (Generator.mode g) column = true).
Proof.
  pose proof Hwf as H. unfold wellFormedTable in H.
  repeat (apply andb_prop in H; destruct H as [H ?]).
  repeat split; try assumption.
  - intros index Hin. rewrite forallb_forall in *. auto.
  - intros fk Hin Hname. rewrite forallb_forall in *.
    match goal with
    | H : forall x, In x (Table.foreignKeys table) -> _ |- _ => specialize (H fk Hin)
    end.
    rewrite Hname in *. discriminate.
  - intros column Hin. rewrite forallb_forall in *. auto.
Qed.

Lemma self_findColumn (column : Column.t) :
  In column (Table.columns table) ->
  exists relocate,
    findColumnByName (Table.columns current) (Column.name column) =
      Some (relocateColumn relocate column) /\
    findColumnByName (Table.columns table) (Column.name column) = Some column.
Proof.
  intros Hin. pose proof Hext as [_ [[relocate Hcols] _]]. exists relocate. rewrite Hcols.
  destruct wellFormedTable_parts as [Hnd _].
  split; [|exact (noDup_findByName Column.name _ _ Hnd Hin)].
  apply (noDup_findByName Column.name (map (relocateColumn relocate) (Table.columns table))
           (relocateColumn relocate column)).
  - rewrite relocateColumn_names. exact Hnd.
  - apply in_map. exact Hin.
Qed.

Lemma self_changeColumnMysql (i : nat) (column : Column.t) (relocate : positive -> positive) :
  Generator.mode g = GeneratorModeMysql ->
  In column (Table.columns table) ->
  changeColumnMysql g current table i (relocateColumn relocate column) column = Ok [].
Proof.
  intros Hmode Hin. unfold changeColumnMysql.
  destruct wellFormedTable_parts as [_ [_ [_ [_ [_ Hcol]]]]].
  specialize (Hcol column Hin). rewrite Hmode in Hcol.
  rewrite (relocateColumn_no_check relocate column (wellFormedColumn_mysql_check column Hcol)).
  rewrite Z.ltb_irrefl, (haveSameColumnDefinition_refl g column Hcol), areSameDefaultValue_refl.
  cbn [negb andb orb bind].
  destruct (isUnique (Column.keyOption column)); reflexivity.
Qed.

Lemma self_examineCheckPostgres (column : Column.t) (relocate : positive -> positive) :
  examineCheckPostgres g table (relocateColumn relocate column) column = [].
Proof.
  unfold examineCheckPostgres.
  rewrite areSameCheckDefinition_relocate,
    (Bool.eqb_reflx (Column.checkNoInherit column) : Bool.eqb
       (Column.checkNoInherit (relocateColumn relocate column))
       (Column.checkNoInherit column) = true).
  reflexivity.
Qed.

Lemma self_examineCheckMssql (column : Column.t) (relocate : positive -> positive) :
  examineCheckMssql g table (relocateColumn relocate column) column = [].
Proof.
  unfold examineCheckMssql.
  rewrite areSameCheckDefinition_relocate,
    (Bool.eqb_reflx (Column.checkNoInherit column) : Bool.eqb
       (Column.checkNoInherit (relocateColumn relocate column))
       (Column.checkNoInherit column) = true).
  reflexivity.
Qed.

Lemma self_changeColumnPostgres (column : Column.t) (relocate : positive -> positive) :
  changeColumnPostgres g current table (relocateColumn relocate column) column = Ok [].
Proof.
  unfold changeColumnPostgres.
  rewrite (haveSameDataType_refl g column : haveSameDataType g
             (relocateColumn relocate column) column = true),
    (String.eqb_refl (Column.identity column) : String.eqb
       (Column.identity (relocateColumn relocate column)) (Column.identity column) = true),
    (areSameDefaultValue_refl (Column.defaultDef column) : areSameDefaultValue
       (Column.defaultDef (relocateColumn relocate column)) (Column.defaultDef column) = true),
    self_examineCheckPostgres.
  cbn [negb bind].
  destruct (isPrimaryKey (relocateColumn relocate column) current); cbn [negb]; [reflexivity|].
  change (notNull g (relocateColumn relocate column)) with (notNull g column).
  destruct (notNull g column); reflexivity.
Qed.

Lemma self_examineColumn (i : nat) (column : Column.t) :
  In column (Table.columns table) -> examineColumn g current table i column = Ok [].
Proof.
  intros Hin. unfold examineColumn.
  destruct (self_findColumn column Hin) as [relocate [Hfind _]]. rewrite Hfind.
  change (Column.autoIncrement (relocateColumn relocate column))
    with (Column.autoIncrement column).
  assert (Hsame : (if negb (Column.autoIncrement column)
                   then Column.set_autoIncrement false column else column) = column).
  { destruct (Column.autoIncrement column) eqn:Hauto; cbn [negb]; [reflexivity|].
    apply set_autoIncrement_same. exact Hauto. }
  rewrite Hsame.
  case_eq (Generator.mode g); intros Hmode.
  - apply self_changeColumnMysql; assumption.
  - apply self_changeColumnPostgres.
  - reflexivity.
  - rewrite self_examineCheckMssql. reflexivity.
Qed.

Lemma self_removeOldAutoIncrement : removeOldAutoIncrement g current table = Ok [].
Proof.
  unfold removeOldAutoIncrement. case (Generator.mode g); try reflexivity.
  apply concatMapM_nil. intros column' Hin.
  pose proof Hext as [_ [[relocate Hcols] _]]. rewrite Hcols in Hin.
  apply in_map_iff in Hin. destruct Hin as [column [<- Hin]].
  destruct (self_findColumn column Hin) as [_ [_ Hfind]].
  change (Column.name (relocateColumn relocate column)) with (Column.name column).
  change (Column.autoIncrement (relocateColumn relocate column))
    with (Column.autoIncrement column).
  rewrite Hfind.
  destruct (Column.autoIncrement column); reflexivity.
Qed.

Lemma self_addNewAutoIncrement : addNewAutoIncrement g current table = Ok [].
Proof.
  unfold addNewAutoIncrement. case (Generator.mode g); try reflexivity.
  apply concatMapM_nil. intros column Hin.
  destruct (self_findColumn column Hin) as [relocate [Hfind _]]. rewrite Hfind.
  change (Column.autoIncrement (relocateColumn relocate column))
    with (Column.autoIncrement column).
  destruct (Column.autoIncrement column); reflexivity.
Qed.

Lemma self_PrimaryKey : PrimaryKey current = PrimaryKey table.
Proof.
  pose proof Hext as [_ [[relocate Hcols] [[extra [Hidx Hextra]] _]]].
  unfold PrimaryKey. rewrite Hidx, Hcols, (findPrimaryKey_app _ _ Hextra).
  destruct (findPrimaryKey (Table.indexes table)); [reflexivity|].
  rewrite relocateColumn_filter_primary.
  destruct (filter _ (Table.columns table)) as [|column rest]; [reflexivity|].
  cbn [map]. rewrite map_map. reflexivity.
Qed.

Lemma self_examinePrimaryKey : examinePrimaryKey g current table = Ok [].
Proof.
  unfold examinePrimaryKey. rewrite self_PrimaryKey.
  assert (Hsame : areSamePrimaryKeys (PrimaryKey table) (PrimaryKey table) = true).
  { unfold PrimaryKey.
    destruct (findPrimaryKey (Table.indexes table)) as [index|] eqn:Hfind.
    - cbn [areSamePrimaryKeys]. apply areSameIndexes_refl.
      destruct wellFormedTable_parts as [_ [_ [Hopt _]]].
      apply Hopt. exact (findPrimaryKey_In _ _ Hfind).
    - destruct (filter _ (Table.columns table)); [reflexivity|].
      cbn [areSamePrimaryKeys]. apply areSameIndexes_refl. reflexivity. }
  rewrite Hsame. reflexivity.
Qed.

Lemma self_examineIndexes : examineIndexes g current table = Ok [].
Proof.
  unfold examineIndexes. apply concatMapM_nil. intros index Hin.
  destruct (Index.primary index); [reflexivity|].
  destruct wellFormedTable_parts as [_ [Hnd [Hopt _]]].
  destruct Hext as [_ [_ [[extra [Hidx _]] _]]].
  unfold findIndexByName. rewrite Hidx.
  rewrite (findByName_app_Some _ _ _ _ _ (noDup_findByName Index.name _ _ Hnd Hin)).
  rewrite (areSameIndexes_refl index (Hopt index Hin)). reflexivity.
Qed.

Lemma self_examineForeignKeys : examineForeignKeys g current table = Ok [].
Proof.
  unfold examineForeignKeys. apply concatMapM_nil. intros foreignKey Hin.
  destruct wellFormedTable_parts as [_ [_ [_ [Hnd [Hname _]]]]].
  destruct Hext as [_ [_ [_ [[extra Hfks] _]]]].
  unfold examineForeignKey.
  destruct (ForeignKey.constraintName foreignKey) as [|c rest] eqn:Hc;
    [exfalso; exact (Hname foreignKey Hin Hc)|].
  cbn [String.length Nat.eqb]. rewrite <- Hc.
  unfold findForeignKeyByName. rewrite Hfks.
  rewrite (findByName_app_Some _ _ _ _ _
             (noDup_findByName ForeignKey.constraintName _ _ Hnd Hin)).
  rewrite areSameForeignKeys_refl. reflexivity.
Qed.

(** The diff of a well-formed table against a current table that extends it
    is empty. *)
Lemma self_generateDDLsForCreateTable : generateDDLsForCreateTable g current table = Ok [].
Proof.
  unfold generateDDLsForCreateTable.
  rewrite (concatMapMi_nil _ _ _ (fun j x => self_examineColumn j x)).
  rewrite self_removeOldAutoIncrement, self_examinePrimaryKey, self_examineIndexes,
    self_addNewAutoIncrement, self_examineForeignKeys.
  reflexivity.
Qed.

End SelfDiff.

(** ** A schema compared with itself *)

Lemma updateTableByName_names (tables : list Table.t) (name : string) (f : Table.t -> Table.t) :
  (forall t, Table.name (f t) = Table.name t) ->
  map Table.name (updateTableByName tables name f) = map Table.name tables.
Proof.
  intros Hf. induction tables as [|t rest IH]; [reflexivity|].
  cbn [updateTableByName]. destruct (String.eqb (Table.name t) name); cbn [map].
  - rewrite Hf. reflexivity.
  - rewrite IH. reflexivity.
Qed.

Lemma In_updateTableByName (tables : list Table.t) (name : string) (f : Table.t -> Table.t)
    (x : Table.t) :
  In x (updateTableByName tables name f) ->
  In x tables \/ exists y, In y tables /\ x = f y.
Proof.
  induction tables as [|t rest IH]; [intros []|].
  cbn [updateTableByName]. destruct (String.eqb (Table.name t) name).
  - intros [H|H]; [right; exists t; split; [left; reflexivity | symmetry; exact H]|].
    left. right. exact H.
  - intros [H|H]; [left; left; exact H|].
    destruct (IH H) as [Hin|[y [Hy Hx]]]; [left; right; exact Hin|].
    right. exists y. split; [right; exact Hy | exact Hx].
Qed.

Lemma findByName_None {A : Type} (key : A -> string) (l : list A) (name : string) :
  containsString (map key l) name = false -> findByName key l name = None.
Proof.
  induction l as [|x rest IH]; cbn [map containsString findByName]; [reflexivity|].
  destruct (String.eqb (key x) name); [discriminate | exact IH].
Qed.

Lemma findByName_snoc_fresh {A : Type} (key : A -> string) (l : list A) (x : A) :
  containsString (map key l) (key x) = false ->
  findByName key (l ++ [x])%list (key x) = Some x.
Proof.
  intros H. rewrite findByName_app, (findByName_None _ _ _ H).
  cbn [findByName]. rewrite String.eqb_refl. reflexivity.
Qed.

Lemma noDup_snoc (l : list string) (x : string) :
  noDup l = true -> containsString l x = false -> noDup (l ++ [x])%list = true.
Proof.
  induction l as [|y rest IH]; intros Hnd Hx; [reflexivity|].
  cbn [noDup app] in *. apply andb_prop in Hnd. destruct Hnd as [Hy Hnd].
  cbn [containsString] in Hx. destruct (String.eqb_spec y x) as [Heq|Hne]; [discriminate|].
  rewrite (IH Hnd Hx), andb_true_r.
  rewrite containsString_app. apply negb_true_iff in Hy. rewrite Hy. cbn.
  destruct (String.eqb_spec x y); [congruence | reflexivity].
Qed.

Lemma flat_map_nil {A B : Type} (f : A -> list B) (l : list A) :
  (forall x, In x l -> f x = []) -> flat_map f l = [].
Proof.
  induction l as [|x rest IH]; intros H; [reflexivity|].
  cbn [flat_map]. rewrite (H x (or_introl eq_refl)), IH; [reflexivity|].
  intros y Hy. apply H. right. exact Hy.
Qed.

Lemma extends_refl (table : Table.t) : extends table table.
Proof.
  split; [reflexivity|]. split; [|repeat split].
  - exists (fun a => a). rewrite (map_ext _ (fun c => c) relocateColumn_id), map_id. reflexivity.
  - exists []. rewrite app_nil_r. split; [reflexivity | constructor].
  - exists []. rewrite app_nil_r. reflexivity.
  - exists []. rewrite app_nil_r. reflexivity.
Qed.

Lemma extends_trans (t1 t2 t3 : Table.t) : extends t1 t2 -> extends t2 t3 -> extends t1 t3.
Proof.
  intros [Hn1 [[r1 Hc1] [[i1 [Hi1 Hp1]] [[f1 Hf1] [p1 Hp1']]]]]
         [Hn2 [[r2 Hc2] [[i2 [Hi2 Hp2]] [[f2 Hf2] [p2 Hp2']]]]].
  split; [congruence|]. split; [|split; [|split]].
  - exists (fun a => r2 (r1 a)). rewrite Hc2, Hc1, map_map.
    apply map_ext. intros c. apply relocateColumn_compose.
  - exists (i1 ++ i2)%list. split; [rewrite Hi2, Hi1, app_assoc; reflexivity|].
    apply Forall_app. split; assumption.
  - exists (f1 ++ f2)%list. rewrite Hf2, Hf1, app_assoc. reflexivity.
  - exists (p1 ++ p2)%list. rewrite Hp2', Hp1', app_assoc. reflexivity.
Qed.

Lemma covers_refl (table : Table.t) : covers table table.
Proof. repeat split; apply incl_refl. Qed.

Lemma covers_mergeTable (desired current table : Table.t) :
  covers desired current -> covers desired (mergeTable current table).
Proof.
  intros [Hc [Hi [Hf Hp]]]. unfold covers, mergeTable. cbn.
  rewrite mergeColumns_filter, mergeIndexes_filter.
  split; [|split; [|split; assumption]].
  - intros name Hin. unfold convertColumnsToColumnNames in *. rewrite map_app in Hin.
    apply in_app_or in Hin. destruct Hin as [Hin|Hin]; [exact (Hc _ Hin)|].
    apply in_map_iff in Hin. destruct Hin as [c [<- Hin]].
    apply filter_In in Hin. destruct Hin as [_ Hin].
    apply Hc. apply containsString_true. exact Hin.
  - intros name Hin. unfold convertIndexesToIndexNames in *. rewrite map_app in Hin.
    apply in_app_or in Hin. destruct Hin as [Hin|Hin]; [exact (Hi _ Hin)|].
    apply in_map_iff in Hin. destruct Hin as [i [<- Hin]].
    apply filter_In in Hin. destruct Hin as [_ Hin].
    apply Hi. apply containsString_true. exact Hin.
Qed.

Section PolicyReflexivity.

Context {rt : GoRuntime}.

Lemma sameRoles_refl (roles : list string) : sameRoles roles roles = true.
Proof.
  induction roles as [|r rest IH]; [reflexivity|].
  cbn [sameRoles]. rewrite String.eqb_refl. exact IH.
Qed.

Lemma areSamePolicies_refl (policy : Policy.t) : areSamePolicies policy policy = true.
Proof.
  unfold areSamePolicies. rewrite !String.eqb_refl, Nat.eqb_refl. cbn [negb].
  apply sameRoles_refl.
Qed.

End PolicyReflexivity.

Lemma recordDDL_names (tables : list Table.t) (ddl : DDL) :
  map Table.name (recordDDL tables ddl) =
  (map Table.name tables ++
   match ddl with CreateTable _ table => [Table.name table] | _ => [] end)%list.
Proof.
  destruct ddl; cbn [recordDDL]; rewrite ?app_nil_r; try reflexivity;
    try (apply updateTableByName_names; reflexivity).
  rewrite map_app. reflexivity.
Qed.

Lemma wellFormedFrom_table_fresh (mode : GeneratorMode) (rest : list DDL) (tables : list Table.t)
    (views : list string) (statement : string) (table : Table.t) :
  wellFormedFrom mode tables views rest = true ->
  In (CreateTable statement table) rest ->
  containsString (map Table.name tables) (Table.name table) = false.
Proof.
  revert tables views. induction rest as [|ddl rest IH]; intros tables views Hwf Hin;
    [destruct Hin|].
  cbn [wellFormedFrom] in Hwf. apply andb_prop in Hwf. destruct Hwf as [Hadm Hwf].
  destruct Hin as [Heq|Hin].
  - subst ddl. cbn [admissible] in Hadm. apply andb_prop in Hadm. destruct Hadm as [Hfresh _].
    apply negb_true_iff. exact Hfresh.
  - specialize (IH _ _ Hwf Hin). rewrite recordDDL_names, containsString_app in IH.
    apply orb_false_elim in IH. exact (proj1 IH).
Qed.

Lemma recordView_incl (views : list string) (ddl : DDL) (name : string) :
  containsString (recordView views ddl) name = false -> containsString views name = false.
Proof.
  destruct ddl; cbn [recordView]; auto.
  rewrite containsString_app. intros H. apply orb_false_elim in H. exact (proj1 H).
Qed.

Lemma wellFormedFrom_view_fresh (mode : GeneratorMode) (rest : list DDL) (tables : list Table.t)
    (views : list string) (view : View.t) :
  wellFormedFrom mode tables views rest = true ->
  In (CreateView view) rest ->
  containsString views (View.name view) = false.
Proof.
  revert tables views. induction rest as [|ddl rest IH]; intros tables views Hwf Hin;
    [destruct Hin|].
  cbn [wellFormedFrom] in Hwf. apply andb_prop in Hwf. destruct Hwf as [Hadm Hwf].
  destruct Hin as [Heq|Hin].
  - subst ddl. cbn [admissible] in Hadm. apply negb_true_iff. exact Hadm.
  - exact (recordView_incl _ _ _ (IH _ _ Hwf Hin)).
Qed.

Section SelfWalk.

Context {rt : GoRuntime}.

(** The current side stays ready when a table is merged with its own
    definition. *)
Lemma ready_mergeTable (currentTables : list Table.t) (currentViews : list View.t)
    (table : Table.t) (ddl : DDL) :
  (forall statement other, ddl = CreateTable statement other ->
                           Table.name other <> Table.name table) ->
  ready currentTables currentViews ddl ->
  ready (updateTableByName currentTables (Table.name table) (fun t => mergeTable t table))
        currentViews ddl.
Proof.
  intros Hother Hready. destruct ddl; cbn [ready] in *; try exact Hready.
  - destruct Hready as [current [Hfind Hext]]. exists current. split; [|exact Hext].
    rewrite findTableByName_update by reflexivity. rewrite Hfind.
    rewrite (findByName_name _ _ _ _ Hfind).
    destruct (String.eqb_spec (Table.name table0) (Table.name table)) as [Heq|_];
      [exfalso; exact (Hother _ _ eq_refl Heq) | reflexivity].
  - destruct Hready as [current [Hfind Hindex]].
    rewrite findTableByName_update by reflexivity. rewrite Hfind.
    eexists. split; [reflexivity|].
    destruct (String.eqb (Table.name current) (Table.name table)); [|exact Hindex].
    unfold mergeTable. cbn. rewrite mergeIndexes_filter.
    apply findByName_app_Some. exact Hindex.
  - destruct Hready as [current [Hfind Hpolicy]].
    rewrite findTableByName_update by reflexivity. rewrite Hfind.
    eexists. split; [reflexivity|].
    destruct (String.eqb (Table.name current) (Table.name table)); exact Hpolicy.
Qed.

Lemma walkInvariant_step (g : Generator.t) (ddl : DDL) (rest : list DDL) :
  walkInvariant g (ddl :: rest) ->
  exists g', examineDDL g ddl = Ok (g', []) /\ walkInvariant g' rest.
Proof.
  intros [Hwf [Hready [Hcover Hviews]]].
  cbn [wellFormedFrom] in Hwf. apply andb_prop in Hwf. destruct Hwf as [Hadm Hwf].
  assert (Hhead := Hready ddl (or_introl eq_refl)).
  assert (Htail : forall d, In d rest ->
                    ready (Generator.currentTables g) (Generator.currentViews g) d).
  { intros d Hd. apply Hready. right. exact Hd. }
  destruct ddl as [statement table | statement tableName index | statement tableName index
                  | statement tableName index | statement tableName foreignKey
                  | statement tableName policy | view];
    cbn [admissible] in Hadm; try discriminate.
  - (* CREATE TABLE *)
    apply andb_prop in Hadm. destruct Hadm as [Hfresh Htable].
    cbn [ready] in Hhead. destruct Hhead as [current [Hfind Hext]].
    eexists. split.
    + cbn [examineDDL]. rewrite Hfind.
      rewrite (self_generateDDLsForCreateTable g table current Htable Hext). reflexivity.
    + split; [exact Hwf|]. split; [|split; [|exact Hviews]].
      * intros d Hd. cbn [Generator.currentTables Generator.currentViews
                            Generator.set_desiredTables Generator.set_currentTables].
        apply ready_mergeTable; [|exact (Htail d Hd)].
        intros statement' other -> Heq.
        assert (Hf := wellFormedFrom_table_fresh _ _ _ _ _ _ Hwf Hd).
        cbn [recordDDL] in Hf. rewrite map_app, containsString_app in Hf.
        apply orb_false_elim in Hf. destruct Hf as [_ Hf]. cbn in Hf.
        rewrite Heq, String.eqb_refl in Hf. discriminate.
      * intros c Hc. cbn [Generator.currentTables Generator.desiredTables
                            Generator.set_desiredTables Generator.set_currentTables] in *.
        apply In_updateTableByName in Hc. destruct Hc as [Hc|[y [Hy ->]]].
        -- exact (Hcover c Hc).
        -- destruct (Hcover y Hy) as [desired [Hd Hcov]].
           exists desired. split; [exact Hd|]. apply covers_mergeTable. exact Hcov.
  - (* CREATE INDEX *)
    destruct (findTableByName (Generator.desiredTables g) tableName) as [desired|] eqn:Hdes;
      [|discriminate].
    apply andb_prop in Hadm. destruct Hadm as [Hadm Hoptions].
    apply andb_prop in Hadm. destruct Hadm as [Hfresh Hprimary].
    apply negb_true_iff in Hfresh.
    cbn [ready] in Hhead. destruct Hhead as [current [Hfind Hindex]].
    eexists. split.
    + cbn [examineDDL]. unfold generateDDLsForCreateIndex. rewrite Hfind, Hindex.
      rewrite (areSameIndexes_refl index Hoptions). cbn [negb]. rewrite Hdes, Hfresh.
      reflexivity.
    + split; [exact Hwf|]. split; [exact Htail|]. split; [exact Hcover | exact Hviews].
  - (* ADD FOREIGN KEY *)
    destruct (findTableByName (Generator.desiredTables g) tableName) as [desired|] eqn:Hdes;
      [|discriminate].
    apply negb_true_iff in Hadm.
    eexists. split.
    + cbn [examineDDL]. unfold generateDDLsForAddForeignKey. rewrite Hdes, Hadm. reflexivity.
    + split; [exact Hwf|]. split; [exact Htail|]. split; [exact Hcover | exact Hviews].
  - (* ADD POLICY *)
    destruct (findTableByName (Generator.desiredTables g) tableName) as [desired|] eqn:Hdes;
      [|discriminate].
    apply negb_true_iff in Hadm.
    cbn [ready] in Hhead. destruct Hhead as [current [Hfind Hpolicy]].
    eexists. split.
    + cbn [examineDDL]. unfold generateDDLsForCreatePolicy. rewrite Hfind, Hpolicy.
      rewrite areSamePolicies_refl. cbn [negb]. rewrite Hdes, Hadm. reflexivity.
    + split; [exact Hwf|]. split; [exact Htail|]. split; [exact Hcover | exact Hviews].
  - (* CREATE VIEW *)
    apply negb_true_iff in Hadm. cbn [ready] in Hhead.
    eexists. split.
    + cbn [examineDDL]. unfold generateDDLsForCreateView. rewrite Hhead, String.eqb_refl.
      cbn [negb]. rewrite Hadm. reflexivity.
    + split; [|split; [exact Htail|]; split; [exact Hcover|]].
      * cbn [Generator.mode Generator.desiredTables Generator.desiredViews
               Generator.set_desiredViews].
        unfold convertViewNames. rewrite map_app. exact Hwf.
      * cbn [Generator.currentViews Generator.desiredViews Generator.set_desiredViews].
        unfold convertViewNames in *. rewrite map_app. exact Hviews.
Qed.

Lemma walkInvariant_walk (rest : list DDL) (g : Generator.t) :
  walkInvariant g rest ->
  exists g', examineDDLs g rest = Ok (g', []) /\ walkInvariant g' [].
Proof.
  revert g. induction rest as [|ddl rest IH]; intros g Hinv.
  - exists g. split; [reflexivity | exact Hinv].
  - destruct (walkInvariant_step g ddl rest Hinv) as [g1 [Hstep Hinv1]].
    destruct (IH g1 Hinv1) as [g2 [Hwalk Hinv2]].
    exists g2. split; [|exact Hinv2].
    rewrite examineDDLs_cons, Hstep, Hwalk. reflexivity.
Qed.

End SelfWalk.

Section SelfCleanup.

Context {rt : GoRuntime}.

Lemma covers_cleanupTable (g : Generator.t) (current desired : Table.t) :
  covers desired current -> cleanupTable g current desired = Ok [].
Proof.
  intros [Hc [Hi [Hf Hp]]]. unfold cleanupTable.
  assert (Hfks : cleanupForeignKeys g current desired = []).
  { apply flat_map_nil. intros fk Hin.
    assert (H : containsString (convertForeignKeysToConstraintNames (Table.foreignKeys desired))
                               (ForeignKey.constraintName fk) = true).
    { apply containsString_true. apply Hf. apply in_map. exact Hin. }
    rewrite H. reflexivity. }
  assert (Hidx : cleanupIndexes g current desired = Ok []).
  { apply concatMapM_nil. intros index Hin.
    assert (H : containsString (convertIndexesToIndexNames (Table.indexes desired))
                               (Index.name index) = true).
    { apply containsString_true. apply Hi. apply in_map. exact Hin. }
    rewrite H. reflexivity. }
  assert (Hcols : cleanupColumns g current desired = []).
  { apply flat_map_nil. intros column Hin.
    assert (H : containsString (convertColumnsToColumnNames (Table.columns desired))
                               (Column.name column) = true).
    { apply containsString_true. apply Hc. apply in_map. exact Hin. }
    rewrite H. reflexivity. }
  assert (Hpol : cleanupPolicies g current desired = []).
  { apply flat_map_nil. intros policy Hin.
    assert (H : containsString (convertPolicyNames (Table.policies desired))
                               (Policy.name policy) = true).
    { apply containsString_true. apply Hp. apply in_map. exact Hin. }
    rewrite H. reflexivity. }
  rewrite Hfks, Hidx, Hcols, Hpol. reflexivity.
Qed.

Lemma covers_cleanupTables (g : Generator.t) (tables currentTables : list Table.t) :
  (forall current, In current tables ->
     exists desired,
       findTableByName (Generator.desiredTables g) (Table.name current) = Some desired /\
       covers desired current) ->
  cleanupTables g tables currentTables = Ok [].
Proof.
  induction tables as [|current rest IH]; intros H; [reflexivity|].
  cbn [cleanupTables].
  destruct (H current (or_introl eq_refl)) as [desired [Hfind Hcov]].
  rewrite Hfind, (covers_cleanupTable g current desired Hcov). cbn [bind].
  rewrite IH; [reflexivity|]. intros c Hc. apply H. right. exact Hc.
Qed.

Lemma walkInvariant_cleanup (g : Generator.t) :
  walkInvariant g [] ->
  cleanupTables g (Generator.currentTables g) (Generator.currentTables g) = Ok [] /\
  cleanupViews g = [].
Proof.
  intros [_ [_ [Hcover Hviews]]]. split.
  - apply covers_cleanupTables. exact Hcover.
  - apply flat_map_nil. intros view Hin.
    assert (H : containsString (convertViewNames (Generator.desiredViews g)) (View.name view)
                = true).
    { apply containsString_true. apply Hviews. apply in_map. exact Hin. }
    rewrite H. reflexivity.
Qed.

End SelfCleanup.

(** *** The folded schema is ready for the walk *)

Lemma convertDDLsToTables_loop_recordDDLs (mode : GeneratorMode) (ddls : list DDL)
    (tables : list Table.t) (views : list string) :
  wellFormedFrom mode tables views ddls = true ->
  convertDDLsToTables_loop tables ddls = Ok (recordDDLs tables ddls).
Proof.
  revert tables views. induction ddls as [|ddl rest IH]; intros tables views Hwf;
    [reflexivity|].
  cbn [wellFormedFrom] in Hwf. apply andb_prop in Hwf. destruct Hwf as [Hadm Hwf].
  cbn [convertDDLsToTables_loop recordDDLs fold_left].
  destruct ddl; cbn [admissible] in Hadm; try discriminate; cbn [bind recordDDL].
  - exact (IH _ _ Hwf).
  - destruct (findTableByName tables tableName); [|discriminate]. exact (IH _ _ Hwf).
  - destruct (findTableByName tables tableName); [|discriminate]. exact (IH _ _ Hwf).
  - destruct (findTableByName tables tableName); [|discriminate]. exact (IH _ _ Hwf).
  - exact (IH _ _ Hwf).
Qed.

Lemma extends_added (table current : Table.t) (indexes : list Index.t)
    (foreignKeys : list ForeignKey.t) (policies : list Policy.t) :
  Table.name current = Table.name table ->
  Table.columns current = Table.columns table ->
  Table.indexes current = (Table.indexes table ++ indexes)%list ->
  Forall (fun index => Index.primary index = false) indexes ->
  Table.foreignKeys current = (Table.foreignKeys table ++ foreignKeys)%list ->
  Table.policies current = (Table.policies table ++ policies)%list ->
  extends table current.
Proof.
  intros Hn Hc Hi Hp Hf Hpol. split; [exact Hn|]. split; [|repeat split].
  - exists (fun a => a). rewrite Hc, (map_ext _ (fun c => c) relocateColumn_id), map_id.
    reflexivity.
  - exists indexes. split; assumption.
  - exists foreignKeys. exact Hf.
  - exists policies. exact Hpol.
Qed.

Lemma recordDDL_extends (mode : GeneratorMode) (tables : list Table.t) (views : list string)
    (ddl : DDL) (name : string) (table : Table.t) :
  admissible mode tables views ddl = true ->
  findTableByName tables name = Some table ->
  exists table', findTableByName (recordDDL tables ddl) name = Some table' /\
                 extends table table'.
Proof.
  intros Hadm Hfind.
  destruct ddl; cbn [admissible] in Hadm; try discriminate; cbn [recordDDL].
  - exists table. split; [|apply extends_refl].
    unfold findTableByName in *. apply findByName_app_Some. exact Hfind.
  - rewrite findTableByName_update by reflexivity. rewrite Hfind.
    eexists. split; [reflexivity|].
    destruct (String.eqb (Table.name table) tableName); [|apply extends_refl].
    destruct (findTableByName tables tableName); [|discriminate].
    apply andb_prop in Hadm. destruct Hadm as [Hadm _].
    apply andb_prop in Hadm. destruct Hadm as [_ Hprimary].
    apply negb_true_iff in Hprimary.
    apply (extends_added _ _ [index] [] []); cbn; rewrite ?app_nil_r; try reflexivity.
    constructor; [exact Hprimary | constructor].
  - rewrite findTableByName_update by reflexivity. rewrite Hfind.
    eexists. split; [reflexivity|].
    destruct (String.eqb (Table.name table) tableName); [|apply extends_refl].
    apply (extends_added _ _ [] [foreignKey] []); cbn; rewrite ?app_nil_r; try reflexivity.
    constructor.
  - rewrite findTableByName_update by reflexivity. rewrite Hfind.
    eexists. split; [reflexivity|].
    destruct (String.eqb (Table.name table) tableName); [|apply extends_refl].
    apply (extends_added _ _ [] [] [policy]); cbn; rewrite ?app_nil_r; try reflexivity.
    constructor.
  - exists table. split; [exact Hfind | apply extends_refl].
Qed.

Lemma recordDDLs_extends (mode : GeneratorMode) (ddls : list DDL) (tables : list Table.t)
    (views : list string) (name : string) (table : Table.t) :
  wellFormedFrom mode tables views ddls = true ->
  findTableByName tables name = Some table ->
  exists table', findTableByName (recordDDLs tables ddls) name = Some table' /\
                 extends table table'.
Proof.
  revert tables views table. induction ddls as [|ddl rest IH]; intros tables views table Hwf Hfind.
  - exists table. split; [exact Hfind | apply extends_refl].
  - cbn [wellFormedFrom] in Hwf. apply andb_prop in Hwf. destruct Hwf as [Hadm Hwf].
    destruct (recordDDL_extends _ _ _ _ _ _ Hadm Hfind) as [t1 [Hf1 He1]].
    destruct (IH _ _ _ Hwf Hf1) as [t2 [Hf2 He2]].
    exists t2. split; [exact Hf2 | exact (extends_trans _ _ _ He1 He2)].
Qed.

Lemma recordDDLs_ready (mode : GeneratorMode) (ddls : list DDL) (tables : list Table.t)
    (views : list string) (currentViews : list View.t) (ddl : DDL) :
  wellFormedFrom mode tables views ddls = true ->
  In ddl ddls ->
  match ddl with CreateView _ => True | _ => ready (recordDDLs tables ddls) currentViews ddl end.
Proof.
  revert tables views. induction ddls as [|d rest IH]; intros tables views Hwf Hin;
    [destruct Hin|].
  destruct Hin as [Heq|Hin]; [subst d | ].
  2:{ cbn [wellFormedFrom] in Hwf. apply andb_prop in Hwf. destruct Hwf as [_ Hwf].
      exact (IH _ _ Hwf Hin). }
  cbn [wellFormedFrom] in Hwf. apply andb_prop in Hwf. destruct Hwf as [Hadm Hwf].
  cbn [recordDDLs fold_left].
  destruct ddl; cbn [admissible] in Hadm; try discriminate; cbn [ready]; try exact I.
  - apply andb_prop in Hadm. destruct Hadm as [Hfresh _]. apply negb_true_iff in Hfresh.
    apply (recordDDLs_extends _ _ _ _ _ _ Hwf).
    cbn [recordDDL]. exact (findByName_snoc_fresh Table.name tables table Hfresh).
  - destruct (findTableByName tables tableName) as [t|] eqn:Hfind; [|discriminate].
    apply andb_prop in Hadm. destruct Hadm as [Hadm _].
    apply andb_prop in Hadm. destruct Hadm as [Hfresh _]. apply negb_true_iff in Hfresh.
    destruct (recordDDLs_extends mode rest (recordDDL tables (CreateIndex statement tableName index))
                (recordView views (CreateIndex statement tableName index)) tableName
                (Table.set_indexes (Table.indexes t ++ [index])%list t) Hwf)
      as [t' [Hf' [_ [_ [[extra [Hidx _]] _]]]]].
    { cbn [recordDDL]. rewrite findTableByName_update by reflexivity. rewrite Hfind.
      rewrite (findByName_name _ _ _ _ Hfind), String.eqb_refl. reflexivity. }
    exists t'. split; [exact Hf'|]. unfold findIndexByName. rewrite Hidx.
    apply findByName_app_Some. cbn. exact (findByName_snoc_fresh Index.name _ index Hfresh).
  - destruct (findTableByName tables tableName) as [t|] eqn:Hfind; [|discriminate].
    apply negb_true_iff in Hadm.
    destruct (recordDDLs_extends mode rest (recordDDL tables (AddPolicy statement tableName policy))
                (recordView views (AddPolicy statement tableName policy)) tableName
                (Table.set_policies (Table.policies t ++ [policy])%list t) Hwf)
      as [t' [Hf' [_ [_ [_ [_ [extra Hpol]]]]]]].
    { cbn [recordDDL]. rewrite findTableByName_update by reflexivity. rewrite Hfind.
      rewrite (findByName_name _ _ _ _ Hfind), String.eqb_refl. reflexivity. }
    exists t'. split; [exact Hf'|]. unfold findPolicyByName. rewrite Hpol.
    apply findByName_app_Some. cbn. exact (findByName_snoc_fresh Policy.name _ policy Hadm).
Qed.

Lemma convertDDLsToViews_ready (mode : GeneratorMode) (ddls : list DDL) (tables : list Table.t)
    (views : list string) (view : View.t) :
  wellFormedFrom mode tables views ddls = true ->
  In (CreateView view) ddls ->
  findViewByName (convertDDLsToViews ddls) (View.name view) = Some view.
Proof.
  revert tables views. induction ddls as [|d rest IH]; intros tables views Hwf Hin;
    [destruct Hin|].
  cbn [wellFormedFrom] in Hwf. apply andb_prop in Hwf. destruct Hwf as [Hadm Hwf].
  destruct Hin as [Heq|Hin].
  - subst d. cbn. rewrite String.eqb_refl. reflexivity.
  - destruct d; cbn [convertDDLsToViews]; try exact (IH _ _ Hwf Hin).
    unfold findViewByName. cbn [findByName].
    assert (Hf := wellFormedFrom_view_fresh _ _ _ _ _ Hwf Hin).
    cbn [recordView] in Hf. rewrite containsString_app in Hf.
    apply orb_false_elim in Hf. destruct Hf as [_ Hf]. cbn in Hf.
    destruct (String.eqb (View.name view0) (View.name view)); [discriminate|].
    exact (IH _ _ Hwf Hin).
Qed.

Lemma recordDDLs_noDup (mode : GeneratorMode) (ddls : list DDL) (tables : list Table.t)
    (views : list string) :
  wellFormedFrom mode tables views ddls = true ->
  noDup (map Table.name tables) = true ->
  noDup (map Table.name (recordDDLs tables ddls)) = true.
Proof.
  revert tables views. induction ddls as [|ddl rest IH]; intros tables views Hwf Hnd;
    [exact Hnd|].
  cbn [wellFormedFrom] in Hwf. apply andb_prop in Hwf. destruct Hwf as [Hadm Hwf].
  cbn [recordDDLs fold_left]. apply (IH _ _ Hwf). rewrite recordDDL_names.
  destruct ddl; rewrite ?app_nil_r; try exact Hnd.
  cbn [admissible] in Hadm. apply andb_prop in Hadm. destruct Hadm as [Hfresh _].
  apply negb_true_iff in Hfresh. apply noDup_snoc; assumption.
Qed.

Lemma recordView_views (ddls : list DDL) (views : list string) :
  fold_left recordView ddls views = (views ++ convertViewNames (convertDDLsToViews ddls))%list.
Proof.
  revert views. induction ddls as [|ddl rest IH]; intros views; cbn [fold_left].
  - cbn. rewrite app_nil_r. reflexivity.
  - rewrite IH. destruct ddl; cbn [recordView convertDDLsToViews]; try reflexivity.
    cbn. rewrite <- app_assoc. reflexivity.
Qed.

(** *** The schema parsed again *)

Lemma findTableByName_relocate (relocate : positive -> positive) (tables : list Table.t)
    (name : string) :
  findTableByName (map (relocateTable relocate) tables) name =
  match findTableByName tables name with
  | Some table => Some (relocateTable relocate table)
  | None => None
  end.
Proof.
  unfold findTableByName. induction tables as [|t rest IH]; [reflexivity|].
  cbn [map findByName]. change (Table.name (relocateTable relocate t)) with (Table.name t).
  destruct (String.eqb (Table.name t) name); [reflexivity | exact IH].
Qed.

Lemma updateTableByName_relocate (relocate : positive -> positive) (tables : list Table.t)
    (name : string) (f : Table.t -> Table.t) :
  (forall t, f (relocateTable relocate t) = relocateTable relocate (f t)) ->
  updateTableByName (map (relocateTable relocate) tables) name f =
  map (relocateTable relocate) (updateTableByName tables name f).
Proof.
  intros Hf. induction tables as [|t rest IH]; [reflexivity|].
  cbn [map updateTableByName]. change (Table.name (relocateTable relocate t)) with (Table.name t).
  destruct (String.eqb (Table.name t) name); cbn [map]; [rewrite Hf | rewrite IH]; reflexivity.
Qed.

Lemma convertDDLsToTables_loop_parsedAgain (mode : GeneratorMode)
    (relocate : positive -> positive) (ddls : list DDL) (tables : list Table.t)
    (views : list string) :
  wellFormedFrom mode tables views ddls = true ->
  convertDDLsToTables_loop (map (relocateTable relocate) tables) (parsedAgain relocate ddls) =
  Ok (map (relocateTable relocate) (recordDDLs tables ddls)).
Proof.
  revert tables views. induction ddls as [|ddl rest IH]; intros tables views Hwf;
    [reflexivity|].
  cbn [wellFormedFrom] in Hwf. apply andb_prop in Hwf. destruct Hwf as [Hadm Hwf].
  unfold parsedAgain in *. cbn [map convertDDLsToTables_loop].
  destruct ddl; cbn [admissible] in Hadm; try discriminate; cbn [relocateDDL bind].
  - change [relocateTable relocate table] with (map (relocateTable relocate) [table]).
    rewrite <- map_app. exact (IH _ _ Hwf).
  - rewrite findTableByName_relocate.
    destruct (findTableByName tables tableName); [|discriminate]. cbn [bind].
    rewrite updateTableByName_relocate by reflexivity. exact (IH _ _ Hwf).
  - rewrite findTableByName_relocate.
    destruct (findTableByName tables tableName); [|discriminate]. cbn [bind].
    rewrite updateTableByName_relocate by reflexivity. exact (IH _ _ Hwf).
  - rewrite findTableByName_relocate.
    destruct (findTableByName tables tableName); [|discriminate]. cbn [bind].
    rewrite updateTableByName_relocate by reflexivity. exact (IH _ _ Hwf).
  - exact (IH _ _ Hwf).
Qed.

Lemma convertDDLsToViews_parsedAgain (relocate : positive -> positive) (ddls : list DDL) :
  convertDDLsToViews (parsedAgain relocate ddls) = convertDDLsToViews ddls.
Proof.
  unfold parsedAgain. induction ddls as [|ddl rest IH]; [reflexivity|].
  destruct ddl; cbn [map relocateDDL convertDDLsToViews]; rewrite IH; reflexivity.
Qed.

Lemma extends_relocate (relocate : positive -> positive) (table : Table.t) :
  extends table (relocateTable relocate table).
Proof.
  split; [reflexivity|]. split; [exists relocate; reflexivity|]. repeat split.
  - exists []. rewrite app_nil_r. split; [reflexivity | constructor].
  - exists []. rewrite app_nil_r. reflexivity.
  - exists []. rewrite app_nil_r. reflexivity.
Qed.

Lemma ready_relocate (relocate : positive -> positive) (tables : list Table.t)
    (views : list View.t) (ddl : DDL) :
  ready tables views ddl -> ready (map (relocateTable relocate) tables) views ddl.
Proof.
  destruct ddl; cbn [ready]; try (intros H; exact H).
  - intros [current [Hfind Hext]]. exists (relocateTable relocate current).
    rewrite findTableByName_relocate, Hfind. split; [reflexivity|].
    exact (extends_trans _ _ _ Hext (extends_relocate relocate current)).
  - intros [current [Hfind Hindex]]. exists (relocateTable relocate current).
    rewrite findTableByName_relocate, Hfind. split; [reflexivity | exact Hindex].
  - intros [current [Hfind Hpolicy]]. exists (relocateTable relocate current).
    rewrite findTableByName_relocate, Hfind. split; [reflexivity | exact Hpolicy].
Qed.

Lemma covers_relocate (relocate : positive -> positive) (table : Table.t) :
  covers table (relocateTable relocate table).
Proof.
  unfold covers. cbn [relocateTable Table.set_columns Table.columns Table.indexes
                      Table.foreignKeys Table.policies].
  rewrite relocateColumn_names. repeat split; apply incl_refl.
Qed.

Section Identity.

Context {rt : GoRuntime}.

Lemma wellFormed_walkInvariant (mode : GeneratorMode) (relocate : positive -> positive)
    (ddls : list DDL) :
  wellFormed mode ddls = true ->
  walkInvariant
    (Generator.mk mode [] (map (relocateTable relocate) (recordDDLs [] ddls)) []
                  (convertDDLsToViews ddls)) ddls.
Proof.
  intros Hwf. unfold wellFormed in Hwf. split; [exact Hwf|]. split; [|split].
  - intros ddl Hin. cbn [Generator.currentTables Generator.currentViews].
    assert (H := recordDDLs_ready mode ddls [] [] (convertDDLsToViews ddls) ddl Hwf Hin).
    destruct ddl; try (apply ready_relocate; exact H).
    cbn [ready]. exact (convertDDLsToViews_ready _ _ _ _ _ Hwf Hin).
  - intros current Hin. cbn [Generator.currentTables Generator.desiredTables] in *.
    apply in_map_iff in Hin. destruct Hin as [table [<- Hin]].
    exists table. split; [|apply covers_relocate].
    change (Table.name (relocateTable relocate table)) with (Table.name table).
    apply (noDup_findByName Table.name); [|exact Hin].
    exact (recordDDLs_noDup _ _ _ _ Hwf eq_refl).
  - cbn [Generator.currentViews Generator.desiredViews]. rewrite recordView_views.
    apply incl_refl.
Qed.

(** The diff of a well-formed schema against the same schema, parsed
    again, is empty. *)
Lemma wellFormed_diff (mode : GeneratorMode) (relocate : positive -> positive)
    (ddls : list DDL) :
  wellFormed mode ddls = true -> diff mode ddls (parsedAgain relocate ddls) = Ok [].
Proof.
  intros Hwf. unfold diff, convertDDLsToTables.
  rewrite (convertDDLsToTables_loop_parsedAgain mode relocate ddls [] [] Hwf
           : convertDDLsToTables_loop [] (parsedAgain relocate ddls) = _).
  cbn [bind]. rewrite convertDDLsToViews_parsedAgain.
  destruct (walkInvariant_walk ddls _ (wellFormed_walkInvariant mode relocate ddls Hwf))
    as [g' [Hwalk Hinv]].
  unfold generateDDLs. rewrite Hwalk. cbn [bind].
  destruct (walkInvariant_cleanup g' Hinv) as [Htables Hviews].
  rewrite Htables, Hviews. reflexivity.
Qed.

End Identity.

(** C1, as the code has it.  [GenerateIdempotentDDLs] parses the desired
    text and the current text separately, so the diff of a schema with
    itself compares two parses of one text: [ddls] and [ddls] with every
    CHECK at another address, whatever the addresses are.  For every
    dialect that diff is the empty statement list when the schema is
    well-formed: the statements are CREATE TABLE, CREATE INDEX, ADD FOREIGN
    KEY, ADD POLICY and CREATE VIEW; each table and view is created once;
    an index, foreign key or policy is added to a table created before,
    under a name new to that table, and an added index is not primary; in a
    CREATE TABLE the column, index and constraint names are unique, the
    option names of an index are unique and every foreign key has a
    constraint name; under MySQL a primary key column says NOT NULL, no ON
    UPDATE value is a NaN and no column has a CHECK.  Each condition is
    needed: the lemmas that follow give, for each, a schema that breaks it
    and whose diff with itself is an error or a statement. *)
Theorem diff_identity_wellFormed {rt : GoRuntime} (mode : GeneratorMode) (ddls : list DDL)
    (relocate : positive -> positive) :
  wellFormed mode ddls = true -> diff mode ddls (parsedAgain relocate ddls) = Ok [].
Proof. apply wellFormed_diff. Qed.

Lemma diff_identity_witness :
  (wellFormed GeneratorModeMysql Fixture.schema = true /\
   diff (rt := asciiRuntime) GeneratorModeMysql Fixture.schema
     (parsedAgain (fun a => Pos.succ a) Fixture.schema) = Ok []) /\
  (wellFormed GeneratorModePostgres FixtureMore.schema_check = true /\
   parsedAgain (fun a => Pos.succ a) FixtureMore.schema_check <> FixtureMore.schema_check /\
   diff (rt := asciiRuntime) GeneratorModePostgres FixtureMore.schema_check
     (parsedAgain (fun a => Pos.succ a) FixtureMore.schema_check) = Ok []).
Proof.
  split; (split; [reflexivity|]).
  - apply (diff_identity_wellFormed (rt := asciiRuntime) GeneratorModeMysql Fixture.schema).
    reflexivity.
  - split; [discriminate|].
    apply (diff_identity_wellFormed (rt := asciiRuntime) GeneratorModePostgres
             FixtureMore.schema_check).
    reflexivity.
Defined.

(** C1 fails as stated: a CREATE TABLE with a foreign key that has no
    constraint name is a schema whose diff against itself is an error, not
    the empty list. *)
Lemma diff_identity_unnamed_foreignKey :
  diff (rt := asciiRuntime) GeneratorModePostgres
    [CreateTable "CREATE TABLE posts (...)" Fixture.posts_unnamed_fk]
    [CreateTable "CREATE TABLE posts (...)" Fixture.posts_unnamed_fk] =
  Err (MissingConstraintName "posts" (Fixture.foreignKey EmptyString "user_id" "users")) /\
  diff (rt := asciiRuntime) GeneratorModePostgres
    [CreateTable "CREATE TABLE posts (...)" Fixture.posts_unnamed_fk]
    [CreateTable "CREATE TABLE posts (...)" Fixture.posts_unnamed_fk] <> Ok [].
Proof. split; [reflexivity | discriminate]. Qed.

(** Nor is the diff empty, under MySQL, for a primary key column that does
    not say NOT NULL: the current side is compared as nullable, the desired
    side as NOT NULL. *)
Lemma diff_identity_mysql_primary_key :
  diff (rt := asciiRuntime) GeneratorModeMysql
    [CreateTable "CREATE TABLE users (id bigint PRIMARY KEY)" Fixture.users_primary_key]
    [CreateTable "CREATE TABLE users (id bigint PRIMARY KEY)" Fixture.users_primary_key] =
  Ok ["ALTER TABLE `users` CHANGE COLUMN `id` `id` bigint NOT NULL"].
Proof. reflexivity. Qed.

(** Nor, under MySQL, for a column with a CHECK: the second parse holds
    the CHECK at another address.  With the same schema the diff is empty
    under PostgreSQL, which compares the definitions. *)
Lemma diff_identity_mysql_check :
  wellFormed GeneratorModeMysql FixtureMore.schema_check = false /\
  diff (rt := asciiRuntime) GeneratorModeMysql FixtureMore.schema_check
    (parsedAgain (fun a => Pos.succ a) FixtureMore.schema_check) =
  Ok ["ALTER TABLE `users` CHANGE COLUMN `id` `id` bigint NOT NULL CHECK (id > 0)"] /\
  diff (rt := asciiRuntime) GeneratorModePostgres FixtureMore.schema_check
    (parsedAgain (fun a => Pos.succ a) FixtureMore.schema_check) = Ok [].
Proof. repeat split. Qed.

(** Nor, under MySQL, for an ON UPDATE value whose float is a NaN, which
    [reflect.DeepEqual] tells apart from its second parse. *)
Lemma diff_identity_mysql_on_update_nan :
  wellFormed GeneratorModeMysql FixtureMore.schema_on_update_nan = false /\
  diff (rt := asciiRuntime) GeneratorModeMysql FixtureMore.schema_on_update_nan
    FixtureMore.schema_on_update_nan =
  Ok ["ALTER TABLE `users` CHANGE COLUMN `t` `t` datetime ON UPDATE nan"].
Proof. repeat split. Qed.

(** Nor for a table created twice: the two CREATE TABLE are both compared
    with the merged current table. *)
Lemma diff_identity_table_twice :
  wellFormed GeneratorModeMysql FixtureMore.schema_table_twice = false /\
  diff (rt := asciiRuntime) GeneratorModeMysql FixtureMore.schema_table_twice
    FixtureMore.schema_table_twice =
  Ok ["ALTER TABLE `users` ADD COLUMN `name` text AFTER `id`";
      "ALTER TABLE `users` DROP COLUMN `name`"].
Proof. repeat split. Qed.

(** A view created twice is an error. *)
Lemma diff_identity_view_twice :
  wellFormed GeneratorModePostgres
    [CreateView FixtureMore.view_v; CreateView FixtureMore.view_v] = false /\
  diff (rt := asciiRuntime) GeneratorModePostgres
    [CreateView FixtureMore.view_v; CreateView FixtureMore.view_v]
    [CreateView FixtureMore.view_v; CreateView FixtureMore.view_v] =
  Err (Errorf "view 'v' is doubly created: 'CREATE VIEW v AS select 1'").
Proof. repeat split. Qed.

(** An index, a foreign key or a policy added to a table that no statement
    before it created is an error. *)
Lemma diff_identity_before_create_table :
  (wellFormed GeneratorModePostgres [FixtureMore.create_index] = false /\
   diff (rt := asciiRuntime) GeneratorModePostgres
     [FixtureMore.create_index] [FixtureMore.create_index] =
   Err (Errorf ("CREATE INDEX is performed before CREATE TABLE: " ++
                "CREATE INDEX ix_name ON users (name)"))) /\
  (wellFormed GeneratorModePostgres [FixtureMore.add_foreignKey] = false /\
   diff (rt := asciiRuntime) GeneratorModePostgres
     [FixtureMore.add_foreignKey] [FixtureMore.add_foreignKey] =
   Err (Errorf ("ADD FOREIGN KEY is performed before CREATE TABLE: " ++
                "ALTER TABLE posts ADD CONSTRAINT posts_ibfk_2 ..."))) /\
  (wellFormed GeneratorModePostgres [FixtureMore.add_policy] = false /\
   diff (rt := asciiRuntime) GeneratorModePostgres
     [FixtureMore.add_policy] [FixtureMore.add_policy] =
   Err (Errorf ("ADD POLICY performed before CREATE TABLE: " ++
                "CREATE POLICY p_users ON users ..."))).
Proof. repeat split. Qed.

(** An index, a foreign key or a policy added twice to its table is an
    error. *)
Lemma diff_identity_added_twice :
  (wellFormed GeneratorModePostgres
     [FixtureMore.create_users; FixtureMore.create_index; FixtureMore.create_index] = false /\
   diff (rt := asciiRuntime) GeneratorModePostgres
     [FixtureMore.create_users; FixtureMore.create_index; FixtureMore.create_index]
     [FixtureMore.create_users; FixtureMore.create_index; FixtureMore.create_index] =
   Err (Errorf ("index 'ix_name' is doubly created against table 'users': " ++
                "'CREATE INDEX ix_name ON users (name)'"))) /\
  (wellFormed GeneratorModePostgres
     [FixtureMore.create_posts; FixtureMore.add_foreignKey; FixtureMore.add_foreignKey] =
   false /\
   diff (rt := asciiRuntime) GeneratorModePostgres
     [FixtureMore.create_posts; FixtureMore.add_foreignKey; FixtureMore.add_foreignKey]
     [FixtureMore.create_posts; FixtureMore.add_foreignKey; FixtureMore.add_foreignKey] =
   Err (Errorf ("index 'posts_ibfk_2' is doubly created against table 'posts': " ++
                "'ALTER TABLE posts ADD CONSTRAINT posts_ibfk_2 ...'"))) /\
  (wellFormed GeneratorModePostgres
     [FixtureMore.create_users; FixtureMore.add_policy; FixtureMore.add_policy] = false /\
   diff (rt := asciiRuntime) GeneratorModePostgres
     [FixtureMore.create_users; FixtureMore.add_policy; FixtureMore.add_policy]
     [FixtureMore.create_users; FixtureMore.add_policy; FixtureMore.add_policy] =
   Err (Errorf ("policy 'p_users' is doubly created against table 'users': " ++
                "'CREATE POLICY p_users ON users ...'"))).
Proof. repeat split. Qed.

(** A primary index added by a CREATE INDEX is dropped by the walk of the
    CREATE TABLE, whose own table has no primary key. *)
Lemma diff_identity_added_primary_index :
  wellFormed GeneratorModeMysql
    [FixtureMore.create_users; CreateIndex "CREATE INDEX ..." "users" FixtureMore.index_primary] =
  false /\
  diff (rt := asciiRuntime) GeneratorModeMysql
    [FixtureMore.create_users; CreateIndex "CREATE INDEX ..." "users" FixtureMore.index_primary]
    [FixtureMore.create_users; CreateIndex "CREATE INDEX ..." "users" FixtureMore.index_primary] =
  Ok ["ALTER TABLE `users` DROP PRIMARY KEY"].
Proof. repeat split. Qed.

(** An index with two options of one name differs from itself, added by a
    CREATE INDEX or declared in the CREATE TABLE: the options of the current
    index are looked up by name. *)
Lemma diff_identity_duplicate_options :
  (wellFormed GeneratorModeMysql
     [FixtureMore.create_users;
      CreateIndex "CREATE INDEX ix_name ON users (name) WITH (...)" "users"
        FixtureMore.index_two_fillfactors] = false /\
   diff (rt := asciiRuntime) GeneratorModeMysql
     [FixtureMore.create_users;
      CreateIndex "CREATE INDEX ix_name ON users (name) WITH (...)" "users"
        FixtureMore.index_two_fillfactors]
     [FixtureMore.create_users;
      CreateIndex "CREATE INDEX ix_name ON users (name) WITH (...)" "users"
        FixtureMore.index_two_fillfactors] =
   Ok ["ALTER TABLE `users` DROP INDEX `ix_name`";
       "CREATE INDEX ix_name ON users (name) WITH (...)"]) /\
  (wellFormed GeneratorModeMssql
     [CreateTable "CREATE TABLE users (...)" FixtureMore.users_two_fillfactors] = false /\
   diff (rt := asciiRuntime) GeneratorModeMssql
     [CreateTable "CREATE TABLE users (...)" FixtureMore.users_two_fillfactors]
     [CreateTable "CREATE TABLE users (...)" FixtureMore.users_two_fillfactors] =
   Ok ["DROP INDEX [ix_name] ON [dbo].[users]";
       ("CREATE NONCLUSTERED INDEX [ix_name] ON [dbo].[users] ([name]) " ++
        "WITH (FILLFACTOR = 10, FILLFACTOR = 20)")%string]).
Proof. repeat split. Qed.

(** Two columns of one name in a CREATE TABLE: the second is compared with
    the first. *)
Lemma diff_identity_duplicate_columns :
  wellFormed GeneratorModeMysql
    [CreateTable "CREATE TABLE users (id bigint NOT NULL, id text)" FixtureMore.users_two_id] =
  false /\
  diff (rt := asciiRuntime) GeneratorModeMysql
    [CreateTable "CREATE TABLE users (id bigint NOT NULL, id text)" FixtureMore.users_two_id]
    [CreateTable "CREATE TABLE users (id bigint NOT NULL, id text)" FixtureMore.users_two_id] =
  Ok ["ALTER TABLE `users` CHANGE COLUMN `id` `id` text"].
Proof. repeat split. Qed.

(** Two indexes of one name in a CREATE TABLE: the second is compared with
    the first. *)
Lemma diff_identity_duplicate_indexes :
  wellFormed GeneratorModeMysql
    [CreateTable "CREATE TABLE users (...)" FixtureMore.users_two_ix] = false /\
  diff (rt := asciiRuntime) GeneratorModeMysql
    [CreateTable "CREATE TABLE users (...)" FixtureMore.users_two_ix]
    [CreateTable "CREATE TABLE users (...)" FixtureMore.users_two_ix] =
  Ok ["ALTER TABLE `users` DROP INDEX `ix`"; "ALTER TABLE `users` ADD INDEX `ix` (`id`)"].
Proof. repeat split. Qed.

(** Two foreign keys of one constraint name in a CREATE TABLE: the second
    is compared with the first. *)
Lemma diff_identity_duplicate_foreignKeys :
  wellFormed GeneratorModeMysql
    [CreateTable "CREATE TABLE posts (...)" FixtureMore.posts_two_fk] = false /\
  diff (rt := asciiRuntime) GeneratorModeMysql
    [CreateTable "CREATE TABLE posts (...)" FixtureMore.posts_two_fk]
    [CreateTable "CREATE TABLE posts (...)" FixtureMore.posts_two_fk] =
  Ok ["ALTER TABLE `posts` DROP FOREIGN KEY `posts_ibfk_1`";
      ("ALTER TABLE `posts` ADD CONSTRAINT `posts_ibfk_1` FOREIGN KEY (`user_id`) " ++
       "REFERENCES `users` (`id`) ON DELETE SET NULL ON UPDATE CASCADE")%string].
Proof. repeat split. Qed.

(** An ALTER TABLE that adds an index or a primary key is an error: the
    schema folder has no case for the first, the walk none for the second. *)
Lemma diff_identity_alter_add_index :
  (wellFormed GeneratorModeMysql
     [FixtureMore.create_users;
      AddIndex "ALTER TABLE users ADD INDEX ix_name (name)" "users" Fixture.index_plain] =
   false /\
   diff (rt := asciiRuntime) GeneratorModeMysql
     [FixtureMore.create_users;
      AddIndex "ALTER TABLE users ADD INDEX ix_name (name)" "users" Fixture.index_plain]
     [FixtureMore.create_users;
      AddIndex "ALTER TABLE users ADD INDEX ix_name (name)" "users" Fixture.index_plain] =
   Err (UnexpectedDDL
          (AddIndex "ALTER TABLE users ADD INDEX ix_name (name)" "users" Fixture.index_plain))) /\
  (wellFormed GeneratorModeMysql
     [FixtureMore.create_users;
      AddPrimaryKey "ALTER TABLE users ADD PRIMARY KEY (id)" "users" FixtureMore.index_primary] =
   false /\
   diff (rt := asciiRuntime) GeneratorModeMysql
     [FixtureMore.create_users;
      AddPrimaryKey "ALTER TABLE users ADD PRIMARY KEY (id)" "users" FixtureMore.index_primary]
     [FixtureMore.create_users;
      AddPrimaryKey "ALTER TABLE users ADD PRIMARY KEY (id)" "users" FixtureMore.index_primary] =
   Err (UnexpectedDDL
          (AddPrimaryKey "ALTER TABLE users ADD PRIMARY KEY (id)" "users"
             FixtureMore.index_primary))).
Proof. repeat split. Qed.

(** ** Scenarios of the specification *)

(** Scenario (b): a column added under MSSQL. *)
Example scenario_add_column :
  diff (rt := asciiRuntime) GeneratorModeMssql
    [CreateTable "CREATE TABLE users (id BIGINT NOT NULL PRIMARY KEY, name varchar(40))"
       (Table.mk "users" [Fixture.id; Fixture.name_varchar] [] [] [])]
    [CreateTable "CREATE TABLE users (id BIGINT NOT NULL PRIMARY KEY)" Fixture.users_id] =
  Ok ["ALTER TABLE [dbo].[users] ADD [name] varchar(40)"].
Proof. reflexivity. Qed.

(** Scenario (c): a view dropped with its table under MSSQL. *)
Example scenario_drop_view :
  diff (rt := asciiRuntime) GeneratorModeMssql []
    [CreateTable "CREATE TABLE [dbo].[users] (...)"
       (Table.mk "dbo.users" [Fixture.id] [] [] []);
     CreateView (View.mk "CREATE VIEW [dbo].[view_users] AS ..." "dbo.view_users" "select 1")] =
  Ok ["DROP TABLE [dbo].[users]"; "DROP VIEW [dbo].[view_users]"].
Proof. reflexivity. Qed.

(** Scenario (d): ON DELETE and ON UPDATE of a foreign key changed under
    MSSQL. *)
Example scenario_foreign_key :
  diff (rt := asciiRuntime) GeneratorModeMssql
    [CreateTable "CREATE TABLE posts (...)" Fixture.posts_fk_cascade]
    [CreateTable "CREATE TABLE posts (...)" Fixture.posts_fk] =
  Ok ["ALTER TABLE [dbo].[posts] DROP CONSTRAINT [posts_ibfk_1]";
      "ALTER TABLE [dbo].[posts] ADD CONSTRAINT [posts_ibfk_1] FOREIGN KEY ([user_id]) REFERENCES [users] ([id]) ON DELETE SET NULL ON UPDATE CASCADE"].
Proof. reflexivity. Qed.

(** A primary key column that says NOT NULL and has an identity is rendered
    without NOT NULL. *)
Example scenario_identity_column :
  Column.notNull Fixture.identity_id = Some true /\
  Column.keyOption Fixture.identity_id = ColumnKeyPrimary /\
  generateColumnDefinition (rt := asciiRuntime) (Fixture.generator GeneratorModeMysql [])
    Fixture.identity_id true =
  Ok "`id` bigint GENERATED ALWAYS AS IDENTITY".
Proof. repeat split. Qed.

(** * Further properties of the generator *)

(** ** Lookups *)

(** X1.  Every [find...ByName] returns the first element that carries the
    name, and [nil] exactly when no element carries it. *)
Theorem findByName_first {A : Type} (key : A -> string) (l : list A) (name : string) :
  match findByName key l name with
  | Some x =>
      exists pre post,
        l = (pre ++ x :: post)%list /\ key x = name /\ Forall (fun y => key y <> name) pre
  | None => Forall (fun y => key y <> name) l
  end.
Proof.
  induction l as [|y rest IH]; cbn [findByName]; [constructor|].
  destruct (String.eqb_spec (key y) name) as [Heq|Hne].
  - exists [], rest. repeat split; [exact Heq | constructor].
  - destruct (findByName key rest name) as [x|].
    + destruct IH as [pre [post [Hl [Hk Hpre]]]].
      exists (y :: pre), post. rewrite Hl. repeat split; [exact Hk|].
      constructor; assumption.
    + constructor; assumption.
Qed.

Lemma removeTableByName_loop_filter (tables : list Table.t) (name : string) :
  removeTableByName_loop tables name =
  (containsString (map Table.name tables) name,
   filter (fun t => negb (String.eqb name (Table.name t))) tables).
Proof.
  induction tables as [|t rest IH]; [reflexivity|].
  cbn [removeTableByName_loop map containsString filter]. rewrite IH.
  rewrite (String.eqb_sym name (Table.name t)).
  destruct (String.eqb (Table.name t) name); reflexivity.
Qed.

(** X2.  [removeTableByName] removes every table of that name and keeps the
    others in their order; it ends the process exactly when no table has
    the name. *)
Theorem removeTableByName_filter (tables : list Table.t) (name : string) :
  removeTableByName tables name =
  if containsString (map Table.name tables) name
  then Some (filter (fun t => negb (String.eqb name (Table.name t))) tables)
  else None.
Proof. unfold removeTableByName. rewrite removeTableByName_loop_filter. reflexivity. Qed.

(** X3.  The index names that [convertForeignKeysToIndexNames] collects are
    the non-empty index names of the foreign keys and, for a foreign key
    without index name, its non-empty constraint name; the empty string is
    never among them. *)
Theorem convertForeignKeysToIndexNames_In (foreignKeys : list ForeignKey.t) (name : string) :
  In name (convertForeignKeysToIndexNames foreignKeys) <->
  name <> EmptyString /\
  exists foreignKey,
    In foreignKey foreignKeys /\
    (ForeignKey.indexName foreignKey = name \/
     (ForeignKey.indexName foreignKey = EmptyString /\
      ForeignKey.constraintName foreignKey = name)).
Proof.
  assert (Hlen : forall s, (0 <? String.length s)%nat = negb (String.eqb s EmptyString)).
  { intros [|c s]; reflexivity. }
  induction foreignKeys as [|fk rest IH]; cbn [convertForeignKeysToIndexNames].
  - split; [intros [] | intros [_ [fk [[] _]]]].
  - rewrite !Hlen.
    destruct (String.eqb_spec (ForeignKey.indexName fk) EmptyString) as [Hi|Hi]; cbn [negb].
    + destruct (String.eqb_spec (ForeignKey.constraintName fk) EmptyString) as [Hc|Hc]; cbn [negb].
      * rewrite IH. split.
        -- intros [Hn [fk' [Hin H]]]. split; [exact Hn|]. exists fk'. split; [right; exact Hin | exact H].
        -- intros [Hn [fk' [[Heq|Hin] H]]]; [subst fk'|split; [exact Hn|]; exists fk'; auto].
           destruct H as [H|[_ H]]; congruence.
      * cbn [In]. rewrite IH. split.
        -- intros [Heq|[Hn [fk' [Hin H]]]].
           ++ split; [congruence|]. exists fk. split; [left; reflexivity | right; auto].
           ++ split; [exact Hn|]. exists fk'. split; [right; exact Hin | exact H].
        -- intros [Hn [fk' [[Heq|Hin] H]]]; [subst fk'|right; split; [exact Hn|]; exists fk'; auto].
           destruct H as [H|[_ H]]; [congruence | left; exact H].
    + cbn [In]. rewrite IH. split.
      * intros [Heq|[Hn [fk' [Hin H]]]].
        -- split; [congruence|]. exists fk. split; [left; reflexivity | left; exact Heq].
        -- split; [exact Hn|]. exists fk'. split; [right; exact Hin | exact H].
      * intros [Hn [fk' [[Heq|Hin] H]]]; [subst fk'|right; split; [exact Hn|]; exists fk'; auto].
        destruct H as [H|[H _]]; [left; exact H | contradiction].
Qed.

(** ** Data types and defaults *)

(** X4.  [normalizeDataType] is idempotent in every dialect: an alias is
    replaced once and the result is not an alias. *)
Theorem normalizeDataType_idempotent (g : Generator.t) (dataType : string) :
  normalizeDataType g (normalizeDataType g dataType) = normalizeDataType g dataType.
Proof.
  unfold normalizeDataType, dataTypeAliases, mysqlDataTypeAliases. cbn [lookupAlias].
  destruct (String.eqb "bool" dataType) eqn:H1; [destruct (Generator.mode g); reflexivity|].
  destruct (String.eqb "int" dataType) eqn:H2; [destruct (Generator.mode g); reflexivity|].
  destruct (String.eqb "char" dataType) eqn:H3; [destruct (Generator.mode g); reflexivity|].
  destruct (String.eqb "varchar" dataType) eqn:H4; [destruct (Generator.mode g); reflexivity|].
  destruct (Generator.mode g); rewrite ?H1, ?H2, ?H3, ?H4; try reflexivity.
  destruct (String.eqb "boolean" dataType) eqn:H5; [reflexivity|].
  rewrite H1, H2, H3, H4, H5. reflexivity.
Qed.

(** X5.  A default whose value is the argument [null] counts as no default:
    [areSameDefaultValue] treats it as absent on either side.  So for a
    current column without default and the desired column that differs from
    it by [DEFAULT null] alone (and by the address of its CHECK, the two
    being parsed separately), the column change of Postgres emits nothing;
    the one of MySQL emits nothing when the column has no CHECK, says NOT
    NULL if it is a primary key, and has an ON UPDATE value that
    [DeepEqualValue] equates with itself (its float is not a NaN). *)
Theorem areSameDefaultValue_null {rt : GoRuntime} (g : Generator.t)
    (defaultDef : DefaultDefinition.t) (other : option DefaultDefinition.t) :
  isNullValue (DefaultDefinition.value defaultDef) = true ->
  areSameDefaultValue (Some defaultDef) other = areSameDefaultValue None other /\
  areSameDefaultValue other (Some defaultDef) = areSameDefaultValue other None /\
  (forall currentTable desired column relocate i,
     Column.defaultDef column = None ->
     changeColumnPostgres g currentTable desired (relocateColumn relocate column)
       (Column.set_defaultDef (Some defaultDef) column) = Ok [] /\
     (Column.check column = None ->
      (Column.keyOption column = ColumnKeyPrimary -> Column.notNull column = Some true) ->
      DeepEqualValue (Column.onUpdate column) (Column.onUpdate column) = true ->
      changeColumnMysql g currentTable desired i (relocateColumn relocate column)
        (Column.set_defaultDef (Some defaultDef) column) = Ok [])).
Proof.
  intros Hnull.
  assert (Hsame : forall column relocate, Column.defaultDef column = None ->
            areSameDefaultValue (Column.defaultDef (relocateColumn relocate column))
              (Column.defaultDef (Column.set_defaultDef (Some defaultDef) column)) = true).
  { intros column relocate Hnone.
    change (Column.defaultDef (relocateColumn relocate column)) with (Column.defaultDef column).
    rewrite Hnone. unfold areSameDefaultValue. cbn. rewrite Hnull. reflexivity. }
  split; [|split].
  - unfold areSameDefaultValue. rewrite Hnull. reflexivity.
  - unfold areSameDefaultValue. rewrite Hnull. reflexivity.
  - intros currentTable desired column relocate i Hnone. split.
    + pose proof (self_changeColumnPostgres g desired currentTable column relocate) as Hself.
      unfold changeColumnPostgres in *. rewrite (Hsame column relocate Hnone).
      rewrite (areSameDefaultValue_refl (Column.defaultDef column)
               : areSameDefaultValue (Column.defaultDef (relocateColumn relocate column))
                   (Column.defaultDef column) = true) in Hself.
      exact Hself.
    + intros Hcheck Hprimary Hupdate.
      assert (Hwf : wellFormedColumn GeneratorModeMysql column = true).
      { unfold wellFormedColumn. rewrite Hupdate, Hcheck, !andb_true_r.
        destruct (Column.keyOption column); try reflexivity.
        rewrite (Hprimary eq_refl). reflexivity. }
      unfold changeColumnMysql. rewrite (Hsame column relocate Hnone).
      rewrite (relocateColumn_no_check relocate column Hcheck).
      pose proof (haveSameColumnDefinition_refl g column Hwf) as Hdef.
      unfold haveSameColumnDefinition, haveSameDataType in *. cbn.
      rewrite Hdef, Z.ltb_irrefl. cbn [negb andb orb bind].
      destruct (isUnique (Column.keyOption column)); reflexivity.
Qed.

Lemma areSameDefaultValue_null_witness :
  changeColumnPostgres (rt := asciiRuntime) (Fixture.generator GeneratorModePostgres [])
    FixtureMore.users_check FixtureMore.users_check
    (FixtureMore.withCheck 2 "id > 0" Fixture.id)
    (Column.set_defaultDef
       (Some (DefaultDefinition.mk (Some (Fixture.value ValueTypeValArg "null")) EmptyString))
       (FixtureMore.withCheck 1 "id > 0" Fixture.id)) = Ok [] /\
  changeColumnMysql (rt := asciiRuntime) (Fixture.generator GeneratorModeMysql [])
    Fixture.users_id_name Fixture.users_id_name 1 Fixture.name
    (Column.set_defaultDef
       (Some (DefaultDefinition.mk (Some (Fixture.value ValueTypeValArg "null")) EmptyString))
       Fixture.name) = Ok [].
Proof.
  split.
  - apply (proj1 (proj2 (proj2 (areSameDefaultValue_null (rt := asciiRuntime)
             (Fixture.generator GeneratorModePostgres [])
             (DefaultDefinition.mk (Some (Fixture.value ValueTypeValArg "null")) EmptyString)
             None eq_refl))
             FixtureMore.users_check FixtureMore.users_check
             (FixtureMore.withCheck 1 "id > 0" Fixture.id) (fun a => Pos.succ a) 0%nat
             eq_refl)).
  - apply (proj2 (proj2 (proj2 (areSameDefaultValue_null (rt := asciiRuntime)
             (Fixture.generator GeneratorModeMysql [])
             (DefaultDefinition.mk (Some (Fixture.value ValueTypeValArg "null")) EmptyString)
             None eq_refl))
             Fixture.users_id_name Fixture.users_id_name Fixture.name (fun a => Pos.succ a)
             1%nat eq_refl)); [reflexivity | discriminate | reflexivity].
Defined.

(** ** The simulated state *)

Lemma findByName_none_names {A : Type} (key : A -> string) (l : list A) (name : string) :
  findByName key l name = None -> containsString (map key l) name = false.
Proof.
  induction l as [|x rest IH]; cbn [findByName map containsString]; [reflexivity|].
  destruct (String.eqb (key x) name); [discriminate | exact IH].
Qed.

Lemma findByName_app_present {A : Type} (key : A -> string) (l extra : list A) (name : string) :
  (forall x, In x extra -> containsString (map key l) (key x) = true) ->
  findByName key (l ++ extra)%list name = findByName key l name.
Proof.
  intros Hextra. rewrite findByName_app.
  destruct (findByName key l name) as [x|] eqn:Hfind; [reflexivity|].
  apply findByName_none_names in Hfind.
  induction extra as [|y rest IH]; [reflexivity|].
  cbn [findByName]. destruct (String.eqb_spec (key y) name) as [Heq|_].
  - rewrite <- Heq, (Hextra y (or_introl eq_refl)) in Hfind. discriminate.
  - apply IH. intros x Hx. apply Hextra. right. exact Hx.
Qed.

(** X6.  [mergeTable] changes no lookup: the merged table has the name, the
    foreign keys and the policies of [table1], and every column or index
    looked up by name in it is the one [table1] had; in particular a column
    or index that only [table2] has is still not found. *)
Theorem mergeTable_lookups (table1 table2 : Table.t) :
  Table.name (mergeTable table1 table2) = Table.name table1 /\
  Table.foreignKeys (mergeTable table1 table2) = Table.foreignKeys table1 /\
  Table.policies (mergeTable table1 table2) = Table.policies table1 /\
  (forall name,
     findColumnByName (Table.columns (mergeTable table1 table2)) name =
     findColumnByName (Table.columns table1) name) /\
  (forall name,
     findIndexByName (Table.indexes (mergeTable table1 table2)) name =
     findIndexByName (Table.indexes table1) name).
Proof.
  unfold mergeTable. cbn. repeat split.
  - intros name. rewrite mergeColumns_filter. apply findByName_app_present.
    intros c Hc. apply filter_In in Hc. exact (proj2 Hc).
  - intros name. rewrite mergeIndexes_filter. apply findByName_app_present.
    intros i Hi. apply filter_In in Hi. exact (proj2 Hi).
Qed.

(** ** Column definitions *)

(** X7.  [haveSameColumnDefinition] compares the two [check] pointers by
    address: two columns whose CHECK definitions are held at different
    addresses are never the same definition, whatever their texts are.  The
    column change of MySQL then renders the desired column: when that
    fails it returns the error, and otherwise its first statement is the
    CHANGE COLUMN of the column to the rendered definition, with the
    position clause exactly when the order changes, followed by the ADD
    UNIQUE KEY of the column exactly when the desired column is unique, the
    current one is not and the current table has no index of that name, and
    by nothing else. *)
Theorem haveSameColumnDefinition_check_address {rt : GoRuntime} (g : Generator.t)
    (current desired : Column.t) (p q : Ptr.t CheckDefinition.t) :
  Column.check current = Some p ->
  Column.check desired = Some q ->
  Ptr.addr p <> Ptr.addr q ->
  haveSameColumnDefinition g current desired = false /\
  forall currentTable desiredTable i,
    match generateColumnDefinition g desired false with
    | Err e => changeColumnMysql g currentTable desiredTable i current desired = Err e
    | Ok definition =>
        let change :=
          "ALTER TABLE " ++ escapeTableName g (Table.name desiredTable) ++ " CHANGE COLUMN " ++
          escapeSQLName g (Column.name current) ++ " " ++ definition in
        let unique :=
          "ALTER TABLE " ++ escapeTableName g (Table.name desiredTable) ++ " ADD UNIQUE KEY " ++
          escapeSQLName g (Column.name desired) ++ "(" ++
          escapeSQLName g (Column.name desired) ++ ")" in
        let changeOrder :=
          (Column.position desired <? Column.position current)%Z &&
          (Z.of_nat (List.length (Table.columns currentTable)) -
           Z.of_nat (List.length (Table.columns desiredTable)) <?
           wrapInt (Column.position current - Column.position desired))%Z in
        changeColumnMysql g currentTable desiredTable i current desired =
        Ok ((if changeOrder
             then change ++ columnAfter g (Table.columns desiredTable) i
             else change) ::
            (if isUnique (Column.keyOption desired) &&
                negb (isUnique (Column.keyOption current)) &&
                match findIndexByName (Table.indexes currentTable) (Column.name desired) with
                | None => true
                | Some _ => false
                end
             then [unique]
             else []))
    end.
Proof.
  intros Hp Hq Haddr.
  assert (Hdiff : haveSameColumnDefinition g current desired = false).
  { unfold haveSameColumnDefinition. rewrite Hp, Hq. cbn [samePointer].
    apply Pos.eqb_neq in Haddr. rewrite Haddr.
    rewrite !andb_false_r. reflexivity. }
  split; [exact Hdiff|].
  intros currentTable desiredTable i. unfold changeColumnMysql. rewrite Hdiff.
  cbn [negb orb].
  destruct (generateColumnDefinition g desired false) as [definition|e]; cbn [bind];
    [|reflexivity].
  reflexivity.
Qed.

Lemma haveSameColumnDefinition_check_address_witness :
  haveSameColumnDefinition (Fixture.generator GeneratorModeMysql [])
    (FixtureMore.withCheck 1 "id > 0" Fixture.id) (FixtureMore.withCheck 2 "id > 0" Fixture.id) = false /\
  changeColumnMysql (rt := asciiRuntime) (Fixture.generator GeneratorModeMysql [])
    FixtureMore.users_check FixtureMore.users_check 0
    (FixtureMore.withCheck 1 "id > 0" Fixture.id) (FixtureMore.withCheck 2 "id > 0" Fixture.id) =
  Ok ["ALTER TABLE `users` CHANGE COLUMN `id` `id` bigint NOT NULL CHECK (id > 0)"].
Proof.
  split.
  - apply (proj1 (haveSameColumnDefinition_check_address (rt := asciiRuntime)
                    (Fixture.generator GeneratorModeMysql [])
                    (FixtureMore.withCheck 1 "id > 0" Fixture.id)
                    (FixtureMore.withCheck 2 "id > 0" Fixture.id)
                    (Ptr.mk 1%positive (CheckDefinition.mk "id > 0" EmptyString))
                    (Ptr.mk 2%positive (CheckDefinition.mk "id > 0" EmptyString))
                    eq_refl eq_refl ltac:(discriminate))).
  - reflexivity.
Defined.

Lemma SplitN2_no_dot (name : string) :
  (forall c, In c (list_ascii_of_string name) -> c <> "."%char) ->
  Strings.SplitN2 name = None.
Proof.
  induction name as [|c rest IH]; intros H; [reflexivity|].
  cbn [Strings.SplitN2]. destruct (Ascii.eqb_spec c ".") as [Heq|_].
  - exfalso. apply (H c); [left; reflexivity | exact Heq].
  - rewrite IH; [reflexivity|]. intros c' Hc'. apply H. right. exact Hc'.
Qed.

(** X8.  A table name without a dot is rendered in the default schema of
    the dialect, exactly as the name qualified with that schema: [public]
    under Postgres, [dbo] under MSSQL; under MySQL and SQLite the name is
    quoted as it is. *)
Theorem escapeTableName_default_schema (g : Generator.t) (name : string) :
  (forall c, In c (list_ascii_of_string name) -> c <> "."%char) ->
  match Generator.mode g with
  | GeneratorModePostgres =>
      escapeTableName g name = escapeTableName g ("public." ++ name) /\
      escapeTableName g name = dquote ++ "public" ++ dquote ++ "." ++ dquote ++ name ++ dquote
  | GeneratorModeMssql =>
      escapeTableName g name = escapeTableName g ("dbo." ++ name) /\
      escapeTableName g name = "[dbo].[" ++ name ++ "]"
  | _ => escapeTableName g name = "`" ++ name ++ "`"
  end.
Proof.
  intros Hdot. apply SplitN2_no_dot in Hdot.
  unfold escapeTableName, escapeSQLName.
  destruct (Generator.mode g); cbn [Strings.SplitN2 Ascii.eqb Bool.eqb append];
    rewrite ?Hdot; cbn; auto.
Qed.

Lemma escapeTableName_default_schema_witness :
  escapeTableName (Fixture.generator GeneratorModeMssql []) "users" =
  escapeTableName (Fixture.generator GeneratorModeMssql []) "dbo.users".
Proof.
  apply (escapeTableName_default_schema (Fixture.generator GeneratorModeMssql []) "users").
  cbn. intros c H. repeat (destruct H as [<-|H]; [discriminate|]). destruct H.
Defined.


(** ** The cleanup walk *)

Section Cleanup.

Context {rt : GoRuntime}.

Lemma containsString_filter (tables : list Table.t) (name other : string) :
  containsString
    (map Table.name (filter (fun t => negb (String.eqb name (Table.name t))) tables)) other =
  containsString (map Table.name tables) other && negb (String.eqb name other).
Proof.
  induction tables as [|t rest IH]; [reflexivity|].
  cbn [filter map containsString].
  destruct (String.eqb_spec name (Table.name t)) as [Heq|Hne]; cbn [negb map containsString].
  - rewrite IH. subst name.
    destruct (String.eqb_spec (Table.name t) other) as [Heq|Hne]; cbn [orb negb].
    + rewrite andb_false_r. reflexivity.
    + reflexivity.
  - rewrite IH.
    destruct (String.eqb_spec (Table.name t) other) as [Heq|Hne']; cbn [orb].
    + subst other. destruct (String.eqb_spec name (Table.name t)); [contradiction|reflexivity].
    + reflexivity.
Qed.

Lemma forallb_filter_names (tables rest : list Table.t) (name : string) :
  forallb (fun t => containsString
                      (map Table.name
                         (filter (fun t' => negb (String.eqb name (Table.name t'))) tables))
                      (Table.name t)) rest =
  forallb (fun t => containsString (map Table.name tables) (Table.name t)) rest &&
  negb (containsString (map Table.name rest) name).
Proof.
  induction rest as [|t rest IH]; [reflexivity|].
  cbn [forallb map containsString]. rewrite IH, containsString_filter.
  rewrite (String.eqb_sym (Table.name t) name).
  destruct (containsString (map Table.name tables) (Table.name t));
    destruct (String.eqb name (Table.name t)); cbn [andb orb negb];
    rewrite ?andb_false_r; reflexivity.
Qed.

(** The cleanup of tables none of which is desired: every removal must
    find its table in what earlier removals left. *)
Lemma cleanupTables_none_desired (g : Generator.t) (tables currentTables : list Table.t) :
  Generator.desiredTables g = [] ->
  cleanupTables g tables currentTables =
  if noDup (map Table.name tables) &&
     forallb (fun t => containsString (map Table.name currentTables) (Table.name t)) tables
  then Ok (map (fun t => "DROP TABLE " ++ escapeTableName g (Table.name t)) tables)
  else Err (Fatal "Failed to removeTableByName").
Proof.
  intros Hdes. revert currentTables.
  induction tables as [|t rest IH]; intros currentTables; [reflexivity|].
  cbn [cleanupTables]. rewrite Hdes. cbn [findTableByName findByName].
  unfold removeTableByName. rewrite removeTableByName_loop_filter.
  cbn [map noDup forallb].
  destruct (containsString (map Table.name currentTables) (Table.name t)) eqn:Hin.
  - rewrite IH, forallb_filter_names.
    destruct (noDup (map Table.name rest));
      destruct (forallb (fun t0 => containsString (map Table.name currentTables) (Table.name t0)) rest);
      destruct (containsString (map Table.name rest) (Table.name t));
      reflexivity.
  - rewrite !andb_false_r. reflexivity.
Qed.

Lemma forallb_containsString_self (tables : list Table.t) :
  forallb (fun t => containsString (map Table.name tables) (Table.name t)) tables = true.
Proof.
  apply forallb_forall. intros t Hin. apply containsString_true. apply in_map. exact Hin.
Qed.

(** X9.  With nothing desired, every current table is dropped in the order
    of the current schema and then every current view; but two current
    tables of one name end the process in [removeTableByName], whose second
    call no longer finds the name. *)
Theorem generateDDLs_nothing_desired (g : Generator.t) :
  Generator.desiredTables g = [] ->
  Generator.desiredViews g = [] ->
  generateDDLs g [] =
  if noDup (map Table.name (Generator.currentTables g))
  then Ok (map (fun t => ("DROP TABLE " ++ escapeTableName g (Table.name t))%string)
               (Generator.currentTables g) ++
           map (fun v => ("DROP VIEW " ++ escapeTableName g (View.name v))%string)
               (Generator.currentViews g))%list
  else Err (Fatal "Failed to removeTableByName").
Proof.
  intros Htables Hviews. unfold generateDDLs. cbn [examineDDLs bind].
  rewrite (cleanupTables_none_desired g _ _ Htables), forallb_containsString_self, andb_true_r.
  destruct (noDup (map Table.name (Generator.currentTables g))); [|reflexivity].
  cbn [bind app]. f_equal. f_equal. unfold cleanupViews. rewrite Hviews.
  cbn [convertViewNames map containsString].
  induction (Generator.currentViews g) as [|v rest IH]; [reflexivity|].
  cbn [flat_map map app]. rewrite IH. reflexivity.
Qed.

End Cleanup.

Lemma generateDDLs_nothing_desired_witness :
  generateDDLs (rt := asciiRuntime)
    (Generator.mk GeneratorModeMysql [] [Fixture.users_id; Fixture.users_id_name] [] []) [] =
  Err (Fatal "Failed to removeTableByName").
Proof.
  apply (generateDDLs_nothing_desired (rt := asciiRuntime)
           (Generator.mk GeneratorModeMysql [] [Fixture.users_id; Fixture.users_id_name] [] []));
    reflexivity.
Defined.


(** ** The statements each side accepts *)

Section Accepted.

Context {rt : GoRuntime}.

Lemma examineDDLs_AddPrimaryKey (desiredDDLs : list DDL) (statement tableName : string)
    (index : Index.t) (g : Generator.t) :
  In (AddPrimaryKey statement tableName index) desiredDDLs ->
  isOk (examineDDLs g desiredDDLs) = false.
Proof.
  revert g. induction desiredDDLs as [|ddl rest IH]; intros g Hin; [destruct Hin|].
  rewrite examineDDLs_cons. destruct Hin as [->|Hin]; [reflexivity|].
  destruct (examineDDL g ddl) as [[g1 ddls]|e]; [|reflexivity].
  specialize (IH g1 Hin). destruct (examineDDLs g1 rest) as [[g2 ddls']|e]; [discriminate|reflexivity].
Qed.

Lemma convertDDLsToTables_loop_AddIndex (ddls : list DDL) (statement tableName : string)
    (index : Index.t) (tables : list Table.t) :
  In (AddIndex statement tableName index) ddls ->
  isOk (convertDDLsToTables_loop tables ddls) = false.
Proof.
  revert tables. induction ddls as [|ddl rest IH]; intros tables Hin; [destruct Hin|].
  cbn [convertDDLsToTables_loop]. destruct Hin as [->|Hin]; [reflexivity|].
  match goal with
  | |- isOk (bind ?step _) = false => destruct step as [tables'|e]; [|reflexivity]
  end.
  cbn [bind]. apply IH. exact Hin.
Qed.

(** X10.  The two sides accept different ALTER TABLE statements: a desired
    schema with ALTER TABLE ... ADD PRIMARY KEY and a current schema with
    ALTER TABLE ... ADD INDEX are both refused, wherever the statement
    stands and whatever the rest holds. *)
Theorem diff_rejects_misplaced_alter (mode : GeneratorMode) (desiredDDLs currentDDLs : list DDL)
    (statement tableName : string) (index : Index.t) :
  In (AddPrimaryKey statement tableName index) desiredDDLs \/
  In (AddIndex statement tableName index) currentDDLs ->
  isOk (diff mode desiredDDLs currentDDLs) = false.
Proof.
  intros H. unfold diff.
  destruct (convertDDLsToTables currentDDLs) as [tables|e] eqn:Hcur; [|reflexivity].
  cbn [bind]. destruct H as [H|H].
  - unfold generateDDLs.
    pose proof (examineDDLs_AddPrimaryKey _ _ _ _
                  (Generator.mk mode [] tables [] (convertDDLsToViews currentDDLs)) H) as Hwalk.
    destruct (examineDDLs _ desiredDDLs) as [[g' ddls]|e]; [discriminate|reflexivity].
  - pose proof (convertDDLsToTables_loop_AddIndex _ _ _ _ [] H) as Hfold.
    unfold convertDDLsToTables in Hcur. rewrite Hcur in Hfold. discriminate.
Qed.

End Accepted.

Lemma diff_rejects_misplaced_alter_witness :
  isOk (diff (rt := asciiRuntime) GeneratorModeMysql
          [CreateTable "CREATE TABLE users (id bigint NOT NULL)" Fixture.users_id;
           AddPrimaryKey "ALTER TABLE users ADD PRIMARY KEY (id)" "users"
             (Fixture.index "PRIMARY" ["id"] [])]
          []) = false.
Proof.
  apply (diff_rejects_misplaced_alter (rt := asciiRuntime) GeneratorModeMysql _ []
           "ALTER TABLE users ADD PRIMARY KEY (id)" "users" (Fixture.index "PRIMARY" ["id"] [])).
  left. right. left. reflexivity.
Defined.


(** ** The desired side of the walk *)

Section DesiredSide.

Context {rt : GoRuntime}.

Lemma generateDDLsForCreateIndex_desired (g g' : Generator.t) tableName index action statement ddls :
  generateDDLsForCreateIndex g tableName index action statement = Ok (g', ddls) ->
  exists desiredTable,
    findTableByName (Generator.desiredTables g) tableName = Some desiredTable /\
    Generator.desiredTables g' =
      updateTableByName (Generator.desiredTables g) tableName
        (fun t => Table.set_indexes (Table.indexes t ++ [index])%list t) /\
    Generator.desiredViews g' = Generator.desiredViews g.
Proof.
  unfold generateDDLsForCreateIndex.
  destruct (findTableByName (Generator.currentTables g) tableName) as [currentTable|]; [|discriminate].
  destruct (findIndexByName (Table.indexes currentTable) (Index.name index)) as [currentIndex|];
    [destruct (negb (areSameIndexes currentIndex index))|];
    cbn [Generator.desiredTables Generator.set_currentTables];
    (destruct (findTableByName (Generator.desiredTables g) tableName) as [desiredTable|];
     [|discriminate]);
    match goal with
    | |- context [containsString ?l ?s] => destruct (containsString l s)
    end; try discriminate;
    intros H; injection H as <- _; exists desiredTable; repeat split.
Qed.

Lemma generateDDLsForCreatePolicy_desired (g g' : Generator.t) tableName policy action statement ddls :
  generateDDLsForCreatePolicy g tableName policy action statement = Ok (g', ddls) ->
  exists desiredTable,
    findTableByName (Generator.desiredTables g) tableName = Some desiredTable /\
    Generator.desiredTables g' =
      updateTableByName (Generator.desiredTables g) tableName
        (fun t => Table.set_policies (Table.policies t ++ [policy])%list t) /\
    Generator.desiredViews g' = Generator.desiredViews g.
Proof.
  unfold generateDDLsForCreatePolicy.
  destruct (findTableByName (Generator.currentTables g) tableName) as [currentTable|]; [|discriminate].
  destruct (findPolicyByName (Table.policies currentTable) (Policy.name policy)) as [currentPolicy|];
    [destruct (negb (areSamePolicies currentPolicy policy))|];
    cbn [Generator.desiredTables Generator.set_currentTables];
    (destruct (findTableByName (Generator.desiredTables g) tableName) as [desiredTable|];
     [|discriminate]);
    match goal with
    | |- context [containsString ?l ?s] => destruct (containsString l s)
    end; try discriminate;
    intros H; injection H as <- _; exists desiredTable; repeat split.
Qed.

(** X11.  The desired side that the walk keeps is the schema that
    [convertDDLsToTables] and [convertDDLsToViews] fold from the same
    statements: when the walk succeeds over statements without
    ALTER TABLE ... ADD INDEX, the folder accepts them too and ends with the
    desired tables and views of the walk. *)
Theorem examineDDLs_desired_side (desiredDDLs : list DDL) (g g' : Generator.t)
    (ddls : list string) :
  examineDDLs g desiredDDLs = Ok (g', ddls) ->
  (forall statement tableName index, ~ In (AddIndex statement tableName index) desiredDDLs) ->
  convertDDLsToTables_loop (Generator.desiredTables g) desiredDDLs =
    Ok (Generator.desiredTables g') /\
  Generator.desiredViews g' = (Generator.desiredViews g ++ convertDDLsToViews desiredDDLs)%list.
Proof.
  revert g ddls. induction desiredDDLs as [|ddl rest IH]; intros g ddls Hwalk Hno.
  - cbn in Hwalk. injection Hwalk as <- _. cbn [convertDDLsToTables_loop convertDDLsToViews].
    rewrite app_nil_r. split; reflexivity.
  - rewrite examineDDLs_cons in Hwalk.
    destruct (examineDDL g ddl) as [[g1 ddls1]|e] eqn:Hstep; [|discriminate].
    destruct (examineDDLs g1 rest) as [[g2 ddls2]|e] eqn:Hrest; [|discriminate].
    injection Hwalk as <- _.
    assert (Hno' : forall statement tableName index, ~ In (AddIndex statement tableName index) rest).
    { intros s t i Hin. apply (Hno s t i). right. exact Hin. }
    destruct (IH g1 ddls2 Hrest Hno') as [IHt IHv].
    cbn [convertDDLsToTables_loop].
    destruct ddl as [statement table|statement tableName index|statement tableName index
                    |statement tableName index|statement tableName foreignKey
                    |statement tableName policy|view]; cbn [examineDDL] in Hstep.
    + assert (Hg1 : Generator.desiredTables g1 = (Generator.desiredTables g ++ [table])%list /\
                    Generator.desiredViews g1 = Generator.desiredViews g).
      { destruct (findTableByName (Generator.currentTables g) (Table.name table)) as [currentTable|].
        - destruct (generateDDLsForCreateTable g currentTable table); cbn [bind] in Hstep;
            [|discriminate].
          injection Hstep as <- _. split; reflexivity.
        - cbn [bind] in Hstep. injection Hstep as <- _. split; reflexivity. }
      destruct Hg1 as [Ht Hv]. cbn [bind convertDDLsToViews].
      rewrite <- Ht, <- Hv. split; assumption.
    + destruct (generateDDLsForCreateIndex_desired _ _ _ _ _ _ _ Hstep) as [d [Hfind [Ht Hv]]].
      rewrite Hfind. cbn [bind convertDDLsToViews]. rewrite <- Ht, <- Hv. split; assumption.
    + exfalso. apply (Hno statement tableName index). left. reflexivity.
    + discriminate.
    + unfold generateDDLsForAddForeignKey in Hstep.
      destruct (findTableByName (Generator.desiredTables g) tableName) as [d|]; [|discriminate].
      match type of Hstep with
      | context [containsString ?l ?s] => destruct (containsString l s)
      end; [discriminate|]. injection Hstep as <- _.
      cbn [bind convertDDLsToViews].
      cbn [Generator.desiredTables Generator.desiredViews Generator.set_desiredTables] in IHt, IHv.
      split; assumption.
    + destruct (generateDDLsForCreatePolicy_desired _ _ _ _ _ _ _ Hstep) as [d [Hfind [Ht Hv]]].
      rewrite Hfind. cbn [bind convertDDLsToViews]. rewrite <- Ht, <- Hv. split; assumption.
    + unfold generateDDLsForCreateView in Hstep.
      match type of Hstep with
      | context [containsString ?l ?s] => destruct (containsString l s)
      end; [discriminate|]. injection Hstep as <- _.
      cbn [bind convertDDLsToViews].
      cbn [Generator.desiredTables Generator.desiredViews Generator.set_desiredViews] in IHt, IHv.
      rewrite IHv, <- app_assoc. split; [exact IHt | reflexivity].
Qed.

End DesiredSide.

Lemma examineDDLs_desired_side_witness :
  exists tables, convertDDLsToTables_loop [] Fixture.schema = Ok tables.
Proof.
  eexists. eapply proj1.
  eapply (examineDDLs_desired_side (rt := asciiRuntime) Fixture.schema
            (Generator.mk GeneratorModeMysql [] [] [] [])).
  - vm_compute. reflexivity.
  - intros s t i H. cbn in H. intuition discriminate.
Defined.


(** ** A first run *)

Section FirstRun.

Context {rt : GoRuntime}.

Lemma mirrors_refl (table : Table.t) : mirrors table table.
Proof. repeat split. exists []. rewrite app_nil_r. reflexivity. Qed.

Lemma mirrors_find (currentTables desiredTables : list Table.t) (name : string) :
  Forall2 mirrors currentTables desiredTables ->
  match findTableByName currentTables name, findTableByName desiredTables name with
  | Some current, Some desired => mirrors current desired
  | None, None => True
  | _, _ => False
  end.
Proof.
  unfold findTableByName. induction 1 as [|c d cs ds Hm _ IH]; cbn [findByName]; [exact I|].
  pose proof Hm as [Hname _]. rewrite Hname.
  destruct (String.eqb (Table.name d) name); [exact Hm | exact IH].
Qed.

Lemma mirrors_update (currentTables desiredTables : list Table.t) (name : string)
    (f f' : Table.t -> Table.t) :
  Forall2 mirrors currentTables desiredTables ->
  (forall c d, mirrors c d -> mirrors (f c) (f' d)) ->
  Forall2 mirrors (updateTableByName currentTables name f)
                  (updateTableByName desiredTables name f').
Proof.
  intros H Hf. induction H as [|c d cs ds Hm Hrest IH]; cbn [updateTableByName]; [constructor|].
  pose proof Hm as [Hname _]. rewrite Hname.
  destruct (String.eqb (Table.name d) name); constructor; auto.
Qed.

Lemma mirrors_update_desired (currentTables desiredTables : list Table.t) (name : string)
    (f' : Table.t -> Table.t) :
  Forall2 mirrors currentTables desiredTables ->
  (forall c d, mirrors c d -> mirrors c (f' d)) ->
  Forall2 mirrors currentTables (updateTableByName desiredTables name f').
Proof.
  intros H Hf. induction H as [|c d cs ds Hm Hrest IH]; cbn [updateTableByName]; [constructor|].
  destruct (String.eqb (Table.name d) name); constructor; auto.
Qed.

Lemma firstRun_createIndex (g g1 : Generator.t) tableName index action statement out :
  firstRun g ->
  generateDDLsForCreateIndex g tableName index action statement = Ok (g1, out) ->
  firstRun g1 /\ out = [statement] /\
  map Table.name (Generator.currentTables g1) = map Table.name (Generator.currentTables g).
Proof.
  intros [Hviews [Hnodup Hmirror]] Hstep.
  unfold generateDDLsForCreateIndex in Hstep.
  pose proof (mirrors_find _ _ tableName Hmirror) as Hfind.
  destruct (findTableByName (Generator.currentTables g) tableName) as [c|]; [|discriminate].
  destruct (findTableByName (Generator.desiredTables g) tableName) as [d|] eqn:Hd;
    [|destruct Hfind].
  destruct Hfind as [_ [_ [Hidx _]]].
  destruct (containsString (convertIndexesToIndexNames (Table.indexes d)) (Index.name index))
    eqn:Hdup.
  - exfalso.
    destruct (findIndexByName (Table.indexes c) (Index.name index));
      [destruct (negb (areSameIndexes _ index))|];
      cbn [Generator.desiredTables Generator.set_currentTables] in Hstep;
      rewrite Hd, Hdup in Hstep; discriminate.
  - assert (Hnone : findIndexByName (Table.indexes c) (Index.name index) = None).
    { apply findByName_None. rewrite Hidx. exact Hdup. }
    rewrite Hnone in Hstep.
    cbn [Generator.desiredTables Generator.set_currentTables] in Hstep.
    rewrite Hd, Hdup in Hstep. injection Hstep as <- <-. unfold firstRun.
    cbn [Generator.currentTables Generator.desiredTables Generator.currentViews
         Generator.set_currentTables Generator.set_desiredTables].
    assert (Hnames : map Table.name
                       (updateTableByName (Generator.currentTables g) tableName
                          (fun t => Table.set_indexes (Table.indexes t ++ [index])%list t)) =
                     map Table.name (Generator.currentTables g)).
    { apply updateTableByName_names. reflexivity. }
    repeat split.
    + exact Hviews.
    + rewrite Hnames. exact Hnodup.
    + apply mirrors_update; [exact Hmirror|].
      intros c' d' [Hn [Hc [Hi [Hp Hf]]]]. unfold mirrors. cbn. rewrite Hi. auto.
    + exact Hnames.
Qed.

Lemma firstRun_createPolicy (g g1 : Generator.t) tableName policy action statement out :
  firstRun g ->
  generateDDLsForCreatePolicy g tableName policy action statement = Ok (g1, out) ->
  firstRun g1 /\ out = [statement] /\
  map Table.name (Generator.currentTables g1) = map Table.name (Generator.currentTables g).
Proof.
  intros [Hviews [Hnodup Hmirror]] Hstep.
  unfold generateDDLsForCreatePolicy in Hstep.
  pose proof (mirrors_find _ _ tableName Hmirror) as Hfind.
  destruct (findTableByName (Generator.currentTables g) tableName) as [c|]; [|discriminate].
  destruct (findTableByName (Generator.desiredTables g) tableName) as [d|] eqn:Hd;
    [|destruct Hfind].
  destruct Hfind as [_ [_ [_ [Hpol _]]]].
  destruct (containsString (convertPolicyNames (Table.policies d)) (Policy.name policy))
    eqn:Hdup.
  - exfalso.
    destruct (findPolicyByName (Table.policies c) (Policy.name policy));
      [destruct (negb (areSamePolicies _ policy))|];
      cbn [Generator.desiredTables Generator.set_currentTables] in Hstep;
      rewrite Hd, Hdup in Hstep; discriminate.
  - assert (Hnone : findPolicyByName (Table.policies c) (Policy.name policy) = None).
    { apply findByName_None. rewrite Hpol. exact Hdup. }
    rewrite Hnone in Hstep.
    cbn [Generator.desiredTables Generator.set_currentTables] in Hstep.
    rewrite Hd, Hdup in Hstep. injection Hstep as <- <-. unfold firstRun.
    cbn [Generator.currentTables Generator.desiredTables Generator.currentViews
         Generator.set_currentTables Generator.set_desiredTables].
    assert (Hnames : map Table.name
                       (updateTableByName (Generator.currentTables g) tableName
                          (fun t => Table.set_policies (Table.policies t ++ [policy])%list t)) =
                     map Table.name (Generator.currentTables g)).
    { apply updateTableByName_names. reflexivity. }
    repeat split.
    + exact Hviews.
    + rewrite Hnames. exact Hnodup.
    + apply mirrors_update; [exact Hmirror|].
      intros c' d' [Hn [Hc [Hi [Hp Hf]]]]. unfold mirrors. cbn. rewrite Hp. auto.
    + exact Hnames.
Qed.

Lemma firstRun_step (g g1 : Generator.t) (ddl : DDL) (out : list string) :
  firstRun g ->
  (forall name, In name (createdTable ddl) ->
     containsString (map Table.name (Generator.currentTables g)) name = false) ->
  examineDDL g ddl = Ok (g1, out) ->
  firstRun g1 /\ out = statementUnlessForeignKey ddl /\
  map Table.name (Generator.currentTables g1) =
    (map Table.name (Generator.currentTables g) ++ createdTable ddl)%list.
Proof.
  intros Hfirst Hfresh Hstep.
  destruct ddl as [statement table|statement tableName index|statement tableName index
                  |statement tableName index|statement tableName foreignKey
                  |statement tableName policy|view];
    cbn [examineDDL] in Hstep; cbn [createdTable statementUnlessForeignKey Statement].
  - destruct Hfirst as [Hviews [Hnodup Hmirror]].
    specialize (Hfresh (Table.name table) (or_introl eq_refl)).
    unfold findTableByName in Hstep. rewrite (findByName_None _ _ _ Hfresh) in Hstep.
    cbn [bind] in Hstep. injection Hstep as <- <-. unfold firstRun.
    cbn [Generator.currentTables Generator.desiredTables Generator.currentViews
         Generator.set_currentTables Generator.set_desiredTables].
    rewrite map_app. cbn [map]. repeat split.
    + exact Hviews.
    + apply noDup_snoc; assumption.
    + apply Forall2_app; [exact Hmirror|]. constructor; [apply mirrors_refl | constructor].
  - rewrite app_nil_r. exact (firstRun_createIndex _ _ _ _ _ _ _ Hfirst Hstep).
  - rewrite app_nil_r. exact (firstRun_createIndex _ _ _ _ _ _ _ Hfirst Hstep).
  - discriminate.
  - destruct Hfirst as [Hviews [Hnodup Hmirror]].
    unfold generateDDLsForAddForeignKey in Hstep.
    destruct (findTableByName (Generator.desiredTables g) tableName) as [d|]; [|discriminate].
    match type of Hstep with
    | context [containsString ?l ?s] => destruct (containsString l s)
    end; [discriminate|]. injection Hstep as <- <-. unfold firstRun.
    cbn [Generator.currentTables Generator.desiredTables Generator.currentViews
         Generator.set_desiredTables].
    rewrite app_nil_r. repeat split; try assumption.
    apply mirrors_update_desired; [exact Hmirror|].
    intros c' d' [Hn [Hc [Hi [Hp [extra Hf]]]]]. unfold mirrors. cbn.
    repeat split; try assumption.
    exists (extra ++ [foreignKey])%list. rewrite Hf, app_assoc. reflexivity.
  - rewrite app_nil_r. exact (firstRun_createPolicy _ _ _ _ _ _ _ Hfirst Hstep).
  - destruct Hfirst as [Hviews [Hnodup Hmirror]].
    unfold generateDDLsForCreateView in Hstep. rewrite Hviews in Hstep.
    cbn [findViewByName findByName] in Hstep.
    match type of Hstep with
    | context [containsString ?l ?s] => destruct (containsString l s)
    end; [discriminate|]. injection Hstep as <- <-. unfold firstRun.
    cbn [Generator.currentTables Generator.desiredTables Generator.currentViews
         Generator.set_desiredViews].
    rewrite app_nil_r. repeat split; assumption.
Qed.

Lemma firstRun_walk (desiredDDLs : list DDL) (g g' : Generator.t) (out : list string) :
  firstRun g ->
  noDup (flat_map createdTable desiredDDLs) = true ->
  (forall name, In name (flat_map createdTable desiredDDLs) ->
     containsString (map Table.name (Generator.currentTables g)) name = false) ->
  examineDDLs g desiredDDLs = Ok (g', out) ->
  firstRun g' /\ out = flat_map statementUnlessForeignKey desiredDDLs.
Proof.
  revert g out. induction desiredDDLs as [|ddl rest IH]; intros g out Hfirst Hnodup Hfresh Hwalk.
  - cbn in Hwalk. injection Hwalk as <- <-. split; [exact Hfirst | reflexivity].
  - rewrite examineDDLs_cons in Hwalk.
    destruct (examineDDL g ddl) as [[g1 out1]|e] eqn:Hstep; [|discriminate].
    destruct (examineDDLs g1 rest) as [[g2 out2]|e] eqn:Hrest; [|discriminate].
    injection Hwalk as <- <-.
    cbn [flat_map] in Hnodup, Hfresh.
    destruct (firstRun_step g g1 ddl out1 Hfirst) as [Hfirst1 [Hout1 Hnames1]]; [|exact Hstep|].
    { intros name Hin. apply Hfresh. apply in_or_app. left. exact Hin. }
    assert (Hrestdup : noDup (flat_map createdTable rest) = true /\
                       forall name, In name (flat_map createdTable rest) ->
                                    containsString (createdTable ddl) name = false).
    { destruct ddl; cbn [createdTable app] in *;
        try (split; [exact Hnodup | reflexivity]).
      cbn [noDup] in Hnodup. apply andb_prop in Hnodup. destruct Hnodup as [Hhead Htail].
      split; [exact Htail|]. intros name Hin. cbn [containsString].
      destruct (String.eqb_spec (Table.name table) name) as [Heq|_]; [|reflexivity].
      subst name. apply containsString_true in Hin. rewrite Hin in Hhead. discriminate. }
    destruct Hrestdup as [Hnodup' Hhead].
    destruct (IH g1 out2 Hfirst1 Hnodup') as [Hfirst2 Hout2]; [|exact Hrest|].
    { intros name Hin. rewrite Hnames1, containsString_app.
      rewrite (Hfresh name (in_or_app _ _ _ (or_intror Hin))), (Hhead name Hin). reflexivity. }
    split; [exact Hfirst2|]. cbn [flat_map]. rewrite Hout1, Hout2. reflexivity.
Qed.

Lemma mirrors_covers (current desired : Table.t) : mirrors current desired -> covers desired current.
Proof.
  intros [_ [Hc [Hi [Hp [extra Hf]]]]]. unfold covers.
  rewrite Hc, Hi, Hp, Hf. repeat split; try apply incl_refl.
  unfold convertForeignKeysToConstraintNames. rewrite map_app. apply incl_appl, incl_refl.
Qed.

(** X12.  Against an empty database, a desired schema whose CREATE TABLE
    statements have distinct names yields, whenever it is accepted, its own
    statements word for word and in order, with two exceptions the code
    makes: ALTER TABLE ... ADD FOREIGN KEY statements are left out, and
    nothing is dropped. *)
Theorem generateDDLs_first_run (mode : GeneratorMode) (desiredDDLs : list DDL)
    (ddls : list string) :
  noDup (flat_map createdTable desiredDDLs) = true ->
  generateDDLs (Generator.mk mode [] [] [] []) desiredDDLs = Ok ddls ->
  ddls = flat_map statementUnlessForeignKey desiredDDLs.
Proof.
  intros Hnodup Hgen. unfold generateDDLs in Hgen.
  destruct (examineDDLs (Generator.mk mode [] [] [] []) desiredDDLs) as [[g' out]|e] eqn:Hwalk;
    [|discriminate].
  cbn [bind] in Hgen.
  assert (Hstart : firstRun (Generator.mk mode [] [] [] [])).
  { repeat split. constructor. }
  destruct (firstRun_walk desiredDDLs _ g' out Hstart Hnodup (fun _ _ => eq_refl) Hwalk)
    as [[Hviews [Hnames Hmirror]] Hout].
  assert (Htables : cleanupTables g' (Generator.currentTables g') (Generator.currentTables g')
                    = Ok []).
  { apply covers_cleanupTables. intros current Hin.
    pose proof (mirrors_find _ _ (Table.name current) Hmirror) as Hfind.
    unfold findTableByName in Hfind at 1.
    rewrite (noDup_findByName Table.name _ current Hnames Hin) in Hfind.
    destruct (findTableByName (Generator.desiredTables g') (Table.name current)) as [desired|];
      [|destruct Hfind].
    exists desired. split; [reflexivity | apply mirrors_covers; exact Hfind]. }
  rewrite Htables in Hgen. cbn [bind] in Hgen. injection Hgen as <-.
  unfold cleanupViews. rewrite Hviews. cbn [flat_map app]. rewrite app_nil_r. exact Hout.
Qed.

End FirstRun.

Lemma generateDDLs_first_run_witness :
  generateDDLs (rt := asciiRuntime) (Generator.mk GeneratorModePostgres [] [] [] [])
    Fixture.schema =
  Ok ["CREATE TABLE users (id bigint NOT NULL, name text)";
      "CREATE TABLE posts (...)";
      "CREATE INDEX ix_name ON users (name)";
      "CREATE POLICY p_users ON users ...";
      "CREATE VIEW v AS select 1"] /\
  ["CREATE TABLE users (id bigint NOT NULL, name text)";
   "CREATE TABLE posts (...)";
   "CREATE INDEX ix_name ON users (name)";
   "CREATE POLICY p_users ON users ...";
   "CREATE VIEW v AS select 1"] = flat_map statementUnlessForeignKey Fixture.schema.
Proof.
  split; [reflexivity|].
  apply (generateDDLs_first_run (rt := asciiRuntime) GeneratorModePostgres Fixture.schema);
    reflexivity.
Defined.


(** ** Tables that are no longer desired *)

Section Undesired.

Context {rt : GoRuntime}.

Lemma generateDDLsForCreateIndex_current_names (g g' : Generator.t) tableName index action
    statement ddls :
  generateDDLsForCreateIndex g tableName index action statement = Ok (g', ddls) ->
  map Table.name (Generator.currentTables g') = map Table.name (Generator.currentTables g).
Proof.
  unfold generateDDLsForCreateIndex.
  destruct (findTableByName (Generator.currentTables g) tableName) as [currentTable|]; [|discriminate].
  destruct (findIndexByName (Table.indexes currentTable) (Index.name index)) as [currentIndex|];
    [destruct (negb (areSameIndexes currentIndex index))|];
    cbn [Generator.desiredTables Generator.set_currentTables];
    (destruct (findTableByName (Generator.desiredTables g) tableName) as [desiredTable|];
     [|discriminate]);
    match goal with
    | |- context [containsString ?l ?s] => destruct (containsString l s)
    end; try discriminate;
    intros H; injection H as <- _;
    cbn [Generator.currentTables Generator.set_desiredTables];
    try reflexivity; apply updateTableByName_names; reflexivity.
Qed.

Lemma generateDDLsForCreatePolicy_current_names (g g' : Generator.t) tableName policy action
    statement ddls :
  generateDDLsForCreatePolicy g tableName policy action statement = Ok (g', ddls) ->
  map Table.name (Generator.currentTables g') = map Table.name (Generator.currentTables g).
Proof.
  unfold generateDDLsForCreatePolicy.
  destruct (findTableByName (Generator.currentTables g) tableName) as [currentTable|]; [|discriminate].
  destruct (findPolicyByName (Table.policies currentTable) (Policy.name policy)) as [currentPolicy|];
    [destruct (negb (areSamePolicies currentPolicy policy))|];
    cbn [Generator.desiredTables Generator.set_currentTables];
    (destruct (findTableByName (Generator.desiredTables g) tableName) as [desiredTable|];
     [|discriminate]);
    match goal with
    | |- context [containsString ?l ?s] => destruct (containsString l s)
    end; try discriminate;
    intros H; injection H as <- _;
    cbn [Generator.currentTables Generator.set_desiredTables];
    try reflexivity; apply updateTableByName_names; reflexivity.
Qed.

(** One round of the walk keeps the names of the current tables, a CREATE
    TABLE of a missing table adding its name at the end, and adds the name
    of a CREATE TABLE to the desired ones. *)
Lemma examineDDL_names (g g' : Generator.t) (ddl : DDL) (ddls : list string) :
  examineDDL g ddl = Ok (g', ddls) ->
  (exists added, map Table.name (Generator.currentTables g') =
                 (map Table.name (Generator.currentTables g) ++ added)%list) /\
  map Table.name (Generator.desiredTables g') =
    (map Table.name (Generator.desiredTables g) ++ createdTable ddl)%list.
Proof.
  destruct ddl as [statement table|statement tableName index|statement tableName index
                  |statement tableName index|statement tableName foreignKey
                  |statement tableName policy|view];
    cbn [examineDDL createdTable]; intros Hstep; rewrite ?app_nil_r.
  - destruct (findTableByName (Generator.currentTables g) (Table.name table)) as [currentTable|].
    + destruct (generateDDLsForCreateTable g currentTable table); cbn [bind] in Hstep;
        [|discriminate].
      injection Hstep as <- _.
      cbn [Generator.currentTables Generator.desiredTables Generator.set_currentTables
           Generator.set_desiredTables].
      split; [exists [] | rewrite map_app; reflexivity].
      rewrite app_nil_r. apply updateTableByName_names. intros t.
      unfold mergeTable. reflexivity.
    + cbn [bind] in Hstep. injection Hstep as <- _.
      cbn [Generator.currentTables Generator.desiredTables Generator.set_currentTables
           Generator.set_desiredTables].
      rewrite !map_app. split; [exists [Table.name table] |]; reflexivity.
  - split.
    + exists []. rewrite app_nil_r. exact (generateDDLsForCreateIndex_current_names _ _ _ _ _ _ _ Hstep).
    + destruct (generateDDLsForCreateIndex_desired _ _ _ _ _ _ _ Hstep) as [d [_ [Ht _]]].
      rewrite Ht. apply updateTableByName_names. reflexivity.
  - split.
    + exists []. rewrite app_nil_r. exact (generateDDLsForCreateIndex_current_names _ _ _ _ _ _ _ Hstep).
    + destruct (generateDDLsForCreateIndex_desired _ _ _ _ _ _ _ Hstep) as [d [_ [Ht _]]].
      rewrite Ht. apply updateTableByName_names. reflexivity.
  - discriminate.
  - unfold generateDDLsForAddForeignKey in Hstep.
    destruct (findTableByName (Generator.desiredTables g) tableName) as [d|]; [|discriminate].
    match type of Hstep with
    | context [containsString ?l ?s] => destruct (containsString l s)
    end; [discriminate|]. injection Hstep as <- _.
    cbn [Generator.currentTables Generator.desiredTables Generator.set_desiredTables].
    split; [exists []; rewrite app_nil_r; reflexivity|].
    apply updateTableByName_names. reflexivity.
  - split.
    + exists []. rewrite app_nil_r. exact (generateDDLsForCreatePolicy_current_names _ _ _ _ _ _ _ Hstep).
    + destruct (generateDDLsForCreatePolicy_desired _ _ _ _ _ _ _ Hstep) as [d [_ [Ht _]]].
      rewrite Ht. apply updateTableByName_names. reflexivity.
  - unfold generateDDLsForCreateView in Hstep.
    match type of Hstep with
    | context [containsString ?l ?s] => destruct (containsString l s)
    end; [discriminate|]. injection Hstep as <- _.
    cbn [Generator.currentTables Generator.desiredTables Generator.set_desiredViews].
    split; [exists []; rewrite app_nil_r|]; reflexivity.
Qed.

Lemma examineDDLs_names (desiredDDLs : list DDL) (g g' : Generator.t) (ddls : list string) :
  examineDDLs g desiredDDLs = Ok (g', ddls) ->
  (exists added, map Table.name (Generator.currentTables g') =
                 (map Table.name (Generator.currentTables g) ++ added)%list) /\
  map Table.name (Generator.desiredTables g') =
    (map Table.name (Generator.desiredTables g) ++ flat_map createdTable desiredDDLs)%list.
Proof.
  revert g ddls. induction desiredDDLs as [|ddl rest IH]; intros g ddls Hwalk.
  - cbn in Hwalk. injection Hwalk as <- _. cbn [flat_map]. rewrite app_nil_r.
    split; [exists []; rewrite app_nil_r|]; reflexivity.
  - rewrite examineDDLs_cons in Hwalk.
    destruct (examineDDL g ddl) as [[g1 ddls1]|e] eqn:Hstep; [|discriminate].
    destruct (examineDDLs g1 rest) as [[g2 ddls2]|e] eqn:Hrest; [|discriminate].
    injection Hwalk as <- _.
    destruct (examineDDL_names _ _ _ _ Hstep) as [[added1 Hc1] Hd1].
    destruct (IH _ _ Hrest) as [[added2 Hc2] Hd2].
    split.
    + exists (added1 ++ added2)%list. rewrite Hc2, Hc1, app_assoc. reflexivity.
    + rewrite Hd2, Hd1. cbn [flat_map]. rewrite app_assoc. reflexivity.
Qed.

Lemma cleanupTables_drop (g : Generator.t) (tables currentTables : list Table.t)
    (out : list string) (name : string) :
  cleanupTables g tables currentTables = Ok out ->
  In name (map Table.name tables) ->
  findTableByName (Generator.desiredTables g) name = None ->
  In ("DROP TABLE " ++ escapeTableName g name) out.
Proof.
  revert currentTables out.
  induction tables as [|t rest IH]; intros currentTables out Hout Hin Hnone; [destruct Hin|].
  cbn [cleanupTables] in Hout. cbn [map] in Hin.
  destruct Hin as [Heq|Hin].
  - subst name. rewrite Hnone in Hout.
    destruct (removeTableByName currentTables (Table.name t)) as [c|]; [|discriminate].
    destruct (cleanupTables g rest c) as [b|e]; [|discriminate].
    cbn [bind] in Hout. injection Hout as <-. left. reflexivity.
  - destruct (findTableByName (Generator.desiredTables g) (Table.name t)) as [d|].
    + destruct (cleanupTable g t d) as [a|e]; [|discriminate]. cbn [bind] in Hout.
      destruct (cleanupTables g rest currentTables) as [b|e] eqn:Hb; [|discriminate].
      cbn [bind] in Hout. injection Hout as <-. apply in_or_app. right.
      exact (IH _ _ Hb Hin Hnone).
    + destruct (removeTableByName currentTables (Table.name t)) as [c|]; [|discriminate].
      destruct (cleanupTables g rest c) as [b|e] eqn:Hb; [|discriminate].
      cbn [bind] in Hout. injection Hout as <-. right. exact (IH _ _ Hb Hin Hnone).
Qed.

(** X13.  Whenever statements are returned, they hold a DROP TABLE for
    every table of the current schema whose name is neither among the
    desired tables at the start nor created by a CREATE TABLE of the desired
    statements. *)
Theorem generateDDLs_drops_undesired (g : Generator.t) (desiredDDLs : list DDL)
    (ddls : list string) (current : Table.t) :
  generateDDLs g desiredDDLs = Ok ddls ->
  In current (Generator.currentTables g) ->
  containsString (map Table.name (Generator.desiredTables g) ++
                  flat_map createdTable desiredDDLs)%list (Table.name current) = false ->
  In ("DROP TABLE " ++ escapeTableName g (Table.name current)) ddls.
Proof.
  intros Hgen Hin Hnot. unfold generateDDLs in Hgen.
  destruct (examineDDLs g desiredDDLs) as [[g' out]|e] eqn:Hwalk; [|discriminate].
  cbn [bind] in Hgen.
  destruct (cleanupTables g' (Generator.currentTables g') (Generator.currentTables g'))
    as [tables|e] eqn:Htables; [|discriminate].
  cbn [bind] in Hgen. injection Hgen as <-.
  destruct (examineDDLs_names _ _ _ _ Hwalk) as [[added Hcur] Hdes].
  apply in_or_app. right. apply in_or_app. left.
  rewrite <- (escapeTableName_mode g g' _ (examineDDLs_mode _ _ _ _ Hwalk)).
  apply (cleanupTables_drop _ _ _ _ _ Htables).
  - rewrite Hcur. apply in_or_app. left. apply in_map. exact Hin.
  - apply findByName_None. rewrite Hdes. exact Hnot.
Qed.

End Undesired.

Lemma generateDDLs_drops_undesired_witness :
  In "DROP TABLE `posts`"
     [ "ALTER TABLE `users` ADD COLUMN `name` text AFTER `id`"; "DROP TABLE `posts`" ].
Proof.
  apply (generateDDLs_drops_undesired (rt := asciiRuntime)
           (Fixture.generator GeneratorModeMysql [Fixture.users_id; Fixture.posts])
           [CreateTable "CREATE TABLE users (id bigint NOT NULL, name text)" Fixture.users_id_name]
           _ Fixture.posts); [reflexivity | right; left; reflexivity | reflexivity].
Defined.


(** ** Views and foreign keys created twice *)

Section CreatedTwice.

Context {rt : GoRuntime}.

Lemma examineDDL_desiredViews (g g' : Generator.t) (ddl : DDL) (ddls : list string) :
  examineDDL g ddl = Ok (g', ddls) ->
  exists added, Generator.desiredViews g' = (Generator.desiredViews g ++ added)%list.
Proof.
  destruct ddl as [statement table|statement tableName index|statement tableName index
                  |statement tableName index|statement tableName foreignKey
                  |statement tableName policy|view];
    cbn [examineDDL]; intros Hstep.
  - exists []. rewrite app_nil_r.
    destruct (findTableByName (Generator.currentTables g) (Table.name table)) as [currentTable|].
    + destruct (generateDDLsForCreateTable g currentTable table); cbn [bind] in Hstep;
        [|discriminate].
      injection Hstep as <- _. reflexivity.
    + cbn [bind] in Hstep. injection Hstep as <- _. reflexivity.
  - exists []. rewrite app_nil_r.
    destruct (generateDDLsForCreateIndex_desired _ _ _ _ _ _ _ Hstep) as [d [_ [_ Hv]]]. exact Hv.
  - exists []. rewrite app_nil_r.
    destruct (generateDDLsForCreateIndex_desired _ _ _ _ _ _ _ Hstep) as [d [_ [_ Hv]]]. exact Hv.
  - discriminate.
  - exists []. rewrite app_nil_r. unfold generateDDLsForAddForeignKey in Hstep.
    destruct (findTableByName (Generator.desiredTables g) tableName) as [d|]; [|discriminate].
    match type of Hstep with
    | context [containsString ?l ?s] => destruct (containsString l s)
    end; [discriminate|]. injection Hstep as <- _. reflexivity.
  - exists []. rewrite app_nil_r.
    destruct (generateDDLsForCreatePolicy_desired _ _ _ _ _ _ _ Hstep) as [d [_ [_ Hv]]]. exact Hv.
  - exists [view]. unfold generateDDLsForCreateView in Hstep.
    match type of Hstep with
    | context [containsString ?l ?s] => destruct (containsString l s)
    end; [discriminate|]. injection Hstep as <- _. reflexivity.
Qed.

Lemma examineDDLs_desiredViews (desiredDDLs : list DDL) (g g' : Generator.t)
    (ddls : list string) :
  examineDDLs g desiredDDLs = Ok (g', ddls) ->
  exists added, Generator.desiredViews g' = (Generator.desiredViews g ++ added)%list.
Proof.
  revert g ddls. induction desiredDDLs as [|ddl rest IH]; intros g ddls Hwalk.
  - cbn in Hwalk. injection Hwalk as <- _. exists []. rewrite app_nil_r. reflexivity.
  - rewrite examineDDLs_cons in Hwalk.
    destruct (examineDDL g ddl) as [[g1 ddls1]|e] eqn:Hstep; [|discriminate].
    destruct (examineDDLs g1 rest) as [[g2 ddls2]|e] eqn:Hrest; [|discriminate].
    injection Hwalk as <- _.
    destruct (examineDDL_desiredViews _ _ _ _ Hstep) as [added1 H1].
    destruct (IH _ _ Hrest) as [added2 H2].
    exists (added1 ++ added2)%list. rewrite H2, H1, app_assoc. reflexivity.
Qed.

(** X14.  Two CREATE VIEW statements of one name in the desired schema:
    [generateDDLs] returns an error and no statement list, and when the walk
    reaches the second statement the error is the one of the doubly created
    view, with the text of that statement; no condition on the current
    schema can prevent it. *)
Theorem duplicateView_aborts (g0 : Generator.t) (pre mid post : list DDL) (view1 view2 : View.t) :
  View.name view1 = View.name view2 ->
  (exists e, generateDDLs g0 (pre ++ CreateView view1 :: mid ++ CreateView view2 :: post) = Err e) /\
  (forall g walked,
     examineDDLs g0 (pre ++ CreateView view1 :: mid) = Ok (g, walked) ->
     generateDDLs g0 (pre ++ CreateView view1 :: mid ++ CreateView view2 :: post) =
     Err (DuplicateView (View.name view2) (View.statement view2))).
Proof.
  intros Hname.
  assert (Hreach : forall g walked,
            examineDDLs g0 (pre ++ CreateView view1 :: mid) = Ok (g, walked) ->
            generateDDLs g0 (pre ++ CreateView view1 :: mid ++ CreateView view2 :: post) =
            Err (DuplicateView (View.name view2) (View.statement view2))).
  { intros g walked Hwalk.
    replace (pre ++ CreateView view1 :: mid ++ CreateView view2 :: post)%list
      with ((pre ++ CreateView view1 :: mid) ++ CreateView view2 :: post)%list
      by (rewrite <- app_assoc; reflexivity).
    apply (examineDDLs_step_error g0 g _ post _ walked _ Hwalk).
    cbn [examineDDL]. unfold generateDDLsForCreateView.
    assert (Hin : containsString (convertViewNames (Generator.desiredViews g))
                                 (View.name view2) = true).
    { rewrite examineDDLs_app in Hwalk.
      destruct (examineDDLs g0 pre) as [[g1 ddls1]|e]; [|discriminate].
      rewrite examineDDLs_cons in Hwalk.
      destruct (examineDDL g1 (CreateView view1)) as [[g2 ddls2]|e] eqn:H2; [|discriminate].
      destruct (examineDDLs g2 mid) as [[g3 ddls3]|e] eqn:H3; [|discriminate].
      injection Hwalk as <- _.
      destruct (examineDDLs_desiredViews _ _ _ _ H3) as [added Hadded].
      cbn [examineDDL] in H2. unfold generateDDLsForCreateView in H2.
      match type of H2 with
      | context [containsString ?l ?s] => destruct (containsString l s)
      end; [discriminate|]. injection H2 as <- _.
      rewrite Hadded. cbn [Generator.desiredViews Generator.set_desiredViews].
      unfold convertViewNames. rewrite !map_app, !containsString_app. cbn [map containsString].
      rewrite Hname, String.eqb_refl, orb_true_r. reflexivity. }
    rewrite Hin. reflexivity. }
  split; [|exact Hreach].
  destruct (examineDDLs g0 (pre ++ CreateView view1 :: mid)) as [[g walked]|e] eqn:Hwalk.
  - eexists. exact (Hreach _ _ eq_refl).
  - exists e. apply generateDDLs_walk_error.
    replace (pre ++ CreateView view1 :: mid ++ CreateView view2 :: post)%list
      with ((pre ++ CreateView view1 :: mid) ++ CreateView view2 :: post)%list
      by (rewrite <- app_assoc; reflexivity).
    rewrite examineDDLs_app, Hwalk. reflexivity.
Qed.

(** A foreign key constraint that the desired side holds for a table stays
    there for the rest of the walk. *)
Lemma examineDDL_foreignKey_kept (g g' : Generator.t) (ddl : DDL) (ddls : list string)
    (tableName name : string) :
  examineDDL g ddl = Ok (g', ddls) ->
  (exists d, findTableByName (Generator.desiredTables g) tableName = Some d /\
             containsString (convertForeignKeysToConstraintNames (Table.foreignKeys d)) name
             = true) ->
  exists d, findTableByName (Generator.desiredTables g') tableName = Some d /\
            containsString (convertForeignKeysToConstraintNames (Table.foreignKeys d)) name
            = true.
Proof.
  intros Hstep [d [Hfind Hin]].
  assert (Hupd : forall other f,
            (forall t, Table.name (f t) = Table.name t) ->
            (forall t, containsString
                         (convertForeignKeysToConstraintNames (Table.foreignKeys t)) name = true ->
                       containsString
                         (convertForeignKeysToConstraintNames (Table.foreignKeys (f t))) name
                       = true) ->
            exists d', findTableByName (updateTableByName (Generator.desiredTables g) other f)
                         tableName = Some d' /\
                       containsString
                         (convertForeignKeysToConstraintNames (Table.foreignKeys d')) name = true).
  { intros other f Hf Hkeep. rewrite (findTableByName_update _ _ _ _ Hf), Hfind.
    eexists. split; [reflexivity|]. destruct (String.eqb (Table.name d) other); auto. }
  destruct ddl as [statement table|statement other index|statement other index
                  |statement other index|statement other foreignKey
                  |statement other policy|view];
    cbn [examineDDL] in Hstep.
  - exists d. split; [|exact Hin].
    assert (Hdes : Generator.desiredTables g' = (Generator.desiredTables g ++ [table])%list).
    { destruct (findTableByName (Generator.currentTables g) (Table.name table)) as [currentTable|].
      - destruct (generateDDLsForCreateTable g currentTable table); cbn [bind] in Hstep;
          [|discriminate].
        injection Hstep as <- _. reflexivity.
      - cbn [bind] in Hstep. injection Hstep as <- _. reflexivity. }
    rewrite Hdes. apply findByName_app_Some. exact Hfind.
  - destruct (generateDDLsForCreateIndex_desired _ _ _ _ _ _ _ Hstep) as [_ [_ [Ht _]]].
    rewrite Ht. apply Hupd; [reflexivity | auto].
  - destruct (generateDDLsForCreateIndex_desired _ _ _ _ _ _ _ Hstep) as [_ [_ [Ht _]]].
    rewrite Ht. apply Hupd; [reflexivity | auto].
  - discriminate.
  - unfold generateDDLsForAddForeignKey in Hstep.
    destruct (findTableByName (Generator.desiredTables g) other) as [d0|]; [|discriminate].
    match type of Hstep with
    | context [containsString ?l ?s] => destruct (containsString l s)
    end; [discriminate|]. injection Hstep as <- _.
    cbn [Generator.desiredTables Generator.set_desiredTables].
    apply Hupd; [reflexivity|]. intros t Ht. cbn [Table.foreignKeys Table.set_foreignKeys].
    unfold convertForeignKeysToConstraintNames in *. rewrite map_app.
    apply containsString_snoc. exact Ht.
  - destruct (generateDDLsForCreatePolicy_desired _ _ _ _ _ _ _ Hstep) as [_ [_ [Ht _]]].
    rewrite Ht. apply Hupd; [reflexivity | auto].
  - unfold generateDDLsForCreateView in Hstep.
    match type of Hstep with
    | context [containsString ?l ?s] => destruct (containsString l s)
    end; [discriminate|]. injection Hstep as <- _.
    exists d. split; assumption.
Qed.

Lemma examineDDLs_foreignKey_kept (desiredDDLs : list DDL) (g g' : Generator.t)
    (ddls : list string) (tableName name : string) :
  examineDDLs g desiredDDLs = Ok (g', ddls) ->
  (exists d, findTableByName (Generator.desiredTables g) tableName = Some d /\
             containsString (convertForeignKeysToConstraintNames (Table.foreignKeys d)) name
             = true) ->
  exists d, findTableByName (Generator.desiredTables g') tableName = Some d /\
            containsString (convertForeignKeysToConstraintNames (Table.foreignKeys d)) name
            = true.
Proof.
  revert g ddls. induction desiredDDLs as [|ddl rest IH]; intros g ddls Hwalk Hrec.
  - cbn in Hwalk. injection Hwalk as <- _. exact Hrec.
  - rewrite examineDDLs_cons in Hwalk.
    destruct (examineDDL g ddl) as [[g1 ddls1]|e] eqn:Hstep; [|discriminate].
    destruct (examineDDLs g1 rest) as [[g2 ddls2]|e] eqn:Hrest; [|discriminate].
    injection Hwalk as <- _.
    exact (IH _ _ Hrest (examineDDL_foreignKey_kept _ _ _ _ _ _ Hstep Hrec)).
Qed.

(** X15.  Two ALTER TABLE ... ADD FOREIGN KEY statements with one constraint
    name against one table in the desired schema: [generateDDLs] returns an
    error and no statement list, and when the walk reaches the second
    statement the error is the one worded for a doubly created index, with
    the constraint name in the place of the index name. *)
Theorem duplicateForeignKey_aborts (g0 : Generator.t) (pre mid post : list DDL)
    (statement1 statement2 tableName : string) (foreignKey1 foreignKey2 : ForeignKey.t) :
  ForeignKey.constraintName foreignKey1 = ForeignKey.constraintName foreignKey2 ->
  (exists e, generateDDLs g0 (pre ++ AddForeignKey statement1 tableName foreignKey1 :: mid ++
                              AddForeignKey statement2 tableName foreignKey2 :: post) = Err e) /\
  (forall g walked,
     examineDDLs g0 (pre ++ AddForeignKey statement1 tableName foreignKey1 :: mid) =
       Ok (g, walked) ->
     generateDDLs g0 (pre ++ AddForeignKey statement1 tableName foreignKey1 :: mid ++
                      AddForeignKey statement2 tableName foreignKey2 :: post) =
     Err (DuplicateIndex (ForeignKey.constraintName foreignKey2) tableName statement2)).
Proof.
  intros Hname.
  set (first := AddForeignKey statement1 tableName foreignKey1).
  set (second := AddForeignKey statement2 tableName foreignKey2).
  assert (Hreach : forall g walked,
            examineDDLs g0 (pre ++ first :: mid) = Ok (g, walked) ->
            generateDDLs g0 (pre ++ first :: mid ++ second :: post) =
            Err (DuplicateIndex (ForeignKey.constraintName foreignKey2) tableName statement2)).
  { intros g walked Hwalk.
    replace (pre ++ first :: mid ++ second :: post)%list
      with ((pre ++ first :: mid) ++ second :: post)%list
      by (rewrite <- app_assoc; reflexivity).
    apply (examineDDLs_step_error g0 g _ post _ walked _ Hwalk).
    rewrite examineDDLs_app in Hwalk.
    destruct (examineDDLs g0 pre) as [[g1 ddls1]|e]; [|discriminate].
    rewrite examineDDLs_cons in Hwalk.
    destruct (examineDDL g1 first) as [[g2 ddls2]|e] eqn:H2; [|discriminate].
    destruct (examineDDLs g2 mid) as [[g3 ddls3]|e] eqn:H3; [|discriminate].
    injection Hwalk as <- _.
    assert (Hrec : exists d, findTableByName (Generator.desiredTables g2) tableName = Some d /\
                     containsString (convertForeignKeysToConstraintNames (Table.foreignKeys d))
                                    (ForeignKey.constraintName foreignKey2) = true).
    { subst first. cbn [examineDDL] in H2. unfold generateDDLsForAddForeignKey in H2.
      destruct (findTableByName (Generator.desiredTables g1) tableName) as [d|] eqn:Hd;
        [|discriminate].
      match type of H2 with
      | context [containsString ?l ?s] => destruct (containsString l s)
      end; [discriminate|]. injection H2 as <- _.
      cbn [Generator.desiredTables Generator.set_desiredTables].
      rewrite findTableByName_update by reflexivity. rewrite Hd.
      eexists. split; [reflexivity|].
      rewrite (findByName_name _ _ _ _ Hd), String.eqb_refl.
      cbn [Table.foreignKeys Table.set_foreignKeys].
      unfold convertForeignKeysToConstraintNames. rewrite map_app, containsString_app.
      cbn [map containsString]. rewrite Hname, String.eqb_refl, orb_true_r. reflexivity. }
    destruct (examineDDLs_foreignKey_kept _ _ _ _ _ _ H3 Hrec) as [d [Hd Hin]].
    subst second. cbn [examineDDL]. unfold generateDDLsForAddForeignKey.
    rewrite Hd, Hin. reflexivity. }
  split; [|exact Hreach].
  destruct (examineDDLs g0 (pre ++ first :: mid)) as [[g walked]|e] eqn:Hwalk.
  - eexists. exact (Hreach _ _ eq_refl).
  - exists e. apply generateDDLs_walk_error.
    replace (pre ++ first :: mid ++ second :: post)%list
      with ((pre ++ first :: mid) ++ second :: post)%list
      by (rewrite <- app_assoc; reflexivity).
    rewrite examineDDLs_app, Hwalk. reflexivity.
Qed.

End CreatedTwice.

Lemma duplicateView_aborts_witness :
  generateDDLs (rt := asciiRuntime) (Fixture.generator GeneratorModePostgres [])
    ([] ++ CreateView (View.mk "CREATE VIEW v AS select 1" "v" "select 1") ::
     [] ++ CreateView (View.mk "CREATE VIEW v AS select 2" "v" "select 2") :: []) =
  Err (DuplicateView "v" "CREATE VIEW v AS select 2").
Proof.
  apply (proj2 (duplicateView_aborts (rt := asciiRuntime) (Fixture.generator GeneratorModePostgres [])
                  [] [] [] (View.mk "CREATE VIEW v AS select 1" "v" "select 1")
                  (View.mk "CREATE VIEW v AS select 2" "v" "select 2") eq_refl)
               (Generator.mk GeneratorModePostgres [] []
                  [View.mk "CREATE VIEW v AS select 1" "v" "select 1"] [])
               ["CREATE VIEW v AS select 1"]).
  reflexivity.
Defined.

Lemma duplicateForeignKey_aborts_witness :
  generateDDLs (rt := asciiRuntime) (Fixture.generator GeneratorModeMysql [])
    ([CreateTable "CREATE TABLE posts (...)" Fixture.posts] ++
     AddForeignKey "ALTER TABLE posts ADD CONSTRAINT fk FOREIGN KEY (user_id) ..." "posts"
       (Fixture.foreignKey "fk" "user_id" "users") ::
     [] ++
     AddForeignKey "ALTER TABLE posts ADD CONSTRAINT fk FOREIGN KEY (id) ..." "posts"
       (Fixture.foreignKey "fk" "id" "users") :: []) =
  Err (DuplicateIndex "fk" "posts" "ALTER TABLE posts ADD CONSTRAINT fk FOREIGN KEY (id) ...").
Proof.
  eapply (proj2 (duplicateForeignKey_aborts (rt := asciiRuntime)
                   (Fixture.generator GeneratorModeMysql [])
                   [CreateTable "CREATE TABLE posts (...)" Fixture.posts] [] []
                   "ALTER TABLE posts ADD CONSTRAINT fk FOREIGN KEY (user_id) ..."
                   "ALTER TABLE posts ADD CONSTRAINT fk FOREIGN KEY (id) ..." "posts"
                   (Fixture.foreignKey "fk" "user_id" "users")
                   (Fixture.foreignKey "fk" "id" "users") eq_refl)).
  vm_compute. reflexivity.
Defined.


(** ** What CREATE INDEX leaves in the simulated table *)

Section IndexSimulation.

Context {rt : GoRuntime}.

Lemma findIndexByName_replaceIndex (indexes : list Index.t) (desiredIndex currentIndex : Index.t) :
  findIndexByName indexes (Index.name desiredIndex) = Some currentIndex ->
  findIndexByName (replaceIndex indexes desiredIndex) (Index.name desiredIndex) =
  Some desiredIndex.
Proof.
  unfold findIndexByName, replaceIndex.
  induction indexes as [|index rest IH]; cbn [findByName map]; [discriminate|].
  destruct (String.eqb (Index.name index) (Index.name desiredIndex)) eqn:Heq.
  - intros _. rewrite String.eqb_refl. reflexivity.
  - rewrite Heq. exact IH.
Qed.

(** X16.  After a CREATE INDEX or ALTER TABLE ... ADD INDEX that the walk
    accepted, the simulated current table holds under the index name either
    the desired index itself, when the statement was emitted (alone, or
    after the DROP INDEX of the index it replaces), or an index that
    [areSameIndexes] accepts, when nothing was emitted. *)
Theorem generateDDLsForCreateIndex_simulates (g g' : Generator.t) (tableName : string)
    (desiredIndex : Index.t) (action statement : string) (ddls : list string) :
  generateDDLsForCreateIndex g tableName desiredIndex action statement = Ok (g', ddls) ->
  exists currentTable index,
    findTableByName (Generator.currentTables g') tableName = Some currentTable /\
    findIndexByName (Table.indexes currentTable) (Index.name desiredIndex) = Some index /\
    ((ddls = [] /\ areSameIndexes index desiredIndex = true) \/
     (index = desiredIndex /\
      (ddls = [statement] \/
       ddls = [generateDropIndex g tableName (Index.name desiredIndex); statement]))).
Proof.
  unfold generateDDLsForCreateIndex.
  destruct (findTableByName (Generator.currentTables g) tableName) as [currentTable|] eqn:Hcur;
    [|discriminate].
  pose proof (findByName_name _ _ _ _ Hcur) as Hname.
  destruct (findIndexByName (Table.indexes currentTable) (Index.name desiredIndex))
    as [currentIndex|] eqn:Hidx.
  - pose proof (findByName_name _ _ _ _ Hidx) as Hiname.
    destruct (areSameIndexes currentIndex desiredIndex) eqn:Hsame; cbn [negb];
      cbn [Generator.desiredTables Generator.set_currentTables];
      (destruct (findTableByName (Generator.desiredTables g) tableName) as [desiredTable|];
       [|discriminate]);
      match goal with
      | |- context [containsString ?l ?s] => destruct (containsString l s)
      end; try discriminate; intros H; injection H as <- <-;
      cbn [Generator.currentTables Generator.set_desiredTables Generator.set_currentTables].
    + exists currentTable, currentIndex. repeat split; try assumption.
      left. split; [reflexivity | exact Hsame].
    + rewrite findTableByName_update by reflexivity. rewrite Hcur, Hname, String.eqb_refl.
      eexists. exists desiredIndex. split; [reflexivity|].
      cbn [Table.indexes Table.set_indexes].
      split; [exact (findIndexByName_replaceIndex _ _ _ Hidx)|].
      right. split; [reflexivity|]. right. rewrite Hiname. reflexivity.
  - cbn [Generator.desiredTables Generator.set_currentTables].
    destruct (findTableByName (Generator.desiredTables g) tableName) as [desiredTable|];
      [|discriminate].
    match goal with
    | |- context [containsString ?l ?s] => destruct (containsString l s)
    end; try discriminate. intros H; injection H as <- <-.
    cbn [Generator.currentTables Generator.set_desiredTables Generator.set_currentTables].
    rewrite findTableByName_update by reflexivity. rewrite Hcur, Hname, String.eqb_refl.
    eexists. exists desiredIndex. split; [reflexivity|].
    cbn [Table.indexes Table.set_indexes]. split.
    + apply findByName_snoc_fresh. apply findByName_none_names. exact Hidx.
    + right. split; [reflexivity|]. left. reflexivity.
Qed.

End IndexSimulation.

Lemma generateDDLsForCreateIndex_simulates_witness :
  exists currentTable index,
    findTableByName [Table.set_indexes [Fixture.index_plain] Fixture.users_id_name] "users" =
      Some currentTable /\
    findIndexByName (Table.indexes currentTable) "ix_name" = Some index /\
    index = Fixture.index_plain.
Proof.
  destruct (generateDDLsForCreateIndex_simulates
              (Generator.mk GeneratorModeMysql [Fixture.users_id_name] [Fixture.users_id_name] [] [])
              (Generator.mk GeneratorModeMysql
                 [Table.set_indexes [Fixture.index_plain] Fixture.users_id_name]
                 [Table.set_indexes [Fixture.index_plain] Fixture.users_id_name] [] [])
              "users" Fixture.index_plain "CREATE INDEX"
              "CREATE INDEX ix_name ON users (name)"
              ["CREATE INDEX ix_name ON users (name)"] eq_refl)
    as [currentTable [index [Htable [Hindex Hcases]]]].
  exists currentTable, index. repeat split; try assumption.
  destruct Hcases as [[Hnil _]|[Heq _]]; [discriminate Hnil | exact Heq].
Defined.

(** ** Foreign keys that exist under their name *)

Section ForeignKeys.

Context {rt : GoRuntime}.

(** X17.  For a desired foreign key whose constraint name the current table
    has, no statement is emitted exactly when the ON UPDATE and ON DELETE
    actions agree after normalisation; the columns, the referenced table and
    the referenced columns are not compared. *)
Theorem examineForeignKey_unchanged_iff (g : Generator.t) (currentTable desired : Table.t)
    (desiredForeignKey currentForeignKey : ForeignKey.t) :
  ForeignKey.constraintName desiredForeignKey <> EmptyString ->
  findForeignKeyByName (Table.foreignKeys currentTable)
                       (ForeignKey.constraintName desiredForeignKey) = Some currentForeignKey ->
  (examineForeignKey g currentTable desired desiredForeignKey = Ok [] <->
   normalizeOnUpdate g (ForeignKey.onUpdate currentForeignKey) =
     normalizeOnUpdate g (ForeignKey.onUpdate desiredForeignKey) /\
   normalizeOnDelete g (ForeignKey.onDelete currentForeignKey) =
     normalizeOnDelete g (ForeignKey.onDelete desiredForeignKey)).
Proof.
  intros Hname Hfind. unfold examineForeignKey.
  destruct (ForeignKey.constraintName desiredForeignKey) as [|c rest] eqn:Hc; [contradiction|].
  cbn [String.length Nat.eqb]. rewrite Hfind. unfold areSameForeignKeys.
  destruct (String.eqb_spec (normalizeOnUpdate g (ForeignKey.onUpdate currentForeignKey))
                            (normalizeOnUpdate g (ForeignKey.onUpdate desiredForeignKey)))
    as [Hu|Hu]; cbn [negb].
  - destruct (String.eqb_spec (normalizeOnDelete g (ForeignKey.onDelete currentForeignKey))
                              (normalizeOnDelete g (ForeignKey.onDelete desiredForeignKey)))
      as [Hd|Hd]; cbn [negb].
    + split; [intros _; split; assumption | reflexivity].
    + split; [|intros [_ H]; contradiction].
      intros H. injection H as H. exfalso. exact (app_cons_not_nil _ _ _ (eq_sym H)).
  - split; [|intros [H _]; contradiction].
    intros H. injection H as H. exfalso. exact (app_cons_not_nil _ _ _ (eq_sym H)).
Qed.

End ForeignKeys.

Lemma examineForeignKey_unchanged_iff_witness :
  examineForeignKey (Fixture.generator GeneratorModePostgres [])
    Fixture.posts_fk Fixture.posts_fk
    (ForeignKey.mk "posts_ibfk_1" EmptyString ["id"] "accounts" ["key"] "NO ACTION" EmptyString)
  = Ok [].
Proof.
  apply (examineForeignKey_unchanged_iff
           (Fixture.generator GeneratorModePostgres []) Fixture.posts_fk Fixture.posts_fk
           (ForeignKey.mk "posts_ibfk_1" EmptyString ["id"] "accounts" ["key"] "NO ACTION"
              EmptyString)
           (Fixture.foreignKey "posts_ibfk_1" "user_id" "users")
           ltac:(discriminate) eq_refl).
  split; reflexivity.
Defined.


(** ** When a column definition can be rendered *)

Section Renderable.

Context {rt : GoRuntime}.

Lemma defaultClause_ok (column : Column.t) :
  (exists clause, defaultClause column = Ok clause) <->
  (forall defaultDef value,
     Column.defaultDef column = Some defaultDef ->
     DefaultDefinition.value defaultDef = Some value ->
     In (Value.valueType value)
        [ValueTypeStr; ValueTypeInt; ValueTypeFloat; ValueTypeBit; ValueTypeValArg]).
Proof.
  unfold defaultClause, generateDefaultDefinition.
  destruct (Column.defaultDef column) as [d|]; [|split; [discriminate | eauto]].
  destruct (DefaultDefinition.value d) as [v|] eqn:Hv;
    [|split; [intros _ d' v' Hd Hv'; injection Hd as <-; congruence | eauto]].
  destruct (Value.valueType v) eqn:Ht;
    try destruct (Value.bitVal v);
    (split;
     [ intros [clause Hok]; try discriminate Hok;
       intros d' v' Hd Hv'; injection Hd as <-; rewrite Hv in Hv'; injection Hv' as <-;
       rewrite Ht; cbn; tauto
     | intros H; try (eexists; reflexivity);
       specialize (H d v eq_refl Hv); rewrite Ht in H; cbn in H; intuition discriminate ]).
Qed.

Lemma keyOptionClause_ok (column : Column.t) (enableUnique : bool) :
  (exists clause, keyOptionClause column enableUnique = Ok clause) <->
  In (Column.keyOption column)
     [ColumnKeyNone; ColumnKeyUnique; ColumnKeyUniqueKey; ColumnKeyPrimary].
Proof.
  unfold keyOptionClause.
  destruct (Column.keyOption column); cbn;
    (split; [intros [clause Hok]; try discriminate Hok; tauto
            | intros H; try (eexists; reflexivity); intuition discriminate]).
Qed.

Lemma identityClause_ok (g : Generator.t) (column : Column.t) :
  (exists clause, identityClause g column = Ok clause) <->
  (Column.identity column = EmptyString -> Generator.mode g = GeneratorModeMssql ->
   forall sequence, Column.sequence column = Some sequence ->
     Sequence.StartWith sequence <> None /\ Sequence.IncrementBy sequence <> None).
Proof.
  unfold identityClause.
  destruct (String.eqb_spec (Column.identity column) EmptyString) as [Hid|Hid]; cbn [negb].
  - destruct (Generator.mode g);
      try (split; [intros _ _ Hmode; discriminate Hmode | intros _; destruct (Column.sequence column); eauto]).
    destruct (Column.sequence column) as [sequence|];
      [|split; [intros _ _ _ s Hs; discriminate Hs | eauto]].
    destruct (Sequence.StartWith sequence) as [startWith|] eqn:Hs;
      destruct (Sequence.IncrementBy sequence) as [incrementBy|] eqn:Hi;
      (split;
       [ intros [clause Hok]; try discriminate Hok;
         intros _ _ s Heq; injection Heq as <-; rewrite Hs, Hi; split; discriminate
       | intros H; try (eexists; reflexivity);
         destruct (H Hid eq_refl sequence eq_refl) as [H1 H2]; congruence ]).
  - split; [intros _ Hid'; contradiction | eauto].
Qed.

(** X18.  A column definition can be rendered exactly when its default
    value, if it has one, is a string, an integer, a float, a bit or a
    bare argument, its key option is none, unique, unique key or primary,
    and, for an MSSQL column without GENERATED ... AS IDENTITY that has a
    sequence, the sequence gives both START WITH and INCREMENT BY; whether
    UNIQUE is to be rendered makes no difference. *)
Theorem generateColumnDefinition_succeeds_iff (g : Generator.t) (column : Column.t)
    (enableUnique : bool) :
  (exists definition, generateColumnDefinition g column enableUnique = Ok definition) <->
  (forall defaultDef value,
     Column.defaultDef column = Some defaultDef ->
     DefaultDefinition.value defaultDef = Some value ->
     In (Value.valueType value)
        [ValueTypeStr; ValueTypeInt; ValueTypeFloat; ValueTypeBit; ValueTypeValArg]) /\
  In (Column.keyOption column)
     [ColumnKeyNone; ColumnKeyUnique; ColumnKeyUniqueKey; ColumnKeyPrimary] /\
  (Column.identity column = EmptyString -> Generator.mode g = GeneratorModeMssql ->
   forall sequence, Column.sequence column = Some sequence ->
     Sequence.StartWith sequence <> None /\ Sequence.IncrementBy sequence <> None).
Proof.
  rewrite <- defaultClause_ok, <- (keyOptionClause_ok column enableUnique),
    <- (identityClause_ok g column).
  unfold generateColumnDefinition, columnDefinitionClauses.
  destruct (defaultClause column) as [def|e1]; cbn [bind].
  - destruct (keyOptionClause column enableUnique) as [key|e2]; cbn [bind].
    + destruct (identityClause g column) as [ident|e3]; cbn [bind].
      * split; [intros _; repeat split; eexists; reflexivity | intros _; eexists; reflexivity].
      * split; [intros [d Hd]; discriminate Hd | intros [_ [_ [c Hc]]]; discriminate Hc].
    + split; [intros [d Hd]; discriminate Hd | intros [_ [[c Hc] _]]; discriminate Hc].
  - split; [intros [d Hd]; discriminate Hd | intros [[c Hc] _]; discriminate Hc].
Qed.

End Renderable.


(** ** A primary key that changes under Postgres *)

Section PrimaryKeyChange.

Context {rt : GoRuntime}.

(** X19.  Under Postgres the statement that drops a replaced primary key
    takes the table name after the schema from [SplitN(name, ".", 2)[1]]:
    when the desired table name holds no dot and the current table has a
    primary key that differs from the desired one, the examination of the
    primary key panics, and the diff of the table returns no statements. *)
Theorem examinePrimaryKey_postgres_unqualified (g : Generator.t) (currentTable desired : Table.t)
    (primaryKey : Index.t) :
  Generator.mode g = GeneratorModePostgres ->
  (forall c, In c (list_ascii_of_string (Table.name desired)) -> c <> "."%char) ->
  PrimaryKey currentTable = Some primaryKey ->
  areSamePrimaryKeys (Some primaryKey) (PrimaryKey desired) = false ->
  examinePrimaryKey g currentTable desired = Err (Panic "index out of range") /\
  isOk (generateDDLsForCreateTable g currentTable desired) = false.
Proof.
  intros Hmode Hdot Hcur Hdiff. apply SplitN2_no_dot in Hdot.
  assert (Hpanic : examinePrimaryKey g currentTable desired = Err (Panic "index out of range")).
  { unfold examinePrimaryKey. rewrite Hcur, Hdiff, Hmode, Hdot. reflexivity. }
  split; [exact Hpanic|].
  unfold generateDDLsForCreateTable.
  destruct (concatMapMi _ _ _); cbn [bind]; [|reflexivity].
  destruct (removeOldAutoIncrement _ _ _); cbn [bind]; [|reflexivity].
  rewrite Hpanic. reflexivity.
Qed.

End PrimaryKeyChange.

Lemma examinePrimaryKey_postgres_unqualified_witness :
  examinePrimaryKey (Fixture.generator GeneratorModePostgres [])
    Fixture.users_primary_key Fixture.users_id =
  Err (Panic "index out of range").
Proof.
  refine (proj1 (examinePrimaryKey_postgres_unqualified (rt := asciiRuntime)
                   (Fixture.generator GeneratorModePostgres [])
                   Fixture.users_primary_key Fixture.users_id
                   (Index.mk "PRIMARY" "primary key" [IndexColumn.mk "id" None]
                      true true EmptyString true [])
                   eq_refl _ eq_refl eq_refl)).
  cbn. intros c H. repeat (destruct H as [<-|H]; [discriminate|]). destruct H.
Defined.

(** ** The folded schema *)

Lemma setPrimaryKeyColumn_names (columns newColumns : list Column.t) (index : Index.t) :
  setPrimaryKeyColumn columns index = Ok newColumns ->
  map Column.name newColumns = map Column.name columns.
Proof.
  unfold setPrimaryKeyColumn. destruct columns as [|column rest]; [intros H; injection H as <-; reflexivity|].
  destruct (Index.columns index) as [|first others]; [discriminate|].
  assert (Hmap : forall l,
            map Column.name
                (map (fun c => if String.eqb (Column.name c) (IndexColumn.column first)
                               then Column.set_keyOption ColumnKeyPrimary c else c) l) =
            map Column.name l).
  { intros l. rewrite map_map. apply map_ext.
    intros c. destruct (String.eqb (Column.name c) (IndexColumn.column first)); reflexivity. }
  intros H; injection H as <-. exact (Hmap (column :: rest)).
Qed.

(** The tables of the folder keep, statement after statement, their names
    and the names of their columns. *)
Lemma convertDDLsToTables_loop_names (ddls : list DDL) (tables result : list Table.t) :
  convertDDLsToTables_loop tables ddls = Ok result ->
  map (fun t => (Table.name t, map Column.name (Table.columns t))) result =
  (map (fun t => (Table.name t, map Column.name (Table.columns t))) tables ++
   flat_map (fun ddl => match ddl with
                        | CreateTable _ table =>
                            [(Table.name table, map Column.name (Table.columns table))]
                        | _ => []
                        end) ddls)%list.
Proof.
  assert (Hupd : forall (tables : list Table.t) name f,
            (forall t, Table.name (f t) = Table.name t) ->
            (forall t, findTableByName tables name = Some t ->
                       map Column.name (Table.columns (f t)) = map Column.name (Table.columns t)) ->
            map (fun t => (Table.name t, map Column.name (Table.columns t)))
                (updateTableByName tables name f) =
            map (fun t => (Table.name t, map Column.name (Table.columns t))) tables).
  { intros l name f Hname. unfold findTableByName.
    induction l as [|t rest IH]; intros Hcols; [reflexivity|].
    cbn [updateTableByName]. cbn [findByName] in Hcols.
    destruct (String.eqb (Table.name t) name).
    - cbn [map]. rewrite Hname, (Hcols t eq_refl). reflexivity.
    - cbn [map]. rewrite (IH Hcols). reflexivity. }
  revert tables. induction ddls as [|ddl rest IH]; intros tables Hfold.
  - cbn in Hfold. injection Hfold as <-. cbn [flat_map]. rewrite app_nil_r. reflexivity.
  - cbn [convertDDLsToTables_loop] in Hfold. cbn [flat_map].
    destruct ddl as [statement table|statement tableName index|statement tableName index
                    |statement tableName index|statement tableName foreignKey
                    |statement tableName policy|view]; cbn [bind] in Hfold.
    + rewrite (IH _ Hfold), map_app, <- app_assoc. reflexivity.
    + destruct (findTableByName tables tableName); [|discriminate]. cbn [bind] in Hfold.
      rewrite (IH _ Hfold), Hupd; reflexivity.
    + discriminate.
    + destruct (findTableByName tables tableName) as [table|] eqn:Hfind; [|discriminate].
      cbn [bind] in Hfold.
      destruct (setPrimaryKeyColumn (Table.columns table) index) as [newColumns|e] eqn:Hset;
        [|discriminate].
      cbn [bind] in Hfold. rewrite (IH _ Hfold), Hupd; [reflexivity | reflexivity |].
      intros t Ht. rewrite Hfind in Ht. injection Ht as <-.
      cbn [Table.columns Table.set_columns]. exact (setPrimaryKeyColumn_names _ _ _ Hset).
    + destruct (findTableByName tables tableName); [|discriminate]. cbn [bind] in Hfold.
      rewrite (IH _ Hfold), Hupd; reflexivity.
    + destruct (findTableByName tables tableName); [|discriminate]. cbn [bind] in Hfold.
      rewrite (IH _ Hfold), Hupd; reflexivity.
    + rewrite (IH _ Hfold). reflexivity.
Qed.


(** X20.  The schema folded from the current statements has one table for
    every CREATE TABLE, in the order of the statements, under the name and
    with the column names of that statement, two statements of one name
    giving two tables; no other statement adds or removes a table or a
    column, or renames one. *)
Theorem convertDDLsToTables_names (ddls : list DDL) (tables : list Table.t) :
  convertDDLsToTables ddls = Ok tables ->
  map (fun t => (Table.name t, map Column.name (Table.columns t))) tables =
  flat_map (fun ddl => match ddl with
                       | CreateTable _ table =>
                           [(Table.name table, map Column.name (Table.columns table))]
                       | _ => []
                       end) ddls.
Proof.
  intros H. exact (convertDDLsToTables_loop_names ddls [] tables H).
Qed.

Lemma convertDDLsToTables_names_witness :
  map (fun t => (Table.name t, map Column.name (Table.columns t)))
      [Table.mk "users" [Column.set_keyOption ColumnKeyPrimary Fixture.id] [] [] [];
       Fixture.users_id_name] =
  [("users", ["id"]); ("users", ["id"; "name"])].
Proof.
  apply (convertDDLsToTables_names
           [CreateTable "CREATE TABLE users (id bigint)" Fixture.users_id;
            AddPrimaryKey "ALTER TABLE users ADD PRIMARY KEY (id)" "users"
              (Fixture.index "PRIMARY" ["id"] []);
            CreateTable "CREATE TABLE users (id bigint NOT NULL, name text)"
              Fixture.users_id_name]).
  reflexivity.
Defined.


(** ** AUTO_INCREMENT is added after the keys *)

Section AutoIncrement.

Context {rt : GoRuntime}.

(** X21.  When the current table has no column of the name, or has one
    without AUTO_INCREMENT, the examination of the desired column is the
    one of the same column without AUTO_INCREMENT; under MySQL the phase
    after the indexes then changes the column to its full definition, which
    it renders without UNIQUE. *)
Theorem autoIncrement_deferred (g : Generator.t) (currentTable desired : Table.t) (i : nat)
    (column : Column.t) :
  (forall current,
     findColumnByName (Table.columns currentTable) (Column.name column) = Some current ->
     Column.autoIncrement current = false) ->
  examineColumn g currentTable desired i column =
    examineColumn g currentTable desired i (Column.set_autoIncrement false column) /\
  (Generator.mode g = GeneratorModeMysql ->
   Column.autoIncrement column = true ->
   In column (Table.columns desired) ->
   forall out, addNewAutoIncrement g currentTable desired = Ok out ->
   exists definition,
     generateColumnDefinition g column false = Ok definition /\
     In ("ALTER TABLE " ++ escapeTableName g (Table.name currentTable) ++ " CHANGE COLUMN " ++
         escapeSQLName g (Column.name column) ++ " " ++ definition) out).
Proof.
  intros Hcur. split.
  - unfold examineColumn.
    replace (Column.name (Column.set_autoIncrement false column)) with (Column.name column)
      by reflexivity.
    rewrite (set_autoIncrement_same (Column.set_autoIncrement false column) false eq_refl).
    destruct (findColumnByName (Table.columns currentTable) (Column.name column))
      as [current|]; [|reflexivity].
    rewrite (Hcur current eq_refl). reflexivity.
  - intros Hmode Hauto Hin out Hout. unfold addNewAutoIncrement in Hout. rewrite Hmode in Hout.
    destruct (concatMapM_segment _ _ _ _ Hout Hin) as [o [pre [post [Hf Hsplit]]]].
    cbn beta in Hf. rewrite Hauto in Hf.
    assert (Hnot : match findColumnByName (Table.columns currentTable) (Column.name column) with
                   | Some c => negb (Column.autoIncrement c)
                   | None => true
                   end = true).
    { destruct (findColumnByName (Table.columns currentTable) (Column.name column)) as [c|];
        [|reflexivity].
      rewrite (Hcur c eq_refl). reflexivity. }
    rewrite Hnot in Hf. cbn [andb] in Hf.
    destruct (generateColumnDefinition g column false) as [definition|e]; [|discriminate].
    cbn [bind] in Hf. injection Hf as <-.
    exists definition. split; [reflexivity|].
    rewrite Hsplit. apply in_or_app. right. left. reflexivity.
Qed.

End AutoIncrement.

Lemma autoIncrement_deferred_witness :
  examineColumn (rt := asciiRuntime) (Fixture.generator GeneratorModeMysql [])
    Fixture.users_id Fixture.users_id_name 1 (Column.set_autoIncrement true Fixture.name) =
  Ok ["ALTER TABLE `users` ADD COLUMN `name` text AFTER `id`"].
Proof.
  rewrite (proj1 (autoIncrement_deferred (rt := asciiRuntime)
                    (Fixture.generator GeneratorModeMysql [])
                    Fixture.users_id Fixture.users_id_name 1
                    (Column.set_autoIncrement true Fixture.name)
                    ltac:(intros current H; discriminate H))).
  reflexivity.
Defined.
